(** * mb8600-clickhouse: the authenticated polling pipeline of [mb8600.py]

    A shallow embedding of the exporter: the HNAP crypto helpers
    ([generate_private_key], [generate_login_password], [generate_hnap_auth]),
    the telemetry parsers inlined in [MB8600.export] (channel strings, uptime),
    [MB8600.login], the poll loop of [MB8600.export] with its
    reauthentication path, the writer [MB8600.insert_into_clickhouse], and
    the reading of the environment in [MB8600._load_env_vars].

    Conventions.
    - A Python [str] is a Rocq [string] holding its UTF-8 bytes; the modem
      speaks ASCII, and the character classes ([\d], [\s], [str.upper], the
      digits and spaces of [int] and [float]) are the ASCII ones.
      [str.encode()] is then the list of those bytes; a [str] without an
      encoding (a lone surrogate, on which [str.encode] raises) is not a
      [string].  CPython's classes are wider outside ASCII, and its [int]
      refuses a text of more than 4300 digits: what is said of the
      conversion of any text is said of plain text ([plain_text],
      [ascii_text]), where the two agree.
    - A Python [int] is a [Z]; a Python [float] is a binary64 [float]
      (primitive floats), with the IEEE operations of the kernel; [float] of
      a [str] rounds the decimal to the nearest binary64, ties to even.
    - [hashlib.md5] and [hmac.new] are library code; they are written out
      after RFC 1321 and CPython's [hmac.py] so that the helpers compute.
      [re] is written out as a backtracking matcher for the operators of
      [UPTIME_REGEX].
    - A coroutine is a function from the state of the exporter to an
      outcome (a value or an exception), the next state, and the trace of
      what it did.  The modem's answers, the clocks and the outcome of the
      inserts are read from an environment, one position per use.
    - The two endless loops are cut after [n] turns.  Cancellation of the
      tasks is outside the model, as is the wait of [put] on a full queue.
    - [sleep] is [asyncio.sleep] at a delay it accepts, and [export_cycle],
      [poll_loop] and [export] are the loop at such a delay.
      [asyncio_sleep] raises [OverflowError] at a delay beyond the range of
      [float], which [_load_env_vars] lets through; [full_export_cycle],
      [full_poll_loop] and [full_export] are the loop at any delay, and are
      the former at an accepted one ([full_export_accepted]).
    - Debug-level log lines are not part of the trace. *)

From Stdlib Require Import ZArith String Ascii List Bool Lia.
From Stdlib.Strings Require Import Byte.
From Stdlib Require Import DecimalString DecimalPos Floats.
Import ListNotations.
Set Warnings "-register-all,-inexact-float".
Local Open Scope string_scope.
Local Open Scope list_scope.
Local Open Scope Z_scope.

(* ================================================================== *)
(** * Part I: definitions                                              *)
(* ================================================================== *)

(** ** Strings and bytes *)

(** [s.encode()]: the bytes of a string. *)
Definition encode (s : string) : list byte := list_byte_of_string s.

Definition Z_of_byte (b : byte) : Z := Z.of_N (Byte.to_N b).

Definition byte_of_Z (z : Z) : byte :=
  match Byte.of_N (Z.to_N (z mod 256)) with
  | Some b => b
  | None => x00
  end.

(** [str(n)] / [f'{n}'] for an [int]. *)
Definition str_of_int (n : Z) : string := NilZero.string_of_int (Z.to_int n).

Definition is_digit (c : ascii) : bool :=
  let n := nat_of_ascii c in (48 <=? n)%nat && (n <=? 57)%nat.

Definition is_upper_hex (c : ascii) : bool :=
  let n := nat_of_ascii c in
  ((48 <=? n)%nat && (n <=? 57)%nat) || ((65 <=? n)%nat && (n <=? 70)%nat).

Fixpoint string_forallb (p : ascii -> bool) (s : string) : bool :=
  match s with
  | EmptyString => true
  | String c s' => p c && string_forallb p s'
  end.

(** [c.upper()] on one ASCII character. *)
Definition upper_ascii (c : ascii) : ascii :=
  let n := nat_of_ascii c in
  if (97 <=? n)%nat && (n <=? 122)%nat then ascii_of_nat (n - 32) else c.

(** [s.upper()]. *)
Fixpoint upper (s : string) : string :=
  match s with
  | EmptyString => EmptyString
  | String c s' => String (upper_ascii c) (upper s')
  end.

(** One lowercase hexadecimal digit, as [bytes.hex()] prints it. *)
Definition hex_digit (n : Z) : ascii :=
  if n <? 10 then ascii_of_nat (Z.to_nat (48 + n))
  else ascii_of_nat (Z.to_nat (87 + n)).

(** [digest.hex()]: two lowercase digits per byte. *)
Fixpoint hex_of_bytes (bs : list byte) : string :=
  match bs with
  | [] => EmptyString
  | b :: bs' =>
      String (hex_digit (Z_of_byte b / 16))
        (String (hex_digit (Z_of_byte b mod 16)) (hex_of_bytes bs'))
  end.

(** ** MD5 (RFC 1321), the digest behind [hashlib.md5] *)

Definition add32 (x y : Z) : Z := (x + y) mod 2 ^ 32.
Definition not32 (x : Z) : Z := Z.lxor x 0xffffffff.
Definition rotl32 (x n : Z) : Z :=
  Z.lor (Z.shiftl x n mod 2 ^ 32) (Z.shiftr x (32 - n)).

Definition md5_K : list Z :=
  [ 0xd76aa478; 0xe8c7b756; 0x242070db; 0xc1bdceee;
    0xf57c0faf; 0x4787c62a; 0xa8304613; 0xfd469501;
    0x698098d8; 0x8b44f7af; 0xffff5bb1; 0x895cd7be;
    0x6b901122; 0xfd987193; 0xa679438e; 0x49b40821;
    0xf61e2562; 0xc040b340; 0x265e5a51; 0xe9b6c7aa;
    0xd62f105d; 0x02441453; 0xd8a1e681; 0xe7d3fbc8;
    0x21e1cde6; 0xc33707d6; 0xf4d50d87; 0x455a14ed;
    0xa9e3e905; 0xfcefa3f8; 0x676f02d9; 0x8d2a4c8a;
    0xfffa3942; 0x8771f681; 0x6d9d6122; 0xfde5380c;
    0xa4beea44; 0x4bdecfa9; 0xf6bb4b60; 0xbebfbc70;
    0x289b7ec6; 0xeaa127fa; 0xd4ef3085; 0x04881d05;
    0xd9d4d039; 0xe6db99e5; 0x1fa27cf8; 0xc4ac5665;
    0xf4292244; 0x432aff97; 0xab9423a7; 0xfc93a039;
    0x655b59c3; 0x8f0ccc92; 0xffeff47d; 0x85845dd1;
    0x6fa87e4f; 0xfe2ce6e0; 0xa3014314; 0x4e0811a1;
    0xf7537e82; 0xbd3af235; 0x2ad7d2bb; 0xeb86d391 ].

Definition md5_S : list Z :=
  [ 7; 12; 17; 22; 7; 12; 17; 22; 7; 12; 17; 22; 7; 12; 17; 22;
    5; 9; 14; 20; 5; 9; 14; 20; 5; 9; 14; 20; 5; 9; 14; 20;
    4; 11; 16; 23; 4; 11; 16; 23; 4; 11; 16; 23; 4; 11; 16; 23;
    6; 10; 15; 21; 6; 10; 15; 21; 6; 10; 15; 21; 6; 10; 15; 21 ].

Record md5_state : Type :=
  { md5_a : Z; md5_b : Z; md5_c : Z; md5_d : Z }.

Definition md5_init : md5_state :=
  {| md5_a := 0x67452301; md5_b := 0xefcdab89;
     md5_c := 0x98badcfe; md5_d := 0x10325476 |}.

(** Operation [i] (0..63) of the block transform on the message words [M]. *)
Definition md5_op (M : list Z) (st : md5_state) (i : nat) : md5_state :=
  let a := md5_a st in
  let b := md5_b st in
  let c := md5_c st in
  let d := md5_d st in
  let (f, g) :=
    if (i <? 16)%nat then
      (Z.lor (Z.land b c) (Z.land (not32 b) d), i)
    else if (i <? 32)%nat then
      (Z.lor (Z.land d b) (Z.land (not32 d) c), ((5 * i + 1) mod 16)%nat)
    else if (i <? 48)%nat then
      (Z.lxor (Z.lxor b c) d, ((3 * i + 5) mod 16)%nat)
    else
      (Z.lxor c (Z.lor b (not32 d)), ((7 * i) mod 16)%nat) in
  let f' := add32 (add32 (add32 f a) (nth i md5_K 0)) (nth g M 0) in
  {| md5_a := d; md5_b := add32 b (rotl32 f' (nth i md5_S 0));
     md5_c := b; md5_d := c |}.

(** Little-endian 32-bit words of a block of bytes. *)
Fixpoint le_words (bs : list Z) : list Z :=
  match bs with
  | b0 :: b1 :: b2 :: b3 :: rest =>
      (b0 + 256 * b1 + 65536 * b2 + 16777216 * b3) :: le_words rest
  | _ => []
  end.

Definition md5_block (st : md5_state) (block : list Z) : md5_state :=
  let st' := fold_left (md5_op (le_words block)) (seq 0 64) st in
  {| md5_a := add32 (md5_a st) (md5_a st');
     md5_b := add32 (md5_b st) (md5_b st');
     md5_c := add32 (md5_c st) (md5_c st');
     md5_d := add32 (md5_d st) (md5_d st') |}.

(** The message followed by 0x80, zeros up to 56 mod 64, and its bit length
    on 8 little-endian bytes. *)
Definition le_bytes (n : nat) (x : Z) : list Z :=
  map (fun i => (x / 256 ^ Z.of_nat i) mod 256) (seq 0 n).

Definition md5_pad (msg : list Z) : list Z :=
  let len := Z.of_nat (length msg) in
  let zeros := Z.to_nat ((55 - len) mod 64) in
  msg ++ [0x80] ++ repeat 0 zeros ++ le_bytes 8 ((8 * len) mod 2 ^ 64).

(** The blocks of [bs], 64 bytes each; [n] bounds their number. *)
Fixpoint md5_blocks (n : nat) (st : md5_state) (bs : list Z) : md5_state :=
  match n with
  | O => st
  | S n' =>
      match bs with
      | [] => st
      | _ => md5_blocks n' (md5_block st (firstn 64 bs)) (skipn 64 bs)
      end
  end.

(** [hashlib.md5(msg).digest()]. *)
Definition md5 (msg : list byte) : list byte :=
  let padded := md5_pad (map Z_of_byte msg) in
  let st := md5_blocks (length padded) md5_init padded in
  map byte_of_Z
    (le_bytes 4 (md5_a st) ++ le_bytes 4 (md5_b st) ++
     le_bytes 4 (md5_c st) ++ le_bytes 4 (md5_d st)).

(** ** HMAC, as [hmac.new(key, msg, hashlib.md5)] computes it *)

Definition md5_block_size : nat := 64.

Definition xor_byte (k : Z) (b : byte) : byte :=
  byte_of_Z (Z.lxor (Z_of_byte b) k).

(** [hmac.new(key, msg, hashlib.md5).digest()]: a key longer than the block
    is hashed first, then padded with zero bytes to the block size. *)
Definition hmac_md5 (key msg : list byte) : list byte :=
  let key1 := if (md5_block_size <? length key)%nat then md5 key else key in
  let key2 := key1 ++ repeat x00 (md5_block_size - length key1) in
  let inner := md5 (map (xor_byte 0x36) key2 ++ msg) in
  md5 (map (xor_byte 0x5c) key2 ++ inner).

(** [hmac.new(key, msg, hashlib.md5).hexdigest()]. *)
Definition hmac_md5_hexdigest (key msg : list byte) : string :=
  hex_of_bytes (hmac_md5 key msg).

(** ** The crypto/auth helpers of [MB8600] *)

(** [MB8600.generate_private_key]; [modem_password] is [self.modem_password]. *)
Definition generate_private_key
    (modem_password public_key challenge : string) : string :=
  upper (hmac_md5_hexdigest (encode (public_key ++ modem_password)%string)
                            (encode challenge)).

(** [MB8600.generate_login_password]. *)
Definition generate_login_password (private_key challenge : string) : string :=
  upper (hmac_md5_hexdigest (encode private_key) (encode challenge)).

Definition hnap_uri_prefix : string := "http://purenetworks.com/HNAP1/".

(** The timestamp of [generate_hnap_auth]: [now_ms] is the value of
    [int(time.time() * 1000)], the clock reading in milliseconds. *)
Definition hnap_timestamp (now_ms : Z) : Z := now_ms mod 2000000000000.

(** [MB8600.generate_hnap_auth] at clock reading [now_ms]. *)
Definition generate_hnap_auth
    (now_ms : Z) (soap_action private_key : string) : string :=
  let current_time := hnap_timestamp now_ms in
  let soap_action_uri := (hnap_uri_prefix ++ soap_action)%string in
  let auth :=
    upper (hmac_md5_hexdigest (encode private_key)
             (encode (str_of_int current_time ++ soap_action_uri)%string)) in
  (auth ++ " " ++ str_of_int current_time)%string.

(** The key used before a session exists (the default of [private_key]). *)
Definition withoutloginkey : string := "withoutloginkey".

(** The text after the digest and the space of an [Hnap_auth] value. *)
Definition hnap_auth_suffix (auth : string) : string :=
  substring 33 (String.length auth - 33) auth.

(** The shape [^[0-9A-F]{32} \d+$]: 32 uppercase hexadecimal digits, one
    space, one or more decimal digits, nothing else. *)
Definition hnap_auth_shape (auth : string) : bool :=
  (33 <? String.length auth)%nat &&
  string_forallb is_upper_hex (substring 0 32 auth) &&
  String.eqb (substring 32 1 auth) " " &&
  string_forallb is_digit (hnap_auth_suffix auth).

(** ** Exceptions and results *)

(** The exceptions the modelled code raises; all derive from [Exception].
    Task cancellation is not an error of the code and is not represented. *)
Inductive exn : Type :=
| KeyError            (* a missing key of a response dict *)
| TypeError           (* [int(None)], subscripting a non-dict *)
| ValueError          (* [int]/[float] of a bad string, unpacking a wrong field count *)
| AttributeError      (* a method of [str] called on another value *)
| ClientError         (* [aiohttp]: the request or the reading of its body failed *)
| JSONDecodeError     (* the body is not JSON *)
| InvalidCredentials  (* [Exception('Invalid username or password')] *)
| ClickHouseError     (* [aiochclient]: the insert failed *)
| OverflowError.      (* [asyncio.sleep] of an [int] beyond the range of [float] *)

Inductive result (A : Type) : Type :=
| Ok (a : A)
| Err (e : exn).
Arguments Ok {A} a.
Arguments Err {A} e.

Definition rbind {A B : Type} (r : result A) (f : A -> result B) : result B :=
  match r with
  | Ok a => f a
  | Err e => Err e
  end.

Declare Scope result_scope.
Delimit Scope result_scope with result.
Notation "x <- r ;; k" := (rbind r (fun x => k))
  (at level 61, r at next level, right associativity) : result_scope.

(** ** Regular expressions: the backtracking matcher of [re] *)

(** The fragment [UPTIME_REGEX] is written in.  [RGroup i r] is the capturing
    group number [i] (from 0, as [groups()] indexes them); a non-capturing
    group [(?:r)] is [r] itself. *)
Inductive regex : Type :=
| RChar (c : ascii)
| RClass (p : ascii -> bool)
| RSeq (r1 r2 : regex)
| ROpt (r : regex)
| RStar (r : regex)
| RGroup (i : nat) (r : regex).

Definition groups : Type := list (option string).

Fixpoint set_group (i : nat) (v : string) (gs : groups) : groups :=
  match gs, i with
  | [], _ => []
  | _ :: gs', O => Some v :: gs'
  | g :: gs', S i' => g :: set_group i' v gs'
  end.

(** What the matcher consumed between [s] and its suffix [s']. *)
Definition consumed (s s' : string) : string :=
  substring 0 (String.length s - String.length s') s.

(** The rest of a pattern, run on what is left of the string. *)
Definition rcont : Type := string -> groups -> option groups.

(** A greedy [*] over [body]: one more turn of [body] first, as long as it
    consumes something, and the rest of the pattern [k] when that fails.
    [n] bounds the number of turns by the length of the string. *)
Fixpoint star_loop (body : string -> groups -> rcont -> option groups)
    (k : rcont) (n : nat) (s : string) (gs : groups) : option groups :=
  match n with
  | O => k s gs
  | S n' =>
      match body s gs
              (fun s' gs' =>
                 if (String.length s' <? String.length s)%nat
                 then star_loop body k n' s' gs' else None) with
      | Some res => Some res
      | None => k s gs
      end
  end.

(** [rmatch r s gs k]: match [r] at the start of [s], then the rest of the
    pattern [k] on what is left.  Greedy operators try the longer match first
    and fall back when the continuation fails, as [re] does. *)
Fixpoint rmatch (r : regex) (s : string) (gs : groups) (k : rcont)
    {struct r} : option groups :=
  match r with
  | RChar c =>
      match s with
      | String c' s' => if Ascii.eqb c c' then k s' gs else None
      | EmptyString => None
      end
  | RClass p =>
      match s with
      | String c' s' => if p c' then k s' gs else None
      | EmptyString => None
      end
  | RSeq r1 r2 => rmatch r1 s gs (fun s' gs' => rmatch r2 s' gs' k)
  | ROpt r1 =>
      match rmatch r1 s gs k with
      | Some res => Some res
      | None => k s gs
      end
  | RStar r1 => star_loop (rmatch r1) k (String.length s) s gs
  | RGroup i r1 =>
      rmatch r1 s gs (fun s' gs' => k s' (set_group i (consumed s s') gs'))
  end.

(** [pattern.search(s)] followed by [.groups()]: the first position, from the
    left, at which the pattern matches; [n] is the number of groups. *)
Fixpoint search (r : regex) (n : nat) (s : string) : option groups :=
  match rmatch r s (repeat None n) (fun _ gs => Some gs) with
  | Some gs => Some gs
  | None =>
      match s with
      | EmptyString => None
      | String _ s' => search r n s'
      end
  end.

(** [\s] on ASCII: \t \n \v \f \r, 0x1c-0x1f and space. *)
Definition is_space (c : ascii) : bool :=
  let n := nat_of_ascii c in
  ((9 <=? n)%nat && (n <=? 13)%nat) || ((28 <=? n)%nat && (n <=? 32)%nat).

Fixpoint RLit (s : string) (r : regex) : regex :=
  match s with
  | EmptyString => r
  | String c s' => RSeq (RChar c) (RLit s' r)
  end.

Definition Rd : regex := RClass is_digit.              (* \d *)
Definition Rd_plus : regex := RSeq Rd (RStar Rd).      (* \d+ *)
Definition Rd2 : regex := RSeq Rd Rd.                  (* \d{2} *)
Definition Rs_star : regex := RStar (RClass is_space). (* \s* , greedy *)

(** [UPTIME_REGEX], one optional part per line (spaces added between the
    tokens of the pattern):
      (?: (\d+) \s* days \s* )?
      (?: (\d{2}) h: )?
      (?: (\d{2}) m: )?
      (?: (\d{2}) s )?            *)
Definition R_days : regex :=
  RSeq (RGroup 0 Rd_plus) (RSeq Rs_star (RLit "days" Rs_star)).
Definition R_hours : regex := RSeq (RGroup 1 Rd2) (RLit "h" (RChar ":")).
Definition R_minutes : regex := RSeq (RGroup 2 Rd2) (RLit "m" (RChar ":")).
Definition R_seconds : regex := RSeq (RGroup 3 Rd2) (RChar "s").

Definition UPTIME_REGEX : regex :=
  RSeq (ROpt R_days)
    (RSeq (ROpt R_hours) (RSeq (ROpt R_minutes) (ROpt R_seconds))).

(** ** [int(...)] and [float(...)] *)

(** The whitespace [int] and [float] skip around a number (\t \n \v \f \r
    and space); unlike [\s], not 0x1c-0x1f. *)
Definition is_number_space (c : ascii) : bool :=
  let n := nat_of_ascii c in
  ((9 <=? n)%nat && (n <=? 13)%nat) || (n =? 32)%nat.

Fixpoint lstrip (s : string) : string :=
  match s with
  | String c s' => if is_number_space c then lstrip s' else s
  | EmptyString => EmptyString
  end.

(** The result is empty when all of [s] is whitespace. *)
Fixpoint rstrip (s : string) : string :=
  match s with
  | EmptyString => EmptyString
  | String c s' =>
      match rstrip s' with
      | EmptyString =>
          if is_number_space c then EmptyString else String c EmptyString
      | t => String c t
      end
  end.

(** The text of a number without the whitespace around it. *)
Definition strip (s : string) : string := rstrip (lstrip s).

Definition digit_value (c : ascii) : Z := Z.of_nat (nat_of_ascii c) - 48.

(** A run [digit (["_"] digit)*] at the start of [s]: the digits read onto
    [acc], how many there were after [n], and what follows the run. *)
Fixpoint read_digitpart (acc : Z) (n : nat) (s : string) : Z * nat * string :=
  match s with
  | String c s' =>
      if is_digit c then read_digitpart (10 * acc + digit_value c) (S n) s'
      else if Ascii.eqb c "_" then
        match n, s' with
        | S _, String c' _ =>
            if is_digit c' then read_digitpart acc n s' else (acc, n, s)
        | _, _ => (acc, n, s)
        end
      else (acc, n, s)
  | EmptyString => (acc, n, s)
  end.

(** An optional sign: [true] for "-". *)
Definition read_sign (s : string) : bool * string :=
  match s with
  | String c s' =>
      if Ascii.eqb c "-" then (true, s')
      else if Ascii.eqb c "+" then (false, s')
      else (false, s)
  | EmptyString => (false, s)
  end.

(** [int(s)] for a [str]: surrounding whitespace, a sign, decimal digits with
    single underscores between them; [ValueError] otherwise. *)
Definition int_of_str (s : string) : result Z :=
  let (neg, body) := read_sign (strip s) in
  match read_digitpart 0 0 body with
  | (v, S _, EmptyString) => Ok (if neg then - v else v)
  | _ => Err ValueError
  end.

(** [int(x)] where [x] is a regex group: [None] is a [TypeError]. *)
Definition int_of_group (g : option string) : result Z :=
  match g with
  | None => Err TypeError
  | Some s => int_of_str s
  end.

Definition lower_ascii (c : ascii) : ascii :=
  let n := nat_of_ascii c in
  if (65 <=? n)%nat && (n <=? 90)%nat then ascii_of_nat (n + 32) else c.

Fixpoint lower (s : string) : string :=
  match s with
  | EmptyString => EmptyString
  | String c s' => String (lower_ascii c) (lower s')
  end.

(** [n / (d * 2^e)] as quotient, remainder and divisor, also for [e < 0]. *)
Definition scaled_div (n d e : Z) : Z * Z * Z :=
  if 0 <=? e then (n / (d * 2 ^ e), n mod (d * 2 ^ e), d * 2 ^ e)
  else ((n * 2 ^ (- e)) / d, (n * 2 ^ (- e)) mod d, d).

(** The binary64 value nearest to [(-1)^neg * m * 10^e10], ties to even, as
    [float] rounds a decimal literal ([0 <= m]). *)
Definition float_of_decimal (neg : bool) (m e10 : Z) : float :=
  let signed_zero := if neg then neg_zero else zero in
  let signed_inf := if neg then neg_infinity else infinity in
  if m <=? 0 then signed_zero
  else if Z.log2 m + 1 + 3 * e10 <? -1080 then signed_zero
  else if 1030 <? 3 * e10 then signed_inf
  else
    let n := if 0 <=? e10 then m * 10 ^ e10 else m in
    let d := if 0 <=? e10 then 1 else 10 ^ (- e10) in
    let L := Z.log2 n - Z.log2 d in
    let e1 := if fst (fst (scaled_div n d (L - 52))) <? 2 ^ 52
              then L - 53 else L - 52 in
    let e := Z.max e1 (-1074) in
    let '(q, r, dv) := scaled_div n d e in
    let q' := if dv <? 2 * r then q + 1
              else if (dv =? 2 * r) && Z.odd q then q + 1
              else q in
    if 971 <? e then signed_inf
    else
      match q' with
      | Zpos p => SF2Prim (S754_finite neg p e)
      | _ => signed_zero
      end.

(** [float(s)] for a [str]: surrounding whitespace, a sign, then "inf",
    "infinity" or "nan" in any case, or a decimal number with an optional
    fraction and exponent; [ValueError] otherwise. *)
Definition float_of_str (s : string) : result float :=
  let (neg, body) := read_sign (strip s) in
  let low := lower body in
  if String.eqb low "inf" || String.eqb low "infinity" then
    Ok (if neg then neg_infinity else infinity)
  else if String.eqb low "nan" then Ok nan
  else
    let '(ip, ni, r1) := read_digitpart 0 0 body in
    let '(m, nf, r2) :=
      match r1 with
      | String c r => if Ascii.eqb c "." then read_digitpart ip 0 r
                      else (ip, O, r1)
      | EmptyString => (ip, O, r1)
      end in
    match (ni + nf)%nat, r2 with
    | O, _ => Err ValueError
    | _, EmptyString => Ok (float_of_decimal neg m (- Z.of_nat nf))
    | _, String c r3 =>
        if Ascii.eqb (lower_ascii c) "e" then
          let (eneg, r4) := read_sign r3 in
          match read_digitpart 0 0 r4 with
          | (ev, S _, EmptyString) =>
              Ok (float_of_decimal neg m
                    ((if eneg then - ev else ev) - Z.of_nat nf))
          | _ => Err ValueError
          end
        else Err ValueError
    end.

(** ** [str.split(sep)] *)

(** [s.split(sep)] for a non-empty [sep], scanning from the left: [skip]
    counts the characters of a separator still to pass over, [acc] is the
    piece being read. *)
Fixpoint split_from (sep : string) (skip : nat) (acc : string) (s : string)
    : list string :=
  match s with
  | EmptyString => [acc]
  | String c s' =>
      match skip with
      | S k => split_from sep k acc s'
      | O =>
          if prefix sep s
          then acc :: split_from sep (String.length sep - 1) EmptyString s'
          else split_from sep 0 (acc ++ String c EmptyString)%string s'
      end
  end.

Definition split (sep s : string) : list string :=
  split_from sep 0 EmptyString s.

(** ** The telemetry parsers of [MB8600.export] *)

Definition channel_separator : string := "|+|".
Definition field_separator : string := "^".

(** One tuple of [downstream_channels]. *)
Record downstream_channel : Type :=
  { ds_channel_id : Z;
    ds_frequency : float;
    ds_modulation : string;
    ds_power : float;
    ds_snr : float;
    ds_correcteds : Z;
    ds_uncorrecteds : Z }.

(** One tuple of [upstream_channels]. *)
Record upstream_channel : Type :=
  { us_channel_id : Z;
    us_frequency : float;
    us_modulation : string;
    us_power : float;
    us_width : float }.

(** The variable [snr] holds the field as a [str] until the OFDM branch
    rebinds it to a [float]. *)
Inductive snr_value : Type :=
| SnrStr (s : string)
| SnrFloat (x : float).

(** [float(snr)] on that variable. *)
Definition float_of_snr (v : snr_value) : result float :=
  match v with
  | SnrStr s => float_of_str s
  | SnrFloat x => Ok x
  end.

(** The SNR correction: under [modulation == 'OFDM PLC'], the walrus
    [snr := float(snr)] and, below 20.0, [snr *= 2.5]. *)
Definition correct_snr (modulation snr : string) : result snr_value :=
  if String.eqb modulation "OFDM PLC" then
    (x <- float_of_str snr ;;
     Ok (SnrFloat (if PrimFloat.ltb x 20.0%float
                   then PrimFloat.mul x 2.5%float else x)))%result
  else Ok (SnrStr snr).

(** The body of the downstream [for] loop on the fields of one segment: the
    unpacking into ten names, the correction, the appended tuple. *)
Definition parse_downstream_fields (fields : list string)
    : result downstream_channel :=
  match fields with
  | [_; _; modulation; channel_id; frequency; power; snr;
     correcteds; uncorrecteds; _] =>
      (snr' <- correct_snr modulation snr ;;
       cid <- int_of_str channel_id ;;
       freq <- float_of_str frequency ;;
       pw <- float_of_str power ;;
       snr_f <- float_of_snr snr' ;;
       cor <- int_of_str correcteds ;;
       unc <- int_of_str uncorrecteds ;;
       Ok {| ds_channel_id := cid;
             ds_frequency := PrimFloat.mul freq 1000000%float;
             ds_modulation := modulation;
             ds_power := pw;
             ds_snr := snr_f;
             ds_correcteds := cor;
             ds_uncorrecteds := unc |})%result
  | _ => Err ValueError
  end.

Definition parse_downstream_segment (channel : string)
    : result downstream_channel :=
  parse_downstream_fields (split field_separator channel).

(** The body of the upstream [for] loop on the fields of one segment. *)
Definition parse_upstream_fields (fields : list string)
    : result upstream_channel :=
  match fields with
  | [_; _; modulation; channel_id; width; frequency; power; _] =>
      (cid <- int_of_str channel_id ;;
       freq <- float_of_str frequency ;;
       pw <- float_of_str power ;;
       wd <- float_of_str width ;;
       Ok {| us_channel_id := cid;
             us_frequency := PrimFloat.mul freq 1000000%float;
             us_modulation := modulation;
             us_power := pw;
             us_width := PrimFloat.mul wd 1000%float |})%result
  | _ => Err ValueError
  end.

Definition parse_upstream_segment (channel : string)
    : result upstream_channel :=
  parse_upstream_fields (split field_separator channel).

(** A [for] loop appending [[f x]] (a one-element list) per item, stopping
    at the first exception. *)
Fixpoint parse_each {A B : Type} (f : A -> result B) (xs : list A)
    : result (list (list B)) :=
  match xs with
  | [] => Ok []
  | x :: xs' =>
      (y <- f x ;;
       ys <- parse_each f xs' ;;
       Ok ([y] :: ys))%result
  end.

(** [downstream_channels] from [MotoConnDownstreamChannel]. *)
Definition parse_downstream (raw : string)
    : result (list (list downstream_channel)) :=
  parse_each parse_downstream_segment (split channel_separator raw).

(** [upstream_channels] from [MotoConnUpstreamChannel]. *)
Definition parse_upstream (raw : string)
    : result (list (list upstream_channel)) :=
  parse_each parse_upstream_segment (split channel_separator raw).

(** [uptime] from [MotoConnSystemUpTime]: the four groups of the match, each
    through [int], weighted and summed from 0. *)
Definition parse_uptime (raw : string) : result Z :=
  match search UPTIME_REGEX 4 raw with
  | None => Err AttributeError
  | Some uptime_groups =>
      (days <- int_of_group (nth 0 uptime_groups None) ;;
       hours <- int_of_group (nth 1 uptime_groups None) ;;
       minutes <- int_of_group (nth 2 uptime_groups None) ;;
       seconds <- int_of_group (nth 3 uptime_groups None) ;;
       Ok (0 + days * 86400 + hours * 3600 + minutes * 60 + seconds))%result
  end.

(** ** Decoded JSON and the exporter's data *)

(** What [resp.json()] returns.  The members of a [JObj] are those of the
    decoded dict, their keys distinct. *)
Inductive json : Type :=
| JNull
| JBool (b : bool)
| JInt (n : Z)
| JFloat (x : float)
| JStr (s : string)
| JArr (items : list json)
| JObj (members : list (string * json)).

Fixpoint assoc (k : string) (l : list (string * json)) : option json :=
  match l with
  | [] => None
  | (k', v) :: l' => if String.eqb k k' then Some v else assoc k l'
  end.

(** [d[k]] with a [str] key: only a dict can be subscripted that way. *)
Definition getitem (d : json) (k : string) : result json :=
  match d with
  | JObj members =>
      match assoc k members with
      | Some v => Ok v
      | None => Err KeyError
      end
  | _ => Err TypeError
  end.

(** [d[k1][k2]]. *)
Definition getitem2 (d : json) (k1 k2 : string) : result json :=
  (d1 <- getitem d k1 ;; getitem d1 k2)%result.

(** [x != 'OK'] is [negb (is_OK x)]. *)
Definition is_OK (x : json) : bool :=
  match x with
  | JStr s => String.eqb s "OK"
  | _ => false
  end.

(** [x.split(sep)]: a method of [str] only. *)
Definition json_split (sep : string) (x : json) : result (list string) :=
  match x with
  | JStr s => Ok (split sep s)
  | _ => Err AttributeError
  end.

(** [UPTIME_REGEX.search(x)] wants a [str]. *)
Definition json_uptime (x : json) : result Z :=
  match x with
  | JStr s => parse_uptime s
  | _ => Err TypeError
  end.

(** The environment variables read by [_load_env_vars]. *)
Record Config : Type :=
  { modem_name : string;
    modem_url : string;
    modem_username : string;
    modem_password : string;
    clickhouse_table : string;
    scrape_delay : Z }.

(** [self.modem_hnap_session]; [hnap_auth] is absent until a login stores it. *)
Record Session : Type :=
  { challenge : json;
    uid : json;
    public_key : json;
    private_key : json;
    login_password : json;
    hnap_auth : option string }.

Definition empty_session : Session :=
  {| challenge := JNull; uid := JNull; public_key := JNull;
     private_key := JNull; login_password := JNull; hnap_auth := None |}.

(** The row of one scrape, in the order of the INSERT's columns. *)
Record Row : Type :=
  { row_modem_name : string;
    row_config_filename : json;
    row_uptime : Z;
    row_version : json;
    row_model : string;
    row_downstream : list (list downstream_channel);
    row_upstream : list (list upstream_channel);
    row_scrape_latency : float;
    row_timestamp : float }.

(** An item of [self.clickhouse_queue]: the statement and its rows. *)
Definition queue_item : Type := (string * list Row)%type.

Definition cookies : Type := list (string * json).
Definition headers : Type := list (string * string).

Inductive level : Type := Info | Warning | Error | Critical.

(** What a run does, in order.  [EvLogin] marks the entry into [login()]. *)
Inductive event : Type :=
| EvLogin
| EvPerfCounter (x : float)
| EvTime (ms : Z)
| EvUtcNow (x : float)
| EvPost (url : string) (c : cookies) (h : headers) (body : json)
| EvLog (l : level) (msg : string) (e : option exn)
| EvSleep (seconds : Z)
| EvPut (item : queue_item)
| EvStop
| EvGet (item : queue_item)
| EvExecute (item : queue_item) (failure : option exn).

(** The modem's answer to one POST, after [resp.json(content_type='text/html')]. *)
Inductive reply : Type :=
| ReplyError (e : exn)
| ReplyJson (j : json).

(** Everything outside the program: the [n]-th answer of the modem, the
    [n]-th reading of each clock, the outcome of the [n]-th insert. *)
Record Env : Type :=
  { http_reply : nat -> reply;
    time_ms : nat -> Z;                 (* int(time.time() * 1000) *)
    perf_counter : nat -> float;
    utc_timestamp : nat -> float;       (* datetime.now(tz=utc).timestamp() *)
    clickhouse_result : nat -> option exn }.

(** The state of the exporter object, and how far each part of the
    environment has been consumed. *)
Record World : Type :=
  { session : Session;
    queue : list queue_item;
    stop_event : bool;
    n_http : nat;
    n_time : nat;
    n_perf : nat;
    n_utc : nat;
    n_insert : nat }.

Definition initial_world : World :=
  {| session := empty_session; queue := []; stop_event := false;
     n_http := 0; n_time := 0; n_perf := 0; n_utc := 0; n_insert := 0 |}.

Definition set_session (s : Session) (w : World) : World :=
  {| session := s; queue := queue w; stop_event := stop_event w;
     n_http := n_http w; n_time := n_time w; n_perf := n_perf w;
     n_utc := n_utc w; n_insert := n_insert w |}.

Definition set_queue (q : list queue_item) (w : World) : World :=
  {| session := session w; queue := q; stop_event := stop_event w;
     n_http := n_http w; n_time := n_time w; n_perf := n_perf w;
     n_utc := n_utc w; n_insert := n_insert w |}.

Definition set_stop (w : World) : World :=
  {| session := session w; queue := queue w; stop_event := true;
     n_http := n_http w; n_time := n_time w; n_perf := n_perf w;
     n_utc := n_utc w; n_insert := n_insert w |}.

Definition next_http (w : World) : World :=
  {| session := session w; queue := queue w; stop_event := stop_event w;
     n_http := S (n_http w); n_time := n_time w; n_perf := n_perf w;
     n_utc := n_utc w; n_insert := n_insert w |}.

Definition next_time (w : World) : World :=
  {| session := session w; queue := queue w; stop_event := stop_event w;
     n_http := n_http w; n_time := S (n_time w); n_perf := n_perf w;
     n_utc := n_utc w; n_insert := n_insert w |}.

Definition next_perf (w : World) : World :=
  {| session := session w; queue := queue w; stop_event := stop_event w;
     n_http := n_http w; n_time := n_time w; n_perf := S (n_perf w);
     n_utc := n_utc w; n_insert := n_insert w |}.

Definition next_utc (w : World) : World :=
  {| session := session w; queue := queue w; stop_event := stop_event w;
     n_http := n_http w; n_time := n_time w; n_perf := n_perf w;
     n_utc := S (n_utc w); n_insert := n_insert w |}.

Definition next_insert (w : World) : World :=
  {| session := session w; queue := queue w; stop_event := stop_event w;
     n_http := n_http w; n_time := n_time w; n_perf := n_perf w;
     n_utc := n_utc w; n_insert := S (n_insert w) |}.

(** ** The monad of the coroutines: state, exceptions and a trace *)

Definition M (A : Type) : Type := World -> result A * World * list event.

Definition ret {A : Type} (a : A) : M A := fun w => (Ok a, w, []).

Definition raise {A : Type} (e : exn) : M A := fun w => (Err e, w, []).

Definition bind {A B : Type} (m : M A) (f : A -> M B) : M B :=
  fun w =>
    match m w with
    | (Ok a, w1, t1) =>
        match f a w1 with
        | (r, w2, t2) => (r, w2, t1 ++ t2)
        end
    | (Err e, w1, t1) => (Err e, w1, t1)
    end.

Declare Scope M_scope.
Delimit Scope M_scope with M.
Notation "x <- m ;; k" := (bind m (fun x => k))
  (at level 61, m at next level, right associativity) : M_scope.
Notation "m ;; k" := (bind m (fun _ => k))
  (at level 61, right associativity) : M_scope.
Notation "m >>= f" := (bind m f)
  (at level 62, left associativity) : M_scope.

(** A pure computation that may raise. *)
Definition lift {A : Type} (r : result A) : M A := fun w => (r, w, []).

Definition emit (ev : event) : M unit := fun w => (Ok tt, w, [ev]).

Definition log (l : level) (msg : string) (e : option exn) : M unit :=
  emit (EvLog l msg e).

(** [await asyncio.sleep(seconds)] at a delay it accepts; [asyncio_sleep]
    below is the call at any delay. *)
Definition sleep (seconds : Z) : M unit := emit (EvSleep seconds).

(** [try: body / except Exception as e: handler(e) / finally: final]. *)
Definition try_except_finally {A : Type}
    (body : M A) (handler : exn -> M unit) (final : M unit) : M unit :=
  fun w =>
    match body w with
    | (Ok _, w1, t1) =>
        match final w1 with
        | (r, w2, t2) => (r, w2, t1 ++ t2)
        end
    | (Err e, w1, t1) =>
        match handler e w1 with
        | (Ok _, w2, t2) =>
            match final w2 with
            | (r, w3, t3) => (r, w3, t1 ++ t2 ++ t3)
            end
        | (Err e', w2, t2) =>
            match final w2 with
            | (Ok _, w3, t3) => (Err e', w3, t1 ++ t2 ++ t3)
            | (Err e'', w3, t3) => (Err e'', w3, t1 ++ t2 ++ t3)
            end
        end
    end.

(** [try: body / except Exception as e: handler(e)]. *)
Definition try_except {A : Type} (body : M A) (handler : exn -> M A) : M A :=
  fun w =>
    match body w with
    | (Ok a, w1, t1) => (Ok a, w1, t1)
    | (Err e, w1, t1) =>
        match handler e w1 with
        | (r, w2, t2) => (r, w2, t1 ++ t2)
        end
    end.

(** ** The exporter: [login], [export], [insert_into_clickhouse] *)

Section Exporter.

(** The configuration, the environment of the run, and Python's [str()] of a
    decoded JSON value that is not a [str] (what an f-string prints for it). *)
Variable cfg : Config.
Variable env : Env.
Variable str_of_json : json -> string.

(** [f'{x}'] for a decoded JSON value. *)
Definition format_json (x : json) : string :=
  match x with
  | JStr s => s
  | _ => str_of_json x
  end.

Definition perf_counter_now : M float :=
  fun w => let x := perf_counter env (n_perf w) in
           (Ok x, next_perf w, [EvPerfCounter x]).

Definition utc_now : M float :=
  fun w => let x := utc_timestamp env (n_utc w) in
           (Ok x, next_utc w, [EvUtcNow x]).

Definition time_now : M Z :=
  fun w => let ms := time_ms env (n_time w) in
           (Ok ms, next_time w, [EvTime ms]).

(** [async with self.session.post(url, cookies=c, headers=h, json=body)]
    and the decoding of the answer. *)
Definition post (url : string) (c : cookies) (h : headers) (body : json)
    : M json :=
  fun w =>
    match http_reply env (n_http w) with
    | ReplyJson j => (Ok j, next_http w, [EvPost url c h body])
    | ReplyError e => (Err e, next_http w, [EvPost url c h body])
    end.

Definition get_session : M Session := fun w => (Ok (session w), w, []).

Definition store_session (s : Session) : M unit :=
  fun w => (Ok tt, set_session s w, []).

(** [await self.clickhouse_queue.put(item)].  A full queue delays the
    producer until the writer has taken an item; the wait is not a
    different outcome and is not represented. *)
Definition queue_put (item : queue_item) : M unit :=
  fun w => (Ok tt, set_queue (queue w ++ [item]) w, [EvPut item]).

(** [self.generate_private_key(public_key, challenge)] on decoded values:
    the key is formatted, the challenge must have [encode]. *)
Definition generate_private_key_of (public_key challenge : json)
    : result string :=
  match challenge with
  | JStr ch =>
      Ok (generate_private_key (modem_password cfg) (format_json public_key) ch)
  | _ => Err AttributeError
  end.

Definition generate_login_password_of (private_key : string) (challenge : json)
    : result string :=
  match challenge with
  | JStr ch => Ok (generate_login_password private_key ch)
  | _ => Err AttributeError
  end.

(** [self.generate_hnap_auth(soap_action, private_key)]: the clock is read
    first, then the key is encoded. *)
Definition hnap_auth_now (soap_action : string) (key : json) : M string :=
  (now_ms <- time_now ;;
   match key with
   | JStr k => ret (generate_hnap_auth now_ms soap_action k)
   | _ => raise AttributeError
   end)%M.

Definition hnap_url : string := (modem_url cfg ++ "/HNAP1/")%string.

Definition login_body (action password : string) : json :=
  JObj [("Login",
         JObj [("Action", JStr action);
               ("Username", JStr (modem_username cfg));
               ("LoginPassword", JStr password);
               ("Captcha", JStr "");
               ("PrivateLogin", JStr "LoginPassword")])].

(** [MB8600.login]. *)
Definition login : M unit :=
  (emit EvLogin ;;
   let soap_action := "Login" in
   let soap_action_uri := (hnap_uri_prefix ++ soap_action)%string in
   initial_hnap_auth <- hnap_auth_now soap_action (JStr withoutloginkey) ;;
   login_response <-
     post hnap_url []
       [("Hnap_auth", initial_hnap_auth); ("Soapaction", soap_action_uri)]
       (login_body "request" "") ;;
   challenge' <- lift (getitem2 login_response "LoginResponse" "Challenge") ;;
   cookie <- lift (getitem2 login_response "LoginResponse" "Cookie") ;;
   public_key' <- lift (getitem2 login_response "LoginResponse" "PublicKey") ;;
   private_key' <- lift (generate_private_key_of public_key' challenge') ;;
   login_password' <-
     lift (generate_login_password_of private_key' challenge') ;;
   hnap_auth' <- hnap_auth_now soap_action (JStr private_key') ;;
   store_session
     {| challenge := challenge'; uid := cookie; public_key := public_key';
        private_key := JStr private_key';
        login_password := JStr login_password';
        hnap_auth := Some hnap_auth' |} ;;
   login_response2 <-
     post hnap_url
       [("uid", cookie); ("PrivateKey", JStr private_key')]
       [("Hnap_auth", hnap_auth'); ("Soapaction", soap_action_uri)]
       (login_body "login" login_password') ;;
   login_result <-
     lift (getitem2 login_response2 "LoginResponse" "LoginResult") ;;
   if is_OK login_result then log Info "Logged in" None
   else raise InvalidCredentials)%M.

Definition poll_action : string := "GetMultipleHNAPs".

Definition poll_request : json :=
  JObj [(poll_action,
         JObj [("GetMotoStatusStartupSequence", JStr "");
               ("GetMotoStatusConnectionInfo", JStr "");
               ("GetMotoStatusDownstreamChannelInfo", JStr "");
               ("GetMotoStatusUpstreamChannelInfo", JStr "");
               ("GetMotoStatusSoftware", JStr "")])].

Definition poll_headers (auth : string) : headers :=
  [("Hnap_auth", auth); ("Soapaction", (hnap_uri_prefix ++ poll_action)%string)].

Definition poll_response : string := "GetMultipleHNAPsResponse".

(** [modem_response['GetMultipleHNAPsResponse'][k1][k2]]. *)
Definition status_field (modem_response : json) (k1 k2 : string)
    : result json :=
  (r <- getitem modem_response poll_response ;;
   r1 <- getitem r k1 ;;
   getitem r1 k2)%result.

(** [modem_response['GetMultipleHNAPsResponse']['GetMultipleHNAPsResult']]. *)
Definition combined_result (modem_response : json) : result json :=
  getitem2 modem_response poll_response "GetMultipleHNAPsResult".

Definition insert_statement : string :=
  ("INSERT INTO " ++ clickhouse_table cfg ++
   " (modem_name, modem_config_filename, modem_uptime, modem_version, modem_model, downstream_channels, upstream_channels, scrape_latency, timestamp) VALUES")%string.

(** The parsing part of a successful cycle, from the two channel loops to
    the tuple handed to the queue; it has no effect but its exceptions. *)
Definition build_row (modem_response : json)
    (scraping_latency timestamp : float) : result Row :=
  (ds_raw <- status_field modem_response
               "GetMotoStatusDownstreamChannelInfoResponse"
               "MotoConnDownstreamChannel" ;;
   ds_segments <- json_split channel_separator ds_raw ;;
   downstream_channels <- parse_each parse_downstream_segment ds_segments ;;
   us_raw <- status_field modem_response
               "GetMotoStatusUpstreamChannelInfoResponse"
               "MotoConnUpstreamChannel" ;;
   us_segments <- json_split channel_separator us_raw ;;
   upstream_channels <- parse_each parse_upstream_segment us_segments ;;
   up_raw <- status_field modem_response
               "GetMotoStatusConnectionInfoResponse" "MotoConnSystemUpTime" ;;
   uptime <- json_uptime up_raw ;;
   config_filename <- status_field modem_response
               "GetMotoStatusStartupSequenceResponse"
               "MotoConnConfigurationFileComment" ;;
   version <- status_field modem_response
               "GetMotoStatusSoftwareResponse" "StatusSoftwareSfVer" ;;
   Ok {| row_modem_name := modem_name cfg;
         row_config_filename := config_filename;
         row_uptime := uptime;
         row_version := version;
         row_model := "MB8600";
         row_downstream := downstream_channels;
         row_upstream := upstream_channels;
         row_scrape_latency := scraping_latency;
         row_timestamp := timestamp |})%result.

(** How the body of the [try] ends when it does not raise. *)
Inductive cycle_end : Type :=
| Continued   (* the [continue] of the session-expired branch *)
| Completed.  (* the end of the block, after the [put] *)

(** The body of the [try] in the [while True] of [MB8600.export]. *)
Definition cycle_body (modem_cookies : cookies) : M cycle_end :=
  (start <- perf_counter_now ;;
   s <- get_session ;;
   auth <- hnap_auth_now poll_action (private_key s) ;;
   modem_response <-
     post hnap_url modem_cookies (poll_headers auth) poll_request ;;
   res <- lift (combined_result modem_response) ;;
   if negb (is_OK res) then
     log Warning "Session expired, trying to login again" None ;;
     login ;;
     sleep (scrape_delay cfg) ;;
     ret Continued
   else
     finish <- perf_counter_now ;;
     let scraping_latency := PrimFloat.sub finish start in
     log Info "Modem status scraping complete" None ;;
     timestamp <- utc_now ;;
     row <- lift (build_row modem_response scraping_latency timestamp) ;;
     queue_put (insert_statement, [row]) ;;
     ret Completed)%M.

(** One turn of the [while True]: the [try], its [except Exception] and its
    [finally]. *)
Definition export_cycle (modem_cookies : cookies) : M unit :=
  try_except_finally
    (cycle_body modem_cookies)
    (fun e =>
       log Error "Failed to update modem status" (Some e) ;;
       sleep (scrape_delay cfg))%M
    (sleep (scrape_delay cfg)).

(** The first [n] turns of the [while True]. *)
Fixpoint poll_loop (n : nat) (modem_cookies : cookies) : M unit :=
  match n with
  | O => ret tt
  | S n' => (export_cycle modem_cookies ;; poll_loop n' modem_cookies)%M
  end.

Definition set_stop_event : M unit :=
  fun w => (Ok tt, set_stop w, [EvStop]).

(** [modem_cookies], built once from the stored session. *)
Definition cookies_of (s : Session) : cookies :=
  [("uid", uid s); ("PrivateKey", private_key s)].

(** [MB8600.export], its loop cut after [n] turns. *)
Definition export (n : nat) : M unit :=
  (try_except
    (login ;; ret true)
    (fun e =>
       log Critical "Login failed" (Some e) ;;
       set_stop_event ;;
       ret false)
  >>= (fun logged_in : bool =>
    if logged_in then
      (s <- get_session ;;
       let modem_cookies := cookies_of s in
       _ <- lift (match hnap_auth s with
                  | Some h => Ok h
                  | None => Err KeyError
                  end) ;;
       poll_loop n modem_cookies)
    else ret tt))%M.

(** [data = await self.clickhouse_queue.get()] on a queue holding [data]
    at its head and [rest] behind it. *)
Definition queue_get (data : queue_item) (rest : list queue_item)
    : M queue_item :=
  fun w => (Ok data, set_queue rest w, [EvGet data]).

(** [await self.clickhouse.execute(data[0], *data[1])]. *)
Definition clickhouse_execute (data : queue_item) : M unit :=
  fun w =>
    let outcome := clickhouse_result env (n_insert w) in
    (match outcome with
     | None => Ok tt
     | Some e => Err e
     end,
     next_insert w,
     [EvExecute data outcome]).

(** One turn of the [while True] of [insert_into_clickhouse]. *)
Definition insert_iteration (data : queue_item) (rest : list queue_item)
    : M unit :=
  try_except
    (got <- queue_get data rest ;;
     clickhouse_execute got)%M
    (fun e =>
       log Error "Failed to insert data into ClickHouse" (Some e) ;;
       sleep 5)%M.

(** The first [n] turns of [MB8600.insert_into_clickhouse]; on an empty
    queue the task waits in [get()] and nothing more happens. *)
Fixpoint insert_into_clickhouse (n : nat) : M unit :=
  match n with
  | O => ret tt
  | S n' =>
      fun w =>
        match queue w with
        | [] => (Ok tt, w, [])
        | data :: rest =>
            (insert_iteration data rest ;; insert_into_clickhouse n')%M w
        end
  end.

(** The status poll of a cycle, as sent from [w] with the stored [key]. *)
Definition poll_post_event (modem_cookies : cookies) (w : World)
    (key : string) : event :=
  EvPost hnap_url modem_cookies
    (poll_headers
       (generate_hnap_auth (time_ms env (n_time w)) poll_action key))
    poll_request.

(** The state after the poll request of a cycle started in [w]. *)
Definition after_poll (w : World) : World :=
  next_http (next_time (next_perf w)).

(** The trace that closes a cycle whose body ended with [r]: the handler,
    if the body raised, and the [finally]. *)
Definition cycle_tail (r : result unit) : list event :=
  match r with
  | Ok _ => [EvSleep (scrape_delay cfg); EvSleep (scrape_delay cfg)]
  | Err e => [EvLog Error "Failed to update modem status" (Some e);
              EvSleep (scrape_delay cfg); EvSleep (scrape_delay cfg)]
  end.

End Exporter.

(** ** Observations on a run *)

Definition result_of {A : Type} (run : result A * World * list event)
    : result A := fst (fst run).
Definition world_of {A : Type} (run : result A * World * list event)
    : World := snd (fst run).
Definition trace_of {A : Type} (run : result A * World * list event)
    : list event := snd run.

Definition count (p : event -> bool) (t : list event) : nat :=
  length (filter p t).

Definition is_login_call (ev : event) : bool :=
  match ev with
  | EvLogin => true
  | _ => false
  end.

Definition is_put (ev : event) : bool :=
  match ev with
  | EvPut _ => true
  | _ => false
  end.

Fixpoint header (name : string) (h : headers) : option string :=
  match h with
  | [] => None
  | (k, v) :: h' => if String.eqb name k then Some v else header name h'
  end.

(** A status poll is a POST whose [Soapaction] is the GetMultipleHNAPs URI. *)
Definition is_poll_post (ev : event) : bool :=
  match ev with
  | EvPost _ _ h _ =>
      match header "Soapaction" h with
      | Some a => String.eqb a (hnap_uri_prefix ++ poll_action)
      | None => false
      end
  | _ => false
  end.

(** The cookies and the [Hnap_auth] header a POST was sent with. *)
Definition post_cookies (ev : event) : option cookies :=
  match ev with
  | EvPost _ c _ _ => Some c
  | _ => None
  end.

Definition post_hnap_auth (ev : event) : option string :=
  match ev with
  | EvPost _ _ h _ => header "Hnap_auth" h
  | _ => None
  end.

(** The items handed to [clickhouse.execute], in order. *)
Fixpoint executed (t : list event) : list queue_item :=
  match t with
  | [] => []
  | EvExecute item _ :: t' => item :: executed t'
  | _ :: t' => executed t'
  end.

(** The stored private key is a [str]. *)
Definition has_key (w : World) : Prop :=
  exists key : string, private_key (session w) = JStr key.

(** ** Reference values for the uptime text *)

(** The number a run of decimal digits denotes, read after [acc]. *)
Fixpoint decimal_value (acc : Z) (s : string) : Z :=
  match s with
  | EmptyString => acc
  | String c s' => decimal_value (10 * acc + digit_value c) s'
  end.

(** The uptime text with all four parts: [days] days, then two digits each
    for hours, minutes and seconds. *)
Definition uptime_text (days : string) (h1 h2 m1 m2 s1 s2 : ascii) : string :=
  (days ++ " days "
   ++ String h1 (String h2 "h:")
   ++ String m1 (String m2 "m:")
   ++ String s1 (String s2 "s"))%string.

(** The same without the days part. *)
Definition uptime_text_no_days (h1 h2 m1 m2 s1 s2 : ascii) : string :=
  (String h1 (String h2 "h:")
   ++ String m1 (String m2 "m:")
   ++ String s1 (String s2 "s"))%string.

(** The number the decimal digits [d] denote, read after [acc]. *)
Fixpoint uint_value (acc : Z) (d : Decimal.uint) : Z :=
  match d with
  | Decimal.Nil => acc
  | Decimal.D0 d' => uint_value (10 * acc + 0) d'
  | Decimal.D1 d' => uint_value (10 * acc + 1) d'
  | Decimal.D2 d' => uint_value (10 * acc + 2) d'
  | Decimal.D3 d' => uint_value (10 * acc + 3) d'
  | Decimal.D4 d' => uint_value (10 * acc + 4) d'
  | Decimal.D5 d' => uint_value (10 * acc + 5) d'
  | Decimal.D6 d' => uint_value (10 * acc + 6) d'
  | Decimal.D7 d' => uint_value (10 * acc + 7) d'
  | Decimal.D8 d' => uint_value (10 * acc + 8) d'
  | Decimal.D9 d' => uint_value (10 * acc + 9) d'
  end.

(** ** A modem and its answers, for the examples *)

Definition example_config : Config :=
  {| modem_name := "MB8600";
     modem_url := "https://192.168.100.1";
     modem_username := "admin";
     modem_password := "motorola";
     clickhouse_table := "docsis";
     scrape_delay := 10 |}.

(** [str()] of the scalar JSON values; the examples format strings only. *)
Definition str_of_scalar (x : json) : string :=
  match x with
  | JNull => "None"
  | JBool true => "True"
  | JBool false => "False"
  | JInt n => str_of_int n
  | JStr s => s
  | _ => EmptyString
  end.

(** The answer to the challenge request of a login. *)
Definition challenge_reply (ch ck pk : string) : reply :=
  ReplyJson
    (JObj [("LoginResponse",
            JObj [("Challenge", JStr ch); ("Cookie", JStr ck);
                  ("PublicKey", JStr pk); ("LoginResult", JStr "OK")])]).

(** The answer to the login request proper. *)
Definition login_reply (result : string) : reply :=
  ReplyJson (JObj [("LoginResponse", JObj [("LoginResult", JStr result)])]).

(** The answer to a status poll. *)
Definition status_json (result downstream upstream uptime : string) : json :=
  JObj [("GetMultipleHNAPsResponse",
         JObj [("GetMotoStatusStartupSequenceResponse",
                JObj [("MotoConnConfigurationFileComment", JStr "d11_m_mb8600.cfg")]);
               ("GetMotoStatusConnectionInfoResponse",
                JObj [("MotoConnSystemUpTime", JStr uptime)]);
               ("GetMotoStatusDownstreamChannelInfoResponse",
                JObj [("MotoConnDownstreamChannel", JStr downstream)]);
               ("GetMotoStatusUpstreamChannelInfoResponse",
                JObj [("MotoConnUpstreamChannel", JStr upstream)]);
               ("GetMotoStatusSoftwareResponse",
                JObj [("StatusSoftwareSfVer", JStr "8600-19.3.18")]);
               ("GetMultipleHNAPsResult", JStr result)])].

Definition example_downstream : string :=
  "1^Locked^QAM256^20^549.0^ 3.4^41.2^12^0^|+|2^Locked^OFDM PLC^159^722.0^ 4.1^15.0^100^5^".

Definition example_upstream : string :=
  "1^Locked^SC-QAM^2^6.4^23.7^45.0^".

Definition example_uptime : string := "5 days 03h:21m:09s".

Definition float_of_Z (n : Z) : float :=
  PrimFloat.of_uint63 (Uint63.of_Z n).

(** The environment that gives the answers [replies] in order, fails every
    request after them, gives the insert outcomes [inserts] and succeeds
    after them, and whose clocks advance by one unit per reading. *)
Definition scripted (replies : list reply) (inserts : list (option exn))
    : Env :=
  {| http_reply := fun n => nth n replies (ReplyError ClientError);
     time_ms := fun n => 1762250000000 + 1000 * Z.of_nat n;
     perf_counter := fun n => float_of_Z (Z.of_nat n);
     utc_timestamp := fun n => float_of_Z (1762250000 + Z.of_nat n);
     clickhouse_result := fun n => nth n inserts None |}.

(** A session as a first login leaves it. *)
Definition example_session : Session :=
  {| challenge := JStr "CH1"; uid := JStr "CK1"; public_key := JStr "PK1";
     private_key := JStr "3A03969985504B95C63B027E6EA7F5AC";
     login_password := JStr "4FAFE7F870F7DFC69566A6D89C3FF267";
     hnap_auth := Some "48624C8C50B0DBB3B26CA537F12506DC 1762250001000" |}.

Definition logged_in : World := set_session example_session initial_world.

(** A login, a good poll, an expired session with its new login, a poll
    whose uptime has no days part, then a dead link. *)
Definition env_story : Env :=
  scripted
    [challenge_reply "CH1" "CK1" "PK1"; login_reply "OK";
     ReplyJson (status_json "OK" example_downstream example_upstream
                  example_uptime);
     ReplyJson (status_json "ERROR" "" "" "");
     challenge_reply "CH2" "CK2" "PK2"; login_reply "OK";
     ReplyJson (status_json "OK" example_downstream example_upstream
                  "00h:05m:00s")]
    [].


(** A poll answered "OK" with a good payload. *)
Definition env_ok : Env :=
  scripted
    [ReplyJson (status_json "OK" example_downstream example_upstream
                  example_uptime)]
    [].

(** A poll answered "OK" whose downstream string has a segment of three
    fields. *)
Definition malformed_status : json :=
  status_json "OK" "1^Locked^QAM256" example_upstream example_uptime.

Definition env_malformed : Env := scripted [ReplyJson malformed_status] [].

(** A modem that does not answer. *)
Definition env_down : Env := scripted [] [].

(** A database that refuses the first insert. *)
Definition env_insert_fails : Env := scripted [] [Some ClickHouseError; None].

Definition example_row (n : Z) : Row :=
  {| row_modem_name := "MB8600"; row_config_filename := JStr "d11_m_mb8600.cfg";
     row_uptime := n; row_version := JStr "8600-19.3.18";
     row_model := "MB8600"; row_downstream := []; row_upstream := [];
     row_scrape_latency := 1%float; row_timestamp := 1762250000%float |}.

Definition example_item (n : Z) : queue_item :=
  ("INSERT INTO docsis VALUES", [example_row n]).

(** ** Startup: [MB8600._load_env_vars] *)

(** [os.environ]. *)
Definition environ : Type := string -> option string.

(** The levels [LOG_LEVEL] may name. *)
Inductive log_level : Type :=
| LevelDebug | LevelInfo | LevelWarning | LevelError | LevelCritical.

(** Why [_load_env_vars] logged a critical line and called [exit(1)]. *)
Inductive startup_failure : Type :=
| MissingVariable (name : string)
| InvalidScrapeDelay
| InvalidQueueLimit
| InvalidLogLevel.

(** How the loading ends: with the settings, with [exit(1)], or with an
    exception no handler of the function catches. *)
Inductive startup (A : Type) : Type :=
| Started (a : A)
| Exit1 (why : startup_failure)
| Uncaught (e : exn).
Arguments Started {A} a.
Arguments Exit1 {A} why.
Arguments Uncaught {A} e.

Definition startup_bind {A B : Type} (s : startup A) (f : A -> startup B)
    : startup B :=
  match s with
  | Started a => f a
  | Exit1 why => Exit1 why
  | Uncaught e => Uncaught e
  end.

Declare Scope startup_scope.
Delimit Scope startup_scope with startup.
Notation "x <- s ;; k" := (startup_bind s (fun x => k))
  (at level 61, s at next level, right associativity) : startup_scope.

(** All the attributes [_load_env_vars] sets: those the exporter's
    coroutines read ([settings_config]) and those of the ClickHouse client,
    the queue and the logger. *)
Record Settings : Type :=
  { settings_config : Config;
    clickhouse_url : string;
    clickhouse_username : string;
    clickhouse_password : string;
    clickhouse_database : string;
    clickhouse_queue_limit : Z;
    settings_log_level : log_level }.

(** [os.environ[name]] inside the [try] whose handler logs the missing
    variable and exits. *)
Definition required_variable (environment : environ) (name : string)
    : startup string :=
  match environment name with
  | Some v => Started v
  | None => Exit1 (MissingVariable name)
  end.

(** [os.environ.get(name, default)] for the two [str] settings. *)
Definition optional_variable (environment : environ) (name default : string)
    : string :=
  match environment name with
  | Some v => v
  | None => default
  end.

(** [int(os.environ.get(name, default))] followed by the bound check, in the
    [try] whose handler catches [ValueError], logs and exits. *)
Definition integer_setting (environment : environ) (name : string)
    (default minimum : Z) (failure : startup_failure) : startup Z :=
  match
    match environment name with
    | Some s => int_of_str s
    | None => Ok default
    end
  with
  | Ok n => if n <? minimum then Exit1 failure else Started n
  | Err ValueError => Exit1 failure
  | Err e => Uncaught e
  end.

(** [os.environ.get('LOG_LEVEL', 'INFO').upper()] and the membership test. *)
Definition log_level_setting (environment : environ) : startup log_level :=
  let name := upper (optional_variable environment "LOG_LEVEL" "INFO") in
  if String.eqb name "DEBUG" then Started LevelDebug
  else if String.eqb name "INFO" then Started LevelInfo
  else if String.eqb name "WARNING" then Started LevelWarning
  else if String.eqb name "ERROR" then Started LevelError
  else if String.eqb name "CRITICAL" then Started LevelCritical
  else Exit1 InvalidLogLevel.

(** The required variables, in the order the [try] reads them. *)
Definition required_variables : list string :=
  ["MODEM_URL"; "MODEM_USERNAME"; "MODEM_PASSWORD"; "CLICKHOUSE_URL";
   "CLICKHOUSE_USERNAME"; "CLICKHOUSE_PASSWORD"; "CLICKHOUSE_DATABASE"].

(** [MB8600._load_env_vars]. *)
Definition load_env_vars (environment : environ) : startup Settings :=
  (let name := optional_variable environment "MODEM_NAME" "MB8600" in
   url <- required_variable environment "MODEM_URL" ;;
   username <- required_variable environment "MODEM_USERNAME" ;;
   password <- required_variable environment "MODEM_PASSWORD" ;;
   ch_url <- required_variable environment "CLICKHOUSE_URL" ;;
   ch_username <- required_variable environment "CLICKHOUSE_USERNAME" ;;
   ch_password <- required_variable environment "CLICKHOUSE_PASSWORD" ;;
   ch_database <- required_variable environment "CLICKHOUSE_DATABASE" ;;
   let table := optional_variable environment "CLICKHOUSE_TABLE" "docsis" in
   delay <- integer_setting environment "SCRAPE_DELAY" 10 1
              InvalidScrapeDelay ;;
   limit <- integer_setting environment "CLICKHOUSE_QUEUE_LIMIT" 1000 25
              InvalidQueueLimit ;;
   lvl <- log_level_setting environment ;;
   Started
     {| settings_config :=
          {| modem_name := name; modem_url := url;
             modem_username := username; modem_password := password;
             clickhouse_table := table; scrape_delay := delay |};
        clickhouse_url := ch_url;
        clickhouse_username := ch_username;
        clickhouse_password := ch_password;
        clickhouse_database := ch_database;
        clickhouse_queue_limit := limit;
        settings_log_level := lvl |})%startup.

(** The first name of [names] that [environment] does not set. *)
Fixpoint first_missing (environment : environ) (names : list string)
    : option string :=
  match names with
  | [] => None
  | name :: names' =>
      match environment name with
      | Some _ => first_missing environment names'
      | None => Some name
      end
  end.

(** An environment given as a list of bindings, the first one counting. *)
Fixpoint environ_of (bindings : list (string * string)) : environ :=
  fun name =>
    match bindings with
    | [] => None
    | (k, v) :: rest =>
        if String.eqb name k then Some v else environ_of rest name
    end.

Definition example_environ : environ :=
  environ_of
    [("MODEM_URL", "https://192.168.100.1"); ("MODEM_USERNAME", "admin");
     ("MODEM_PASSWORD", "motorola"); ("CLICKHOUSE_URL", "http://ch:8123");
     ("CLICKHOUSE_USERNAME", "exporter"); ("CLICKHOUSE_PASSWORD", "secret");
     ("CLICKHOUSE_DATABASE", "metrics"); ("SCRAPE_DELAY", " 30 ");
     ("LOG_LEVEL", "debug")].

(** What [integer_setting] accepts: the default when the variable is unset,
    else what [int] reads from it, and not below the minimum. *)
Definition accepted_integer (environment : environ) (name : string)
    (default minimum n : Z) : Prop :=
  match environment name with
  | Some s => int_of_str s = Ok n
  | None => n = default
  end /\ minimum <= n.

(** The level an uppercased name denotes. *)
Definition level_named (name : string) : option log_level :=
  if String.eqb name "DEBUG" then Some LevelDebug
  else if String.eqb name "INFO" then Some LevelInfo
  else if String.eqb name "WARNING" then Some LevelWarning
  else if String.eqb name "ERROR" then Some LevelError
  else if String.eqb name "CRITICAL" then Some LevelCritical
  else None.

Definition environ_without_password : environ :=
  environ_of
    [("MODEM_URL", "https://192.168.100.1"); ("MODEM_USERNAME", "admin");
     ("SCRAPE_DELAY", "0")].

(** ** Observations used for the run-wide properties *)

(** A request is signed for the clock reading [now]: it goes to [url], its
    [Hnap_auth] header has the shape the modem expects and ends with the
    timestamp of that reading, and its [Soapaction] is an HNAP URI. *)
Definition request_signed (url : string) (now : option Z) (u : string)
    (h : headers) : bool :=
  String.eqb u url &&
  match now, header "Hnap_auth" h, header "Soapaction" h with
  | Some ms, Some auth, Some uri =>
      hnap_auth_shape auth &&
      match int_of_str (hnap_auth_suffix auth) with
      | Ok ts => ts =? hnap_timestamp ms
      | Err _ => false
      end &&
      prefix hnap_uri_prefix uri
  | _, _, _ => false
  end.

(** Every POST of the trace directly follows a clock reading and is signed
    for it; [now] is the reading just before the trace, if any. *)
Fixpoint signed_after (url : string) (now : option Z) (t : list event)
    : bool :=
  match t with
  | [] => true
  | EvPost u _ h _ :: t' =>
      request_signed url now u h && signed_after url None t'
  | EvTime ms :: t' => signed_after url (Some ms) t'
  | _ :: t' => signed_after url None t'
  end.

(** The seconds a trace spends in [asyncio.sleep]. *)
Fixpoint slept (t : list event) : Z :=
  match t with
  | [] => 0
  | EvSleep seconds :: t' => seconds + slept t'
  | _ :: t' => slept t'
  end.

(** Whether the trace has slept [delay] seconds in one piece since its last
    status poll ([waited] tells it for the time before the trace). *)
Fixpoint waited_after (delay : Z) (waited : bool) (t : list event) : bool :=
  match t with
  | [] => waited
  | ev :: t' =>
      if is_poll_post ev then waited_after delay false t'
      else
        match ev with
        | EvSleep seconds =>
            waited_after delay (waited || (seconds =? delay)) t'
        | _ => waited_after delay waited t'
        end
  end.

(** No status poll of the trace is sent before the exporter has slept
    [delay] seconds since the poll before it. *)
Fixpoint polls_spaced (delay : Z) (waited : bool) (t : list event) : bool :=
  match t with
  | [] => true
  | ev :: t' =>
      if is_poll_post ev then waited && polls_spaced delay false t'
      else
        match ev with
        | EvSleep seconds =>
            polls_spaced delay (waited || (seconds =? delay)) t'
        | _ => polls_spaced delay waited t'
        end
  end.

(** A key as the helpers derive it: 32 uppercase hexadecimal digits. *)
Definition key_shape (k : json) : bool :=
  match k with
  | JStr s => (String.length s =? 32)%nat && string_forallb is_upper_hex s
  | _ => false
  end.

(** The stored keys are the ones the stored challenge and public key give
    with the configured password. *)
Definition session_derived (password : string) (str_of_json : json -> string)
    (s : Session) : Prop :=
  exists ch : string,
    challenge s = JStr ch
    /\ private_key s
       = JStr (generate_private_key password
                 (format_json str_of_json (public_key s)) ch)
    /\ login_password s
       = JStr (generate_login_password
                 (generate_private_key password
                    (format_json str_of_json (public_key s)) ch) ch).

Definition is_sleep (ev : event) : bool :=
  match ev with
  | EvSleep _ => true
  | _ => false
  end.

Definition is_failed_execute (ev : event) : bool :=
  match ev with
  | EvExecute _ (Some _) => true
  | _ => false
  end.

Definition is_post (ev : event) : bool :=
  match ev with
  | EvPost _ _ _ _ => true
  | _ => false
  end.

(** [sep.join(parts)]. *)
Fixpoint join (sep : string) (parts : list string) : string :=
  match parts with
  | [] => ""
  | [p] => p
  | p :: parts' => (p ++ sep ++ join sep parts')%string
  end.

(** An item as [export] queues it: the INSERT statement of the configured
    table with a single row, of this modem and of model MB8600. *)
Definition queued_by (cfg : Config) (item : queue_item) : bool :=
  String.eqb (fst item) (insert_statement cfg) &&
  match snd item with
  | [row] =>
      String.eqb (row_modem_name row) (modem_name cfg)
      && String.eqb (row_model row) "MB8600"
  | _ => false
  end.

(** ** Observations on the parsers *)

(** A pattern without capture group. *)
Fixpoint groupless (r : regex) : bool :=
  match r with
  | RChar _ | RClass _ => true
  | RSeq r1 r2 => groupless r1 && groupless r2
  | ROpt r1 | RStar r1 => groupless r1
  | RGroup _ _ => false
  end.

(** A group that took no part in the match, or holds decimal digits. *)
Definition digit_group (g : option string) : bool :=
  match g with
  | None => true
  | Some s => (0 <? String.length s)%nat && string_forallb is_digit s
  end.

(** Whether the text starts with a decimal digit. *)
Definition starts_with_digit (s : string) : bool :=
  match s with
  | String c _ => is_digit c
  | EmptyString => false
  end.

(** ** [asyncio.sleep] as it is, and the poll loop with it *)

(** [asyncio.sleep(delay)] adds a positive delay to the clock of the event
    loop, a [float]; an [int] that does not convert raises [OverflowError]
    ("int too large to convert to float").  The first such integer is
    2^1024 - 2^970, half-way between the largest binary64 and 2^1024.
    [_load_env_vars] puts no upper bound on SCRAPE_DELAY. *)
Definition sleep_accepts (seconds : Z) : bool :=
  seconds <? 2 ^ 1024 - 2 ^ 970.

(** [await asyncio.sleep(seconds)] for an [int]: [sleep] when the delay is
    accepted, the exception otherwise. *)
Definition asyncio_sleep (seconds : Z) : M unit :=
  if sleep_accepts seconds then sleep seconds else raise OverflowError.

Section FullExporter.

Variable cfg : Config.
Variable env : Env.
Variable str_of_json : json -> string.

(** The body of the [try] of [MB8600.export], as [cycle_body], with the
    sleep of the expired-session branch able to raise. *)
Definition full_cycle_body (modem_cookies : cookies) : M cycle_end :=
  (start <- perf_counter_now env ;;
   s <- get_session ;;
   auth <- hnap_auth_now env poll_action (private_key s) ;;
   modem_response <-
     post env (hnap_url cfg) modem_cookies (poll_headers auth) poll_request ;;
   res <- lift (combined_result modem_response) ;;
   if negb (is_OK res) then
     log Warning "Session expired, trying to login again" None ;;
     login cfg env str_of_json ;;
     asyncio_sleep (scrape_delay cfg) ;;
     ret Continued
   else
     finish <- perf_counter_now env ;;
     let scraping_latency := PrimFloat.sub finish start in
     log Info "Modem status scraping complete" None ;;
     timestamp <- utc_now env ;;
     row <- lift (build_row cfg modem_response scraping_latency timestamp) ;;
     queue_put (insert_statement cfg, [row]) ;;
     ret Completed)%M.

(** One turn of the [while True]: the sleeps of the handler and of the
    [finally] are outside every [try], and what they raise leaves the
    loop. *)
Definition full_export_cycle (modem_cookies : cookies) : M unit :=
  try_except_finally
    (full_cycle_body modem_cookies)
    (fun e =>
       log Error "Failed to update modem status" (Some e) ;;
       asyncio_sleep (scrape_delay cfg))%M
    (asyncio_sleep (scrape_delay cfg)).

(** The first [n] turns of the [while True]; an exception ends it. *)
Fixpoint full_poll_loop (n : nat) (modem_cookies : cookies) : M unit :=
  match n with
  | O => ret tt
  | S n' =>
      (full_export_cycle modem_cookies ;; full_poll_loop n' modem_cookies)%M
  end.

(** [MB8600.export], its loop cut after [n] turns. *)
Definition full_export (n : nat) : M unit :=
  (try_except
    (login cfg env str_of_json ;; ret true)
    (fun e =>
       log Critical "Login failed" (Some e) ;;
       set_stop_event ;;
       ret false)
  >>= (fun logged_in : bool =>
    if logged_in then
      (s <- get_session ;;
       let modem_cookies := cookies_of s in
       _ <- lift (match hnap_auth s with
                  | Some h => Ok h
                  | None => Err KeyError
                  end) ;;
       full_poll_loop n modem_cookies)
    else ret tt))%M.

End FullExporter.

(** A configuration [_load_env_vars] accepts and [asyncio.sleep] does not:
    SCRAPE_DELAY is 10^309. *)
Definition unsleepable_config : Config :=
  {| modem_name := "MB8600";
     modem_url := "https://192.168.100.1";
     modem_username := "admin";
     modem_password := "motorola";
     clickhouse_table := "docsis";
     scrape_delay := 10 ^ 309 |}.

(** ** Plain text *)

(** A [str] of ASCII characters.  On such text [upper], [is_digit],
    [is_space], [int_of_str] and [float_of_str] are [str.upper], [\d], [\s],
    [int] and [float]; on other text Python also knows the digits, spaces
    and letters of Unicode. *)
Definition ascii_text (s : string) : bool :=
  string_forallb (fun c => (nat_of_ascii c <? 128)%nat) s.

(** The most digits [int] converts (the default of
    [sys.get_int_max_str_digits()]); beyond it [int] raises [ValueError]
    whatever the text is. *)
Definition int_max_str_digits : nat := 4300.

(** A text on which [int_of_str] is [int]: ASCII, and too short to exceed
    the digit limit. *)
Definition plain_text (s : string) : bool :=
  ascii_text s && (String.length s <=? int_max_str_digits)%nat.

(** The variable is unset or holds plain text. *)
Definition plain_setting (environment : environ) (name : string) : bool :=
  match environment name with
  | Some v => plain_text v
  | None => true
  end.

(** Every sleep of the trace is one of [delay] seconds. *)
Definition sleeps_of (delay : Z) (t : list event) : bool :=
  forallb (fun ev => match ev with
                     | EvSleep seconds => seconds =? delay
                     | _ => true
                     end) t.

(** An environment [_load_env_vars] accepts, with a delay of 10^309
    seconds. *)
Definition environ_unsleepable : environ :=
  environ_of
    [("MODEM_URL", "https://192.168.100.1"); ("MODEM_USERNAME", "admin");
     ("MODEM_PASSWORD", "motorola"); ("CLICKHOUSE_URL", "http://ch:8123");
     ("CLICKHOUSE_USERNAME", "exporter"); ("CLICKHOUSE_PASSWORD", "secret");
     ("CLICKHOUSE_DATABASE", "metrics");
     ("SCRAPE_DELAY",
      String "1" (string_of_list_ascii (repeat "0"%char 309)))].

(** The three settings [_load_env_vars] converts hold plain text. *)
Definition plain_settings (environment : environ) : bool :=
  plain_setting environment "SCRAPE_DELAY"
  && plain_setting environment "CLICKHOUSE_QUEUE_LIMIT"
  && plain_setting environment "LOG_LEVEL".

(** ** Reference values for the digests *)

(** The test suite of RFC 1321, appendix A.5: messages and their MD5. *)
Definition rfc1321_test_suite : list (string * string) :=
  [("", "d41d8cd98f00b204e9800998ecf8427e");
   ("a", "0cc175b9c0f1b6a831c399e269772661");
   ("abc", "900150983cd24fb0d6963f7d28e17f72");
   ("message digest", "f96b697d7cb7938d525a2f31aaf161d0");
   ("abcdefghijklmnopqrstuvwxyz", "c3fcd3d76192e4007dfb496cca67e13b");
   ("ABCDEFGHIJKLMNOPQRSTUVWXYZabcdefghijklmnopqrstuvwxyz0123456789",
    "d174ab98d277d9f5a5611c2c9f419d9f");
   ("12345678901234567890123456789012345678901234567890123456789012345678901234567890",
    "57edf4a22be3c955ac49da2e2107b67a")].

(** The HMAC-MD5 test cases of RFC 2202, section 2: key, data, digest. *)
Definition rfc2202_hmac_md5 : list (list byte * list byte * string) :=
  [(repeat x0b 16, encode "Hi There", "9294727a3638bb1c13f48ef8158bfc9d");
   (encode "Jefe", encode "what do ya want for nothing?",
    "750c783e6ab0b503eaa86e310a5db738");
   (repeat xaa 16, repeat xdd 50, "56be34521d144c88dbb8c733f0e8b3f6");
   (map (fun n => byte_of_Z (Z.of_nat n)) (seq 1 25), repeat xcd 50,
    "697eaf0aca3a3aea3a75164746ffaa79");
   (repeat x0c 16, encode "Test With Truncation",
    "56461ef2342edc00f9bab995690efd4c");
   (repeat xaa 80,
    encode "Test Using Larger Than Block-Size Key - Hash Key First",
    "6b1ab7fe4bd7bf8f0b62e6ce61b9d0cd");
   (repeat xaa 80,
    encode "Test Using Larger Than Block-Size Key and Larger Than One Block-Size Data",
    "6f630fad67cda0ee1fb1f562db3aa53e")].

(** What CPython's [hmac] and [hashlib] give for the two helpers: device
    password, public key, challenge, private key, login password.  The
    second line has a key of 80 bytes and a challenge of 70. *)
Definition derived_keys_known
    : list (string * string * string * string * string) :=
  [("motorola", "PK1", "CH1",
    "3A03969985504B95C63B027E6EA7F5AC", "4FAFE7F870F7DFC69566A6D89C3FF267");
   ("pppppppppppppppppppppppppppppppppppppppp",
    "AAAAAAAAAAAAAAAAAAAAAAAAAAAAAAAAAAAAAAAA",
    "cccccccccccccccccccccccccccccccccccccccccccccccccccccccccccccccccccccc",
    "E3C5FEA9E77C4690713D4FEF12CBF26D", "0184DA22F05FBEF1DC74FC5B1277C830");
   ("", "", "",
    "74E6F7298A9C2D168935F58C001BAD88", "AAC066B892ED71A502EFDC78DC67304D")].

(** ** A well-formed status payload *)

Definition converts {A : Type} (r : result A) : bool :=
  match r with
  | Ok _ => true
  | Err _ => false
  end.

(** A text [int] converts: plain text that reads as an integer. *)
Definition int_text (s : string) : bool :=
  plain_text s && converts (int_of_str s).

(** A text [float] converts: ASCII text that reads as a number. *)
Definition float_text (s : string) : bool :=
  ascii_text s && converts (float_of_str s).

(** The days of an uptime text: decimal digits, one at least and no more
    than [int] converts. *)
Definition days_text (s : string) : bool :=
  (0 <? String.length s)%nat
  && (String.length s <=? int_max_str_digits)%nat
  && string_forallb is_digit s.

(** A downstream segment with its ten fields, the numeric ones holding
    texts that convert. *)
Definition well_formed_downstream (segment : string) : bool :=
  match split field_separator segment with
  | [_; _; _; channel_id; frequency; power; snr;
     correcteds; uncorrecteds; _] =>
      int_text channel_id && float_text frequency && float_text power
      && float_text snr && int_text correcteds
      && int_text uncorrecteds
  | _ => false
  end.

(** An upstream segment with its eight fields, the numeric ones holding
    texts that convert. *)
Definition well_formed_upstream (segment : string) : bool :=
  match split field_separator segment with
  | [_; _; _; channel_id; width; frequency; power; _] =>
      int_text channel_id && float_text width && float_text frequency
      && float_text power
  | _ => false
  end.

(** ** Proof automation *)

(** Case analysis on the innermost scrutinee first. *)
Ltac break_inner :=
  match goal with
  | |- context [match ?x with _ => _ end] =>
      lazymatch x with
      | context [match _ with _ => _ end] => fail
      | _ => destruct x eqn:?
      end
  end.

Ltac unfold_M :=
  unfold hnap_auth_now, time_now, perf_counter_now, utc_now, post,
    get_session, store_session, queue_put, set_stop_event, log, sleep, emit,
    lift, raise, ret, bind, try_except, try_except_finally,
    result_of, world_of, trace_of in *.


(* ================================================================== *)
(** * Part II: properties                                              *)
(* ================================================================== *)

(** ** Known answers: the digest and the helpers against CPython *)

Example md5_empty :
  hex_of_bytes (md5 (encode "")) = "d41d8cd98f00b204e9800998ecf8427e".
Proof. vm_compute. reflexivity. Qed.

Example md5_abc :
  hex_of_bytes (md5 (encode "abc")) = "900150983cd24fb0d6963f7d28e17f72".
Proof. vm_compute. reflexivity. Qed.

Example md5_two_blocks :
  hex_of_bytes (md5 (repeat "a"%byte 64)) = "014842d480b571495a4a0363793f7367".
Proof. vm_compute. reflexivity. Qed.

Example hmac_md5_rfc2202_case2 :
  hmac_md5_hexdigest (encode "Jefe") (encode "what do ya want for nothing?")
  = "750c783e6ab0b503eaa86e310a5db738".
Proof. vm_compute. reflexivity. Qed.

Example hmac_md5_long_key :
  upper (hmac_md5_hexdigest (repeat "k"%byte 70) (encode "msg"))
  = "07DF0302CEF90A8636C929C799D7E400".
Proof. vm_compute. reflexivity. Qed.

Example generate_private_key_known :
  generate_private_key "motorola" "PK1" "CH1"
  = "3A03969985504B95C63B027E6EA7F5AC".
Proof. vm_compute. reflexivity. Qed.

Example generate_login_password_known :
  generate_login_password "3A03969985504B95C63B027E6EA7F5AC" "CH1"
  = "4FAFE7F870F7DFC69566A6D89C3FF267".
Proof. vm_compute. reflexivity. Qed.

Example generate_hnap_auth_known :
  generate_hnap_auth 1762250000000 "Login" withoutloginkey
  = "C1C7394E36584EC4FF021E34D460B048 1762250000000".
Proof. vm_compute. reflexivity. Qed.

(** ** Shape of the digests *)

Lemma length_le_bytes (n : nat) (x : Z) : length (le_bytes n x) = n.
Proof. unfold le_bytes. now rewrite length_map, length_seq. Qed.

Lemma length_md5 (msg : list byte) : length (md5 msg) = 16%nat.
Proof.
  unfold md5. rewrite length_map, !length_app, !length_le_bytes. reflexivity.
Qed.

Lemma length_hmac_md5 (key msg : list byte) : length (hmac_md5 key msg) = 16%nat.
Proof. unfold hmac_md5. apply length_md5. Qed.

Lemma length_hex_of_bytes (bs : list byte) :
  String.length (hex_of_bytes bs) = (2 * length bs)%nat.
Proof. induction bs as [|b bs IH]; simpl; [reflexivity | rewrite IH; lia]. Qed.

Lemma length_upper (s : string) : String.length (upper s) = String.length s.
Proof. induction s as [|c s IH]; simpl; congruence. Qed.

Lemma upper_hex_digit_high (b : byte) :
  is_upper_hex (upper_ascii (hex_digit (Z_of_byte b / 16))) = true.
Proof. destruct b; reflexivity. Qed.

Lemma upper_hex_digit_low (b : byte) :
  is_upper_hex (upper_ascii (hex_digit (Z_of_byte b mod 16))) = true.
Proof. destruct b; reflexivity. Qed.

Lemma upper_hex_of_bytes (bs : list byte) :
  string_forallb is_upper_hex (upper (hex_of_bytes bs)) = true.
Proof.
  induction bs as [|b bs IH]; simpl; [reflexivity|].
  now rewrite upper_hex_digit_high, upper_hex_digit_low, IH.
Qed.

Lemma length_upper_hexdigest (key msg : list byte) :
  String.length (upper (hmac_md5_hexdigest key msg)) = 32%nat.
Proof.
  unfold hmac_md5_hexdigest.
  now rewrite length_upper, length_hex_of_bytes, length_hmac_md5.
Qed.

(** ** Decimal rendering *)

Lemma digits_string_of_uint (d : Decimal.uint) :
  string_forallb is_digit (NilEmpty.string_of_uint d) = true.
Proof. induction d; simpl; auto. Qed.

Lemma digits_str_of_int (n : Z) :
  0 <= n -> string_forallb is_digit (str_of_int n) = true.
Proof.
  intros Hn. unfold str_of_int.
  destruct n as [|p|p]; [reflexivity| |lia].
  simpl. unfold NilZero.string_of_uint.
  destruct (Pos.to_uint p); try reflexivity; apply digits_string_of_uint.
Qed.

Lemma str_of_int_nonempty (n : Z) : (0 < String.length (str_of_int n))%nat.
Proof.
  unfold str_of_int.
  destruct n as [|p|p]; simpl; unfold NilZero.string_of_uint;
    try destruct (Pos.to_uint p); simpl; lia.
Qed.

(** ** Substrings of a concatenation *)

Lemma substring_all (s : string) : substring 0 (String.length s) s = s.
Proof. induction s as [|c s IH]; simpl; congruence. Qed.

Lemma substring_app_left (s t : string) :
  substring 0 (String.length s) (s ++ t) = s.
Proof.
  induction s as [|c s IH]; simpl.
  - destruct t; reflexivity.
  - now rewrite IH.
Qed.

Lemma substring_app_skip (s t : string) (n : nat) :
  substring (String.length s) n (s ++ t) = substring 0 n t.
Proof. induction s as [|c s IH]; simpl; auto. Qed.

Lemma length_append (s t : string) :
  String.length (s ++ t) = (String.length s + String.length t)%nat.
Proof. induction s as [|c s IH]; simpl; congruence. Qed.

Lemma substring_zero (s : string) (n : nat) : substring n 0 s = EmptyString.
Proof.
  revert n. induction s as [|c s IH]; intros [|n]; simpl; auto.
Qed.

(** An [Hnap_auth] value is well shaped whenever its parts are. *)
Lemma hnap_auth_shape_intro (hex digits : string) :
  String.length hex = 32%nat ->
  string_forallb is_upper_hex hex = true ->
  (0 < String.length digits)%nat ->
  string_forallb is_digit digits = true ->
  hnap_auth_shape (hex ++ " " ++ digits) = true.
Proof.
  intros Hlen Hhex Hne Hdig. unfold hnap_auth_shape, hnap_auth_suffix.
  assert (H1 : substring 0 32 (hex ++ " " ++ digits) = hex).
  { rewrite <- Hlen. apply substring_app_left. }
  assert (H2 : substring 32 1 (hex ++ " " ++ digits) = " "%string).
  { rewrite <- Hlen, substring_app_skip. simpl.
    now rewrite substring_zero. }
  assert (H3 : String.length (hex ++ " " ++ digits)
               = (33 + String.length digits)%nat).
  { rewrite length_append, Hlen. simpl. lia. }
  assert (H4 : substring 33 (String.length digits) (hex ++ " " ++ digits)
               = digits).
  { replace 33%nat with (String.length hex + 1)%nat by lia.
    clear - hex. induction hex as [|c hex IH]; simpl.
    - apply substring_all.
    - apply IH. }
  rewrite H3.
  replace (33 + String.length digits - 33)%nat with (String.length digits)
    by lia.
  rewrite H1, H2, H4, Hhex, Hdig.
  destruct (String.length digits); [lia | reflexivity].
Qed.

(** ** [int] reads back what [str] prints *)

Lemma digit_not_number_space (c : ascii) :
  is_digit c = true -> is_number_space c = false.
Proof.
  destruct c as [[|] [|] [|] [|] [|] [|] [|] [|]];
    simpl; intros H; try reflexivity; discriminate H.
Qed.

Lemma digit_not_space (c : ascii) : is_digit c = true -> is_space c = false.
Proof.
  destruct c as [[|] [|] [|] [|] [|] [|] [|] [|]];
    simpl; intros H; try reflexivity; discriminate H.
Qed.

Lemma digit_not_sign (c : ascii) :
  is_digit c = true -> Ascii.eqb c "-" = false /\ Ascii.eqb c "+" = false.
Proof.
  destruct c as [[|] [|] [|] [|] [|] [|] [|] [|]];
    simpl; intros H; try (split; reflexivity); discriminate H.
Qed.

Lemma lstrip_digits (s : string) :
  string_forallb is_digit s = true -> lstrip s = s.
Proof.
  destruct s as [|c s]; simpl; [reflexivity|].
  intros H. apply andb_prop in H as [Hc _].
  now rewrite (digit_not_number_space c Hc).
Qed.

Lemma rstrip_digits (s : string) :
  string_forallb is_digit s = true -> rstrip s = s.
Proof.
  induction s as [|c s IH]; simpl; [reflexivity|].
  intros H. apply andb_prop in H as [Hc Hs].
  rewrite (IH Hs), (digit_not_number_space c Hc). now destruct s.
Qed.

Lemma strip_digits (s : string) :
  string_forallb is_digit s = true -> strip s = s.
Proof.
  intros H. unfold strip. rewrite (lstrip_digits s H). now apply rstrip_digits.
Qed.

Lemma read_sign_digits (s : string) :
  string_forallb is_digit s = true -> read_sign s = (false, s).
Proof.
  destruct s as [|c s]; simpl; [reflexivity|].
  intros H. apply andb_prop in H as [Hc _].
  destruct (digit_not_sign c Hc) as [-> ->]. reflexivity.
Qed.

Lemma read_digitpart_string_of_uint (d : Decimal.uint) (acc : Z) (n : nat) :
  read_digitpart acc n (NilEmpty.string_of_uint d)
  = (uint_value acc d, (n + Decimal.nb_digits d)%nat, EmptyString).
Proof.
  revert acc n. induction d; intros acc n; simpl.
  1: do 2 f_equal; lia.
  all: rewrite IHd; f_equal; f_equal; try reflexivity; lia.
Qed.

Lemma uint_value_of_uint_acc (d : Decimal.uint) (acc : positive) :
  uint_value (Zpos acc) d = Zpos (Pos.of_uint_acc d acc).
Proof.
  revert acc. induction d; intros acc;
    cbn [uint_value Pos.of_uint_acc]; try reflexivity;
    rewrite <- IHd; f_equal; lia.
Qed.

Lemma uint_value_of_uint (d : Decimal.uint) :
  uint_value 0 d = Z.of_N (Pos.of_uint d).
Proof.
  induction d; cbn [uint_value Pos.of_uint]; try reflexivity; try assumption;
    first [ apply (uint_value_of_uint_acc d 1) | apply (uint_value_of_uint_acc d 2)
          | apply (uint_value_of_uint_acc d 3) | apply (uint_value_of_uint_acc d 4)
          | apply (uint_value_of_uint_acc d 5) | apply (uint_value_of_uint_acc d 6)
          | apply (uint_value_of_uint_acc d 7) | apply (uint_value_of_uint_acc d 8)
          | apply (uint_value_of_uint_acc d 9) ].
Qed.

Lemma int_of_str_of_int (n : Z) : 0 <= n -> int_of_str (str_of_int n) = Ok n.
Proof.
  intros Hn. unfold int_of_str.
  rewrite (strip_digits _ (digits_str_of_int n Hn)).
  rewrite (read_sign_digits _ (digits_str_of_int n Hn)).
  unfold str_of_int. destruct n as [|p|p]; [reflexivity| |lia].
  simpl. unfold NilZero.string_of_uint.
  assert (Hv : uint_value 0 (Pos.to_uint p) = Zpos p).
  { rewrite uint_value_of_uint, DecimalPos.Unsigned.of_to. reflexivity. }
  generalize dependent (Pos.to_uint p). intros u Hv.
  assert (Hs : match u with
               | Decimal.Nil => "0"%string
               | _ => NilEmpty.string_of_uint u
               end = NilEmpty.string_of_uint u).
  { destruct u; try reflexivity. discriminate Hv. }
  rewrite Hs, read_digitpart_string_of_uint, Hv.
  destruct u; try reflexivity. discriminate Hv.
Qed.

(** ** The HNAP helpers *)

Lemma encode_app (s t : string) : encode (s ++ t) = encode s ++ encode t.
Proof.
  unfold encode, list_byte_of_string.
  induction s as [|c s IH]; simpl; [reflexivity|]. now rewrite IH.
Qed.

Lemma hnap_timestamp_range (now_ms : Z) :
  0 <= hnap_timestamp now_ms < 2000000000000.
Proof. unfold hnap_timestamp. apply Z.mod_pos_bound. lia. Qed.

(** What one call of [generate_hnap_auth] returns, at any clock reading. *)
Lemma generate_hnap_auth_parts (now_ms : Z) (soap_action key : string) :
  let ts := now_ms mod 2000000000000 in
  let digest :=
    upper (hex_of_bytes
             (hmac_md5 (encode key)
                (encode (str_of_int ts ++ hnap_uri_prefix ++ soap_action)))) in
  generate_hnap_auth now_ms soap_action key
    = (digest ++ " " ++ str_of_int ts)%string
  /\ hnap_auth_shape (generate_hnap_auth now_ms soap_action key) = true
  /\ int_of_str (hnap_auth_suffix (generate_hnap_auth now_ms soap_action key))
     = Ok ts.
Proof.
  intros ts digest.
  assert (Hts : 0 <= ts) by apply hnap_timestamp_range.
  assert (Heq : generate_hnap_auth now_ms soap_action key
                = (digest ++ " " ++ str_of_int ts)%string) by reflexivity.
  assert (Hlen : String.length digest = 32%nat)
    by apply length_upper_hexdigest.
  split; [exact Heq|]. rewrite Heq. split.
  - apply hnap_auth_shape_intro; auto.
    + apply upper_hex_of_bytes.
    + apply str_of_int_nonempty.
    + now apply digits_str_of_int.
  - unfold hnap_auth_suffix.
    rewrite length_append, Hlen. simpl String.length.
    replace (32 + S (String.length (str_of_int ts)) - 33)%nat
      with (String.length (str_of_int ts)) by lia.
    replace (substring 33 (String.length (str_of_int ts))
               (digest ++ " " ++ str_of_int ts))
      with (str_of_int ts); [now apply int_of_str_of_int|].
    symmetry. replace 33%nat with (String.length digest + 1)%nat by lia.
    generalize (str_of_int ts) as d. clear.
    induction digest as [|c digest IH]; intros d; simpl.
    + apply substring_all.
    + apply IH.
Qed.

(** C10. [generate_private_key] is the uppercase hexadecimal HMAC-MD5 keyed
    with the public key followed by the device password, over the challenge
    (so that only the concatenation of the two counts);
    [generate_login_password] is the one keyed with the private key, over
    the challenge.  Both are functions of their arguments alone, and their
    results are always 32 characters, each in 0-9 or A-F.  The digest is
    MD5 and the construction HMAC: [md5] passes the test suite of RFC 1321,
    [hmac_md5] the HMAC-MD5 cases of RFC 2202, keys longer than a block
    included, and the two helpers give what CPython gives. *)
Theorem derived_keys_are_hmac_md5_upper_hex
    (device_password public_key private_key challenge : string) :
  let pk := generate_private_key device_password public_key challenge in
  let lp := generate_login_password private_key challenge in
  pk = upper (hex_of_bytes
               (hmac_md5 (encode public_key ++ encode device_password)
                         (encode challenge)))
  /\ lp = upper (hex_of_bytes
                  (hmac_md5 (encode private_key) (encode challenge)))
  /\ String.length pk = 32%nat
  /\ string_forallb is_upper_hex pk = true
  /\ String.length lp = 32%nat
  /\ string_forallb is_upper_hex lp = true
  /\ (forall password' key',
        (key' ++ password')%string = (public_key ++ device_password)%string ->
        generate_private_key password' key' challenge = pk)
  /\ forallb (fun '(message, digest) =>
                String.eqb (hex_of_bytes (md5 (encode message))) digest)
       rfc1321_test_suite = true
  /\ forallb (fun '(key, data, digest) =>
                String.eqb (hmac_md5_hexdigest key data) digest)
       rfc2202_hmac_md5 = true
  /\ forallb (fun '(password, key, ch, private, login) =>
                String.eqb (generate_private_key password key ch) private
                && String.eqb (generate_login_password private ch) login)
       derived_keys_known = true.
Proof.
  intros pk lp. subst pk lp.
  unfold generate_private_key, generate_login_password, hmac_md5_hexdigest.
  rewrite encode_app.
  do 6 (split;
        [first [apply upper_hex_of_bytes | reflexivity
               | now rewrite length_upper, length_hex_of_bytes,
                   length_hmac_md5]|]).
  split.
  - intros password' key' Hcat.
    now rewrite <- !encode_app, Hcat.
  - repeat split; vm_compute; reflexivity.
Qed.

Lemma derived_keys_are_hmac_md5_upper_hex_witness :
  generate_private_key "motorola" "PK1" "CH1"
  = "3A03969985504B95C63B027E6EA7F5AC"
  /\ generate_login_password "3A03969985504B95C63B027E6EA7F5AC" "CH1"
     = "4FAFE7F870F7DFC69566A6D89C3FF267"
  /\ generate_private_key "torola" "PK1mo" "CH1"
     = "3A03969985504B95C63B027E6EA7F5AC".
Proof.
  destruct (derived_keys_are_hmac_md5_upper_hex
              "motorola" "PK1" "3A03969985504B95C63B027E6EA7F5AC" "CH1")
    as (H1 & H2 & _ & _ & _ & _ & H7 & _).
  cbv zeta in H1, H2, H7.
  rewrite (H7 "torola" "PK1mo" eq_refl), H1, H2.
  repeat split; vm_compute; reflexivity.
Defined.

(** C8, as amended.  Every value of [generate_hnap_auth] is 32 uppercase
    hexadecimal digits, a space and decimal digits; the digits are the clock
    reading in milliseconds modulo 2*10^12 and the hexadecimal part is the
    uppercase HMAC-MD5, under the key, of that number followed by the action
    URI.  For two readings in increasing order that lie in the same window
    of 2*10^12 milliseconds, the later suffix is not below the earlier one. *)
Theorem hnap_auth_shape_and_order_within_window
    (t1 t2 : Z) (soap_action key : string)
    (Horder : t1 <= t2)
    (Hwindow : t1 / 2000000000000 = t2 / 2000000000000) :
  let auth (t : Z) := generate_hnap_auth t soap_action key in
  let digest (t : Z) :=
    upper (hex_of_bytes
             (hmac_md5 (encode key)
                (encode (str_of_int (t mod 2000000000000)
                         ++ hnap_uri_prefix ++ soap_action)))) in
  (forall t, auth t = (digest t ++ " " ++ str_of_int (t mod 2000000000000))%string
             /\ hnap_auth_shape (auth t) = true
             /\ int_of_str (hnap_auth_suffix (auth t))
                = Ok (t mod 2000000000000))
  /\ hnap_timestamp t1 <= hnap_timestamp t2.
Proof.
  intros auth digest. split.
  - intros t. subst auth digest.
    pose proof (generate_hnap_auth_parts t soap_action key) as H.
    cbv zeta in H. exact H.
  - unfold hnap_timestamp.
    rewrite !Z.mod_eq by lia. rewrite Hwindow. lia.
Qed.

Lemma hnap_auth_shape_and_order_within_window_witness :
  1762250000000 <= 1762250010000
  /\ 1762250000000 / 2000000000000 = 1762250010000 / 2000000000000
  /\ hnap_timestamp 1762250000000 <= hnap_timestamp 1762250010000.
Proof.
  split; [lia|]. split; [reflexivity|].
  apply (hnap_auth_shape_and_order_within_window
           1762250000000 1762250010000 "GetMultipleHNAPs" withoutloginkey);
    [lia | reflexivity].
Defined.

(** C8, as stated, fails across a multiple of 2*10^12 milliseconds: the
    reading 2000000000000 comes after 1999999999999 and its suffix is 0. *)
Lemma hnap_auth_suffix_wraps :
  1999999999999 < 2000000000000
  /\ int_of_str (hnap_auth_suffix
                   (generate_hnap_auth 1999999999999 "GetMultipleHNAPs"
                      withoutloginkey)) = Ok 1999999999999
  /\ int_of_str (hnap_auth_suffix
                   (generate_hnap_auth 2000000000000 "GetMultipleHNAPs"
                      withoutloginkey)) = Ok 0
  /\ ~ (forall t1 t2 : Z,
          t1 <= t2 -> hnap_timestamp t1 <= hnap_timestamp t2).
Proof.
  split; [lia|]. split; [vm_compute; reflexivity|].
  split; [vm_compute; reflexivity|].
  intros H.
  assert (Hle : 1999999999999 <= 2000000000000) by lia.
  apply H in Hle. unfold hnap_timestamp in Hle.
  change (1999999999999 <= 0) in Hle. lia.
Qed.

(** ** The telemetry parsers *)

Example split_channels :
  split channel_separator "a^b|+|c^d|+|" = ["a^b"; "c^d"; ""].
Proof. reflexivity. Qed.

Example float_of_str_examples :
  float_of_str "549.0" = Ok 549.0%float
  /\ float_of_str "6.4" = Ok 6.4%float
  /\ float_of_str " 3.4" = Ok 3.4%float
  /\ float_of_str "1e3" = Ok 1000%float
  /\ float_of_str "" = Err ValueError
  /\ float_of_str "abc" = Err ValueError.
Proof. repeat split; vm_compute; reflexivity. Qed.

Example uptime_groups_full :
  search UPTIME_REGEX 4 "5 days 03h:21m:09s"
  = Some [Some "5"; Some "03"; Some "21"; Some "09"].
Proof. vm_compute. reflexivity. Qed.

Lemma rbind_Ok {A B : Type} (r : result A) (f : A -> result B) (b : B) :
  rbind r f = Ok b -> exists a, r = Ok a /\ f a = Ok b.
Proof. destruct r as [a|e]; simpl; [eauto | discriminate]. Qed.

Ltac rbind_inv H a Ha :=
  apply rbind_Ok in H; destruct H as (a & Ha & H).

Lemma int_of_group_Ok (g : option string) (v : Z) :
  int_of_group g = Ok v -> exists s, g = Some s /\ int_of_str s = Ok v.
Proof. destruct g as [s|]; simpl; [eauto | discriminate]. Qed.

(** A returned uptime means that all four groups took part in the match. *)
Lemma parse_uptime_Ok_groups (raw : string) (v : Z) :
  parse_uptime raw = Ok v ->
  exists (gs : groups) (d h m s : string) (dv hv mv sv : Z),
    search UPTIME_REGEX 4 raw = Some gs
    /\ nth 0 gs None = Some d /\ nth 1 gs None = Some h
    /\ nth 2 gs None = Some m /\ nth 3 gs None = Some s
    /\ int_of_str d = Ok dv /\ int_of_str h = Ok hv
    /\ int_of_str m = Ok mv /\ int_of_str s = Ok sv
    /\ v = dv * 86400 + hv * 3600 + mv * 60 + sv.
Proof.
  unfold parse_uptime. intros H.
  destruct (search UPTIME_REGEX 4 raw) as [gs|]; [|discriminate].
  rbind_inv H dv Hd. rbind_inv H hv Hh. rbind_inv H mv Hm. rbind_inv H sv Hs.
  apply int_of_group_Ok in Hd as (d & Hd & Hdv).
  apply int_of_group_Ok in Hh as (h & Hh & Hhv).
  apply int_of_group_Ok in Hm as (m & Hm & Hmv).
  apply int_of_group_Ok in Hs as (s & Hs & Hsv).
  injection H as <-.
  exists gs, d, h, m, s, dv, hv, mv, sv. repeat split; auto.
Qed.

(** A match without the days group never yields an uptime: [int(None)]. *)
Lemma parse_uptime_days_unset (raw : string) (gs : groups) :
  search UPTIME_REGEX 4 raw = Some gs ->
  nth 0 gs None = None ->
  parse_uptime raw = Err TypeError.
Proof. unfold parse_uptime. intros -> ->. reflexivity. Qed.

(** The fields of a segment that parsed. *)
Lemma parse_downstream_fields_Ok (fields : list string)
    (r : downstream_channel) :
  parse_downstream_fields fields = Ok r ->
  exists f0 f1 modulation channel_id frequency power snr correcteds
         uncorrecteds f9 snr' cid freq pw snr_f cor unc,
    fields = [f0; f1; modulation; channel_id; frequency; power; snr;
              correcteds; uncorrecteds; f9]
    /\ correct_snr modulation snr = Ok snr'
    /\ int_of_str channel_id = Ok cid
    /\ float_of_str frequency = Ok freq
    /\ float_of_str power = Ok pw
    /\ float_of_snr snr' = Ok snr_f
    /\ int_of_str correcteds = Ok cor
    /\ int_of_str uncorrecteds = Ok unc
    /\ r = {| ds_channel_id := cid;
              ds_frequency := PrimFloat.mul freq 1000000%float;
              ds_modulation := modulation;
              ds_power := pw;
              ds_snr := snr_f;
              ds_correcteds := cor;
              ds_uncorrecteds := unc |}.
Proof.
  intros H. unfold parse_downstream_fields in H.
  do 10 (destruct fields as [|? fields]; [discriminate H|]).
  destruct fields; [|discriminate H].
  rbind_inv H snr' H1. rbind_inv H cid H2. rbind_inv H freq H3.
  rbind_inv H pw H4. rbind_inv H snr_f H5. rbind_inv H cor H6.
  rbind_inv H unc H7. injection H as <-.
  repeat eexists; eauto.
Qed.

Lemma parse_upstream_fields_Ok (fields : list string) (r : upstream_channel) :
  parse_upstream_fields fields = Ok r ->
  exists f0 f1 modulation channel_id width frequency power f7 cid freq pw wd,
    fields = [f0; f1; modulation; channel_id; width; frequency; power; f7]
    /\ int_of_str channel_id = Ok cid
    /\ float_of_str frequency = Ok freq
    /\ float_of_str power = Ok pw
    /\ float_of_str width = Ok wd
    /\ r = {| us_channel_id := cid;
              us_frequency := PrimFloat.mul freq 1000000%float;
              us_modulation := modulation;
              us_power := pw;
              us_width := PrimFloat.mul wd 1000%float |}.
Proof.
  intros H. unfold parse_upstream_fields in H.
  do 8 (destruct fields as [|? fields]; [discriminate H|]).
  destruct fields; [|discriminate H].
  rbind_inv H cid H2. rbind_inv H freq H3. rbind_inv H pw H4.
  rbind_inv H wd H5. injection H as <-.
  repeat eexists; eauto.
Qed.

(** The value [float(snr)] has at the append, from the raw one. *)
Lemma corrected_snr_value (modulation snr : string) (v : snr_value)
    (out : float) :
  correct_snr modulation snr = Ok v ->
  float_of_snr v = Ok out ->
  exists raw,
    float_of_str snr = Ok raw
    /\ out = if String.eqb modulation "OFDM PLC" && PrimFloat.ltb raw 20.0%float
             then PrimFloat.mul raw 2.5%float else raw.
Proof.
  unfold correct_snr. intros Hc Hf.
  destruct (String.eqb modulation "OFDM PLC").
  - rbind_inv Hc raw Hraw. injection Hc as <-. simpl in Hf.
    injection Hf as <-. exists raw. split; [exact Hraw|]. reflexivity.
  - injection Hc as <-. simpl in Hf. exists out. split; [exact Hf|].
    reflexivity.
Qed.

(** C6.  For a downstream segment that parses, the SNR put in the tuple is
    the raw one times 2.5 exactly when the modulation field is "OFDM PLC"
    and the raw value is below 20.0, and the raw one otherwise: 15.0 gives
    37.5 under "OFDM PLC", 25.0 stays, and 15.0 stays under "QAM256". *)
Theorem downstream_snr_correction (channel : string) (r : downstream_channel)
    (Hparse : parse_downstream_segment channel = Ok r) :
  (exists raw : float,
     float_of_str (nth 6 (split field_separator channel) "") = Ok raw
     /\ ds_modulation r = nth 2 (split field_separator channel) ""
     /\ ds_snr r =
          if String.eqb (ds_modulation r) "OFDM PLC"
             && PrimFloat.ltb raw 20.0%float
          then PrimFloat.mul raw 2.5%float
          else raw)
  /\ option_map ds_snr
       (match parse_downstream_segment
                "2^Locked^OFDM PLC^159^722.0^ 4.1^15.0^100^5^" with
        | Ok c => Some c | Err _ => None end) = Some 37.5%float
  /\ option_map ds_snr
       (match parse_downstream_segment
                "2^Locked^OFDM PLC^159^722.0^ 4.1^25.0^100^5^" with
        | Ok c => Some c | Err _ => None end) = Some 25.0%float
  /\ option_map ds_snr
       (match parse_downstream_segment
                "1^Locked^QAM256^20^549.0^ 3.4^15.0^12^0^" with
        | Ok c => Some c | Err _ => None end) = Some 15.0%float.
Proof.
  split; [|repeat split; vm_compute; reflexivity].
  unfold parse_downstream_segment in Hparse.
  apply parse_downstream_fields_Ok in Hparse
    as (f0 & f1 & modulation & channel_id & frequency & power & snr
        & correcteds & uncorrecteds & f9 & snr' & cid & freq & pw & snr_f
        & cor & unc & Hfields & Hsnr & _ & _ & _ & Hf & _ & _ & ->).
  rewrite Hfields. simpl.
  destruct (corrected_snr_value _ _ _ _ Hsnr Hf) as (raw & Hraw & Hout).
  exists raw. auto.
Qed.

Lemma downstream_snr_correction_witness :
  exists r : downstream_channel,
    parse_downstream_segment "2^Locked^OFDM PLC^159^722.0^ 4.1^15.0^100^5^"
      = Ok r
    /\ exists raw : float,
         float_of_str "15.0" = Ok raw /\ ds_snr r = PrimFloat.mul raw 2.5%float.
Proof.
  eexists. split; [vm_compute; reflexivity|].
  destruct (downstream_snr_correction
              "2^Locked^OFDM PLC^159^722.0^ 4.1^15.0^100^5^" _ eq_refl)
    as [(raw & Hraw & _ & Hsnr) _].
  exists raw. split; [exact Hraw|].
  vm_compute in Hraw. injection Hraw as <-. exact Hsnr.
Defined.

(** C9.  For segments that parse, the downstream and the upstream frequency
    are the raw value times 1000000 and the upstream width is the raw value
    times 1000: "549.0" gives 549000000.0 and "6.4" gives 6400.0, which the
    frequency factor would have made 6400000.0. *)
Theorem channel_unit_conversions
    (down up : string) (d : downstream_channel) (u : upstream_channel)
    (Hdown : parse_downstream_segment down = Ok d)
    (Hup : parse_upstream_segment up = Ok u) :
  (exists raw : float,
     float_of_str (nth 4 (split field_separator down) "") = Ok raw
     /\ ds_frequency d = PrimFloat.mul raw 1000000%float)
  /\ (exists raw_width raw_frequency : float,
        float_of_str (nth 4 (split field_separator up) "") = Ok raw_width
        /\ float_of_str (nth 5 (split field_separator up) "")
           = Ok raw_frequency
        /\ us_frequency u = PrimFloat.mul raw_frequency 1000000%float
        /\ us_width u = PrimFloat.mul raw_width 1000%float)
  /\ option_map ds_frequency
       (match parse_downstream_segment
                "1^Locked^QAM256^20^549.0^ 3.4^41.2^12^0^" with
        | Ok c => Some c | Err _ => None end) = Some 549000000.0%float
  /\ option_map (fun c => (us_frequency c, us_width c))
       (match parse_upstream_segment "1^Locked^SC-QAM^2^6.4^549.0^45.0^" with
        | Ok c => Some c | Err _ => None end)
     = Some (549000000.0%float, 6400.0%float)
  /\ PrimFloat.mul 6.4%float 1000000%float = 6400000.0%float
  /\ PrimFloat.eqb 6400000.0%float 6400.0%float = false.
Proof.
  split; [|split; [|repeat split; vm_compute; reflexivity]].
  - unfold parse_downstream_segment in Hdown.
    apply parse_downstream_fields_Ok in Hdown
      as (f0 & f1 & modulation & channel_id & frequency & power & snr
          & correcteds & uncorrecteds & f9 & snr' & cid & freq & pw & snr_f
          & cor & unc & Hfields & _ & _ & Hfreq & _ & _ & _ & _ & ->).
    rewrite Hfields. simpl. exists freq. split; [exact Hfreq | reflexivity].
  - unfold parse_upstream_segment in Hup.
    apply parse_upstream_fields_Ok in Hup
      as (f0 & f1 & modulation & channel_id & width & frequency & power & f7
          & cid & freq & pw & wd & Hfields & _ & Hfreq & _ & Hwd & ->).
    rewrite Hfields. simpl. exists wd, freq. repeat split; assumption.
Qed.

Lemma channel_unit_conversions_witness :
  exists (d : downstream_channel) (u : upstream_channel),
    parse_downstream_segment "1^Locked^QAM256^20^549.0^ 3.4^41.2^12^0^" = Ok d
    /\ parse_upstream_segment "1^Locked^SC-QAM^2^6.4^23.7^45.0^" = Ok u
    /\ (exists raw : float,
          float_of_str "549.0" = Ok raw
          /\ ds_frequency d = PrimFloat.mul raw 1000000%float)
    /\ (exists raw_width raw_frequency : float,
          float_of_str "6.4" = Ok raw_width
          /\ float_of_str "23.7" = Ok raw_frequency
          /\ us_frequency u = PrimFloat.mul raw_frequency 1000000%float
          /\ us_width u = PrimFloat.mul raw_width 1000%float).
Proof.
  do 2 eexists. split; [vm_compute; reflexivity|].
  split; [vm_compute; reflexivity|].
  destruct (channel_unit_conversions
              "1^Locked^QAM256^20^549.0^ 3.4^41.2^12^0^"
              "1^Locked^SC-QAM^2^6.4^23.7^45.0^" _ _ eq_refl eq_refl)
    as (Hd & Hu & _).
  split; [exact Hd | exact Hu].
Defined.

(** ** The uptime pattern on texts of a known form *)

(** A greedy star over a character class, on a run of the class followed by
    something else: the rest goes to the continuation when that succeeds. *)
Lemma star_loop_run (body : string -> groups -> rcont -> option groups)
    (p : ascii -> bool) (run rest : string)
    (gs : groups) (k : rcont) (n : nat) (x : groups) :
  (forall s g k',
     body s g k' = match s with
                   | String c s' => if p c then k' s' g else None
                   | EmptyString => None
                   end) ->
  string_forallb p run = true ->
  (String.length run <= n)%nat ->
  match rest with String c _ => p c = false | EmptyString => True end ->
  k rest gs = Some x ->
  star_loop body k n (run ++ rest) gs = Some x.
Proof.
  intros Hbody. revert n.
  induction run as [|c run IH]; intros n Hrun Hn Hrest Hk.
  - simpl. destruct n as [|n]; simpl; [exact Hk|].
    rewrite Hbody. destruct rest as [|c r]; [exact Hk|].
    rewrite Hrest. exact Hk.
  - simpl in Hrun. apply andb_prop in Hrun as [Hc Hrun].
    destruct n as [|n]; [simpl in Hn; lia|].
    cbn [star_loop append]. rewrite Hbody, Hc.
    replace (String.length (run ++ rest)
             <? String.length (String c (run ++ rest)))%nat
      with true by (symmetry; apply Nat.ltb_lt; simpl; lia).
    rewrite (IH n); auto. simpl in Hn. lia.
Qed.

Lemma rmatch_star_run (p : ascii -> bool) (run rest : string)
    (gs : groups) (k : rcont) (x : groups) :
  string_forallb p run = true ->
  match rest with String c _ => p c = false | EmptyString => True end ->
  k rest gs = Some x ->
  rmatch (RStar (RClass p)) (run ++ rest) gs k = Some x.
Proof.
  intros Hrun Hrest Hk. cbn [rmatch].
  apply (star_loop_run _ p); auto.
  rewrite length_append. lia.
Qed.

(** When the continuation fails after every prefix of the run, the star
    fails. *)
Lemma star_loop_fail (body : string -> groups -> rcont -> option groups)
    (p : ascii -> bool) (run rest : string)
    (gs : groups) (k : rcont) (n : nat) :
  (forall s g k',
     body s g k' = match s with
                   | String c s' => if p c then k' s' g else None
                   | EmptyString => None
                   end) ->
  match rest with String c _ => p c = false | EmptyString => True end ->
  (forall t1 t2, run = (t1 ++ t2)%string ->
                 k (t2 ++ rest)%string gs = None) ->
  star_loop body k n (run ++ rest) gs = None.
Proof.
  intros Hbody Hrest. revert n.
  induction run as [|c run IH]; intros n Hk.
  - simpl. assert (H0 := Hk EmptyString EmptyString eq_refl). simpl in H0.
    destruct n as [|n]; simpl; [exact H0|].
    rewrite Hbody. destruct rest as [|c r]; [exact H0|].
    rewrite Hrest. exact H0.
  - assert (H0 := Hk EmptyString (String c run) eq_refl).
    destruct n as [|n]; [exact H0|].
    cbn [star_loop append]. rewrite Hbody.
    destruct (p c).
    + replace (String.length (run ++ rest)
               <? String.length (String c (run ++ rest)))%nat
        with true by (symmetry; apply Nat.ltb_lt; simpl; lia).
      rewrite (IH n); [exact H0|].
      intros t1 t2 ->. apply (Hk (String c t1) t2). reflexivity.
    + exact H0.
Qed.

Lemma rmatch_star_fail (p : ascii -> bool) (run rest : string)
    (gs : groups) (k : rcont) :
  match rest with String c _ => p c = false | EmptyString => True end ->
  (forall t1 t2, run = (t1 ++ t2)%string ->
                 k (t2 ++ rest)%string gs = None) ->
  rmatch (RStar (RClass p)) (run ++ rest) gs k = None.
Proof.
  intros Hrest Hk. cbn [rmatch]. apply (star_loop_fail _ p); auto.
Qed.

Lemma consumed_app (a b : string) : consumed (a ++ b) b = a.
Proof.
  unfold consumed.
  replace (String.length (a ++ b) - String.length b)%nat
    with (String.length a) by (rewrite length_append; lia).
  apply substring_app_left.
Qed.

Lemma rmatch_opt_hit (r : regex) (s : string) (gs : groups) (k : rcont)
    (x : groups) :
  rmatch r s gs k = Some x -> rmatch (ROpt r) s gs k = Some x.
Proof. intros H. cbn [rmatch]. now rewrite H. Qed.

Lemma rmatch_opt_miss (r : regex) (s : string) (gs : groups) (k : rcont) :
  rmatch r s gs k = None -> rmatch (ROpt r) s gs k = k s gs.
Proof. intros H. cbn [rmatch]. now rewrite H. Qed.

(** A two-digit group followed by [r]. *)
Lemma rmatch_two_digits (i : nat) (r : regex) (c1 c2 : ascii) (rest : string)
    (gs : groups) (k : rcont) :
  is_digit c1 = true -> is_digit c2 = true ->
  rmatch (RSeq (RGroup i Rd2) r) (String c1 (String c2 rest)) gs k
  = rmatch r rest (set_group i (String c1 (String c2 EmptyString)) gs) k.
Proof.
  intros H1 H2. cbn [rmatch Rd2 Rd]. rewrite H1, H2.
  change (String c1 (String c2 rest))
    with (String c1 (String c2 EmptyString) ++ rest)%string.
  now rewrite consumed_app.
Qed.

Lemma rmatch_hours (h1 h2 : ascii) (rest : string) (gs : groups) (k : rcont) :
  is_digit h1 = true -> is_digit h2 = true ->
  rmatch R_hours (String h1 (String h2 (String "h" (String ":" rest)))) gs k
  = k rest (set_group 1 (String h1 (String h2 EmptyString)) gs).
Proof.
  intros H1 H2. unfold R_hours. rewrite rmatch_two_digits by assumption.
  reflexivity.
Qed.

Lemma rmatch_minutes (m1 m2 : ascii) (rest : string) (gs : groups)
    (k : rcont) :
  is_digit m1 = true -> is_digit m2 = true ->
  rmatch R_minutes (String m1 (String m2 (String "m" (String ":" rest)))) gs k
  = k rest (set_group 2 (String m1 (String m2 EmptyString)) gs).
Proof.
  intros H1 H2. unfold R_minutes. rewrite rmatch_two_digits by assumption.
  reflexivity.
Qed.

Lemma rmatch_seconds (s1 s2 : ascii) (rest : string) (gs : groups)
    (k : rcont) :
  is_digit s1 = true -> is_digit s2 = true ->
  rmatch R_seconds (String s1 (String s2 (String "s" rest))) gs k
  = k rest (set_group 3 (String s1 (String s2 EmptyString)) gs).
Proof.
  intros H1 H2. unfold R_seconds. rewrite rmatch_two_digits by assumption.
  reflexivity.
Qed.

(** The three clock parts, matched one after the other. *)
Lemma rmatch_clock (h1 h2 m1 m2 s1 s2 : ascii) (g0 : option string) :
  is_digit h1 = true -> is_digit h2 = true ->
  is_digit m1 = true -> is_digit m2 = true ->
  is_digit s1 = true -> is_digit s2 = true ->
  rmatch (RSeq (ROpt R_hours) (RSeq (ROpt R_minutes) (ROpt R_seconds)))
    (uptime_text_no_days h1 h2 m1 m2 s1 s2) [g0; None; None; None]
    (fun _ gs => Some gs)
  = Some [g0; Some (String h1 (String h2 EmptyString));
          Some (String m1 (String m2 EmptyString));
          Some (String s1 (String s2 EmptyString))].
Proof.
  intros Hh1 Hh2 Hm1 Hm2 Hs1 Hs2. unfold uptime_text_no_days.
  cbn [append].
  cbn [rmatch]. rewrite rmatch_hours by assumption. cbv beta.
  rewrite rmatch_minutes by assumption. cbv beta.
  rewrite rmatch_seconds by assumption. reflexivity.
Qed.

Lemma digit_not_d (c : ascii) : is_digit c = true -> Ascii.eqb "d" c = false.
Proof.
  destruct c as [[|] [|] [|] [|] [|] [|] [|] [|]];
    simpl; intros H; try reflexivity; discriminate H.
Qed.

(** The days part on a run of digits followed by " days " and more. *)
Lemma rmatch_days (d1 : ascii) (ds rest : string) (g1 g2 g3 g4 : option string)
    (k : rcont) (x : groups) :
  is_digit d1 = true -> string_forallb is_digit ds = true ->
  match rest with String c _ => is_space c = false | EmptyString => True end ->
  k rest [Some (String d1 ds); g2; g3; g4] = Some x ->
  rmatch R_days (String d1 ds ++ " days " ++ rest) [g1; g2; g3; g4] k = Some x.
Proof.
  intros Hd1 Hds Hrest Hk. unfold R_days, Rd_plus.
  cbn [rmatch Rd append]. rewrite Hd1.
  apply (star_loop_run _ is_digit);
    [ intros s g k'; destruct s; reflexivity
    | exact Hds
    | rewrite length_append; lia
    | reflexivity
    | ].
  cbv beta.
  match goal with
  | |- context [consumed (String d1 (ds ++ ?t)) ?t] =>
      change (String d1 (ds ++ t)) with (String d1 ds ++ t)%string;
      rewrite (consumed_app (String d1 ds) t)
  end.
  cbn [set_group].
  match goal with
  | |- rmatch Rs_star (String " " ?t) ?gs ?k' = _ =>
      change (rmatch (RStar (RClass is_space))
                (String " " EmptyString ++ t) gs k' = Some x)
  end.
  apply rmatch_star_run; [reflexivity | reflexivity | ].
  cbn [rmatch RLit]. rewrite !Ascii.eqb_refl.
  match goal with
  | |- rmatch Rs_star (String " " ?t) ?gs ?k' = _ =>
      change (rmatch (RStar (RClass is_space))
                (String " " EmptyString ++ t) gs k' = Some x)
  end.
  apply rmatch_star_run; [reflexivity | exact Hrest | exact Hk].
Qed.

(** The text with all four parts matches with its four groups set. *)
Lemma search_uptime_text (d1 : ascii) (ds : string)
    (h1 h2 m1 m2 s1 s2 : ascii) :
  is_digit d1 = true -> string_forallb is_digit ds = true ->
  is_digit h1 = true -> is_digit h2 = true ->
  is_digit m1 = true -> is_digit m2 = true ->
  is_digit s1 = true -> is_digit s2 = true ->
  search UPTIME_REGEX 4 (uptime_text (String d1 ds) h1 h2 m1 m2 s1 s2)
  = Some [Some (String d1 ds); Some (String h1 (String h2 EmptyString));
          Some (String m1 (String m2 EmptyString));
          Some (String s1 (String s2 EmptyString))].
Proof.
  intros Hd1 Hds Hh1 Hh2 Hm1 Hm2 Hs1 Hs2.
  assert (Hm : rmatch UPTIME_REGEX
                 (uptime_text (String d1 ds) h1 h2 m1 m2 s1 s2)
                 (repeat None 4) (fun _ gs => Some gs)
               = Some [Some (String d1 ds);
                       Some (String h1 (String h2 EmptyString));
                       Some (String m1 (String m2 EmptyString));
                       Some (String s1 (String s2 EmptyString))]).
  { unfold UPTIME_REGEX.
    change (rmatch (RSeq (ROpt R_days) ?b) ?s ?gs ?k)
      with (rmatch (ROpt R_days) s gs (fun s' gs' => rmatch b s' gs' k)).
    apply rmatch_opt_hit.
    change (uptime_text (String d1 ds) h1 h2 m1 m2 s1 s2)
      with (String d1 ds ++ " days "
            ++ uptime_text_no_days h1 h2 m1 m2 s1 s2)%string.
    apply rmatch_days; auto.
    - simpl. now apply digit_not_space.
    - now apply rmatch_clock. }
  unfold search at 1.
  destruct (uptime_text (String d1 ds) h1 h2 m1 m2 s1 s2);
    cbn [search]; rewrite Hm; reflexivity.
Qed.

(** Without the days part the pattern still matches, the first group
    unset. *)
Lemma search_uptime_text_no_days (h1 h2 m1 m2 s1 s2 : ascii) :
  is_digit h1 = true -> is_digit h2 = true ->
  is_digit m1 = true -> is_digit m2 = true ->
  is_digit s1 = true -> is_digit s2 = true ->
  search UPTIME_REGEX 4 (uptime_text_no_days h1 h2 m1 m2 s1 s2)
  = Some [None; Some (String h1 (String h2 EmptyString));
          Some (String m1 (String m2 EmptyString));
          Some (String s1 (String s2 EmptyString))].
Proof.
  intros Hh1 Hh2 Hm1 Hm2 Hs1 Hs2.
  assert (Hdays : forall k,
    rmatch R_days (uptime_text_no_days h1 h2 m1 m2 s1 s2)
      (repeat None 4) k = None).
  { intros k. unfold R_days, Rd_plus, uptime_text_no_days.
    cbn [rmatch Rd append]. rewrite Hh1.
    match goal with
    | |- star_loop _ ?k' _ (String h2 ?t) ?gs = _ =>
        change (rmatch (RStar (RClass is_digit))
                  (String h2 EmptyString ++ t) gs k' = None)
    end.
    apply rmatch_star_fail; [reflexivity|].
    intros t1 t2 Ht.
    assert (Hcases : t2 = EmptyString \/ t2 = String h2 EmptyString).
    { destruct t1 as [|c [|c' t1]]; simpl in Ht.
      - right. now subst.
      - left. injection Ht as _ Ht. now subst.
      - injection Ht as _ Ht. discriminate Ht. }
    destruct Hcases as [-> | ->]; cbv beta; cbn [append rmatch Rs_star].
    - cbn [String.length star_loop rmatch RLit]. reflexivity.
    - cbn [String.length star_loop rmatch RLit].
      rewrite (digit_not_space h2 Hh2), (digit_not_d h2 Hh2). reflexivity. }
  assert (Hm : rmatch UPTIME_REGEX
                 (uptime_text_no_days h1 h2 m1 m2 s1 s2)
                 (repeat None 4) (fun _ gs => Some gs)
               = Some [None; Some (String h1 (String h2 EmptyString));
                       Some (String m1 (String m2 EmptyString));
                       Some (String s1 (String s2 EmptyString))]).
  { unfold UPTIME_REGEX.
    change (rmatch (RSeq (ROpt R_days) ?b) ?s ?gs ?k)
      with (rmatch (ROpt R_days) s gs (fun s' gs' => rmatch b s' gs' k)).
    rewrite rmatch_opt_miss by apply Hdays. cbv beta.
    now apply rmatch_clock. }
  unfold uptime_text_no_days in *. cbn [append] in *.
  cbn [search]. rewrite Hm. reflexivity.
Qed.

(** ** [int] on a run of digits, and the uptime of the two forms *)

Lemma read_digitpart_digits (s : string) (acc : Z) (n : nat) :
  string_forallb is_digit s = true ->
  read_digitpart acc n s
  = (decimal_value acc s, (n + String.length s)%nat, EmptyString).
Proof.
  revert acc n. induction s as [|c s IH]; intros acc n H; simpl.
  - do 2 f_equal. lia.
  - simpl in H. apply andb_prop in H as [Hc Hs]. rewrite Hc.
    rewrite (IH _ _ Hs). do 2 f_equal. lia.
Qed.

Lemma int_of_str_digits (c : ascii) (s : string) :
  is_digit c = true -> string_forallb is_digit s = true ->
  int_of_str (String c s) = Ok (decimal_value 0 (String c s)).
Proof.
  intros Hc Hs.
  assert (H : string_forallb is_digit (String c s) = true)
    by (simpl; now rewrite Hc, Hs).
  unfold int_of_str.
  rewrite (strip_digits _ H), (read_sign_digits _ H).
  rewrite (read_digitpart_digits _ 0 0 H). reflexivity.
Qed.

(** On the text with all four parts the uptime is the weighted sum. *)
Lemma parse_uptime_text (d1 : ascii) (ds : string)
    (h1 h2 m1 m2 s1 s2 : ascii) :
  is_digit d1 = true -> string_forallb is_digit ds = true ->
  is_digit h1 = true -> is_digit h2 = true ->
  is_digit m1 = true -> is_digit m2 = true ->
  is_digit s1 = true -> is_digit s2 = true ->
  parse_uptime (uptime_text (String d1 ds) h1 h2 m1 m2 s1 s2)
  = Ok (decimal_value 0 (String d1 ds) * 86400
        + decimal_value 0 (String h1 (String h2 EmptyString)) * 3600
        + decimal_value 0 (String m1 (String m2 EmptyString)) * 60
        + decimal_value 0 (String s1 (String s2 EmptyString))).
Proof.
  intros Hd1 Hds Hh1 Hh2 Hm1 Hm2 Hs1 Hs2. unfold parse_uptime.
  rewrite search_uptime_text by assumption.
  cbn [nth int_of_group].
  rewrite !int_of_str_digits by (simpl; rewrite ?Hh2, ?Hm2, ?Hs2; auto).
  reflexivity.
Qed.

(** On the text without the days part [int(None)] raises. *)
Lemma parse_uptime_text_no_days (h1 h2 m1 m2 s1 s2 : ascii) :
  is_digit h1 = true -> is_digit h2 = true ->
  is_digit m1 = true -> is_digit m2 = true ->
  is_digit s1 = true -> is_digit s2 = true ->
  parse_uptime (uptime_text_no_days h1 h2 m1 m2 s1 s2) = Err TypeError.
Proof.
  intros Hh1 Hh2 Hm1 Hm2 Hs1 Hs2. unfold parse_uptime.
  rewrite search_uptime_text_no_days by assumption. reflexivity.
Qed.

(** C1.  On a text with all four parts the uptime is days*86400 +
    hours*3600 + minutes*60 + seconds, and "5 days 03h:21m:09s" gives
    444069.  On a text without the days part the pattern still matches,
    with the days group unset, and [int(None)] raises [TypeError]:
    "00h:05m:00s" gives no 300, and so it is for every missing group. *)
Theorem uptime_without_days_raises
    (d1 : ascii) (ds : string) (h1 h2 m1 m2 s1 s2 : ascii)
    (Hd1 : is_digit d1 = true) (Hds : string_forallb is_digit ds = true)
    (Hh1 : is_digit h1 = true) (Hh2 : is_digit h2 = true)
    (Hm1 : is_digit m1 = true) (Hm2 : is_digit m2 = true)
    (Hs1 : is_digit s1 = true) (Hs2 : is_digit s2 = true) :
  parse_uptime (uptime_text (String d1 ds) h1 h2 m1 m2 s1 s2)
  = Ok (decimal_value 0 (String d1 ds) * 86400
        + decimal_value 0 (String h1 (String h2 EmptyString)) * 3600
        + decimal_value 0 (String m1 (String m2 EmptyString)) * 60
        + decimal_value 0 (String s1 (String s2 EmptyString)))
  /\ search UPTIME_REGEX 4 (uptime_text_no_days h1 h2 m1 m2 s1 s2)
     = Some [None; Some (String h1 (String h2 EmptyString));
             Some (String m1 (String m2 EmptyString));
             Some (String s1 (String s2 EmptyString))]
  /\ parse_uptime (uptime_text_no_days h1 h2 m1 m2 s1 s2) = Err TypeError
  /\ parse_uptime "5 days 03h:21m:09s" = Ok 444069
  /\ parse_uptime "00h:05m:00s" = Err TypeError
  /\ parse_uptime "5 days 03h:21m:" = Err TypeError
  /\ parse_uptime "5 days 21m:09s" = Err TypeError
  /\ parse_uptime "5 days" = Err TypeError.
Proof.
  split; [now apply parse_uptime_text|].
  split; [now apply search_uptime_text_no_days|].
  split; [now apply parse_uptime_text_no_days|].
  repeat split; vm_compute; reflexivity.
Qed.

Lemma uptime_without_days_raises_witness :
  uptime_text "5" "0" "3" "2" "1" "0" "9" = "5 days 03h:21m:09s"%string
  /\ uptime_text_no_days "0" "0" "0" "5" "0" "0" = "00h:05m:00s"%string
  /\ parse_uptime (uptime_text "5" "0" "3" "2" "1" "0" "9") = Ok 444069
  /\ parse_uptime (uptime_text_no_days "0" "0" "0" "5" "0" "0")
     = Err TypeError.
Proof.
  split; [reflexivity|]. split; [reflexivity|].
  split.
  - exact (proj1 (uptime_without_days_raises
                    "5" EmptyString "0" "3" "2" "1" "0" "9"
                    eq_refl eq_refl eq_refl eq_refl
                    eq_refl eq_refl eq_refl eq_refl)).
  - exact (proj1 (proj2 (proj2 (uptime_without_days_raises
                    "5" EmptyString "0" "0" "0" "5" "0" "0"
                    eq_refl eq_refl eq_refl eq_refl
                    eq_refl eq_refl eq_refl eq_refl)))).
Defined.

(** ** Runs of the exporter *)

Lemma count_app (p : event -> bool) (t1 t2 : list event) :
  count p (t1 ++ t2) = (count p t1 + count p t2)%nat.
Proof. unfold count. now rewrite filter_app, length_app. Qed.

Lemma count_zero_filter (p : event -> bool) (t : list event) :
  count p t = 0%nat -> filter p t = [].
Proof. unfold count. now destruct (filter p t). Qed.

Section ExporterFacts.

Variable cfg : Config.
Variable env : Env.
Variable str_of_json : json -> string.

#[local] Abbreviation login' := (login cfg env str_of_json).
#[local] Abbreviation cycle_body' := (cycle_body cfg env str_of_json).
#[local] Abbreviation export_cycle' := (export_cycle cfg env str_of_json).
#[local] Abbreviation poll_loop' := (poll_loop cfg env str_of_json).
#[local] Abbreviation export' := (export cfg env str_of_json).
#[local] Abbreviation delay := (scrape_delay cfg).
#[local] Abbreviation poll_post_event' := (poll_post_event cfg env).
#[local] Abbreviation cycle_tail' := (cycle_tail cfg).

(** What [login()] touches: the session and the clock and HTTP positions.
    It is entered once, posts no status poll and queues nothing. *)
Lemma login_effects (w : World) :
  let run := login' w in
  queue (world_of run) = queue w
  /\ stop_event (world_of run) = stop_event w
  /\ n_perf (world_of run) = n_perf w
  /\ n_utc (world_of run) = n_utc w
  /\ n_insert (world_of run) = n_insert w
  /\ count is_login_call (trace_of run) = 1%nat
  /\ count is_put (trace_of run) = 0%nat
  /\ count is_poll_post (trace_of run) = 0%nat
  /\ (has_key w -> has_key (world_of run)).
Proof.
  unfold login, has_key. unfold_M. cbv zeta.
  repeat (break_inner; simpl); repeat split; auto; eauto.
Qed.

(** A login that returns has stored a complete session. *)
Lemma login_Ok_session (w w1 : World) (t1 : list event) :
  login' w = (Ok tt, w1, t1) ->
  has_key w1 /\ exists h, hnap_auth (session w1) = Some h.
Proof.
  unfold login, has_key. unfold_M. cbv zeta.
  repeat (break_inner; simpl); intros H; inversion H; subst; simpl;
    eauto.
Qed.

(** What a login that gets as far as storing the session stores: the values
    of the challenge response and the keys derived from them. *)
Lemma login_session (w : World) :
  let run := login' w in
  session (world_of run) = session w
  \/ exists (ch : string) (ck pk : json) (j : json),
       http_reply env (n_http w) = ReplyJson j
       /\ getitem2 j "LoginResponse" "Challenge" = Ok (JStr ch)
       /\ getitem2 j "LoginResponse" "Cookie" = Ok ck
       /\ getitem2 j "LoginResponse" "PublicKey" = Ok pk
       /\ let key := generate_private_key (modem_password cfg)
                       (format_json str_of_json pk) ch in
          session (world_of run)
          = {| challenge := JStr ch; uid := ck; public_key := pk;
               private_key := JStr key;
               login_password := JStr (generate_login_password key ch);
               hnap_auth :=
                 Some (generate_hnap_auth (time_ms env (S (n_time w)))
                         "Login" key) |}.
Proof.
  unfold login, generate_private_key_of, generate_login_password_of.
  unfold_M. cbv zeta.
  repeat (break_inner; simpl); auto;
    right; repeat match goal with
                  | H : Ok _ = Ok _ |- _ => inversion H; subst; clear H
                  | H : Err _ = Ok _ |- _ => discriminate H
                  end;
    repeat eexists; eauto.
Qed.


(** A cycle whose poll is answered with a result other than "OK". *)
Lemma failed_poll_cycle
    (modem_cookies : cookies) (w : World) (key : string) (j res : json) :
  private_key (session w) = JStr key ->
  http_reply env (n_http w) = ReplyJson j ->
  combined_result j = Ok res ->
  is_OK res = false ->
  let relogin := login' (after_poll w) in
  export_cycle' modem_cookies w
  = (Ok tt, world_of relogin,
     [EvPerfCounter (perf_counter env (n_perf w));
      EvTime (time_ms env (n_time w));
      poll_post_event' modem_cookies w key;
      EvLog Warning "Session expired, trying to login again" None]
     ++ trace_of relogin ++ cycle_tail' (result_of relogin)).
Proof.
  intros Hkey Hreply Hres Hfailed relogin. subst relogin.
  unfold export_cycle, cycle_body, after_poll, cycle_tail.
  unfold_M. simpl. rewrite Hkey. simpl. rewrite Hreply, Hres. simpl.
  rewrite Hfailed. simpl.
  destruct (login' (next_http (next_time (next_perf w))))
    as [[[[]|e] lw] lt]; simpl; rewrite <- ?app_assoc; reflexivity.
Qed.


(** A cycle whose poll is answered "OK": the row is built from the answer
    with the latency and the timestamp read after it, and queued; a payload
    that does not parse leaves the queue as it was. *)
Lemma ok_poll_cycle
    (modem_cookies : cookies) (w : World) (key : string) (j res : json) :
  private_key (session w) = JStr key ->
  http_reply env (n_http w) = ReplyJson j ->
  combined_result j = Ok res ->
  is_OK res = true ->
  let start := perf_counter env (n_perf w) in
  let finish := perf_counter env (S (n_perf w)) in
  let timestamp := utc_timestamp env (n_utc w) in
  let w1 := next_utc (next_perf (after_poll w)) in
  let events :=
    [EvPerfCounter start;
     EvTime (time_ms env (n_time w));
     poll_post_event' modem_cookies w key;
     EvPerfCounter finish;
     EvLog Info "Modem status scraping complete" None;
     EvUtcNow timestamp] in
  export_cycle' modem_cookies w
  = match build_row cfg j (PrimFloat.sub finish start) timestamp with
    | Ok row =>
        (Ok tt,
         set_queue (queue w ++ [(insert_statement cfg, [row])]) w1,
         events ++ [EvPut (insert_statement cfg, [row]); EvSleep delay])
    | Err e =>
        (Ok tt, w1,
         events ++ [EvLog Error "Failed to update modem status" (Some e);
                    EvSleep delay; EvSleep delay])
    end.
Proof.
  intros Hkey Hreply Hres Hok. cbv zeta.
  unfold export_cycle, cycle_body, after_poll, poll_post_event.
  unfold_M. simpl. rewrite Hkey. simpl. rewrite Hreply, Hres. simpl.
  rewrite Hok. simpl.
  destruct (build_row cfg j _ _) as [row|e]; reflexivity.
Qed.

(** A cycle that reaches no answer, or an answer without a result field. *)
Lemma broken_poll_cycle (modem_cookies : cookies) (w : World) :
  (forall key, private_key (session w) = JStr key ->
     match http_reply env (n_http w) with
     | ReplyJson j =>
         match combined_result j with Ok _ => False | Err _ => True end
     | ReplyError _ => True
     end) ->
  let run := export_cycle' modem_cookies w in
  result_of run = Ok tt
  /\ session (world_of run) = session w
  /\ queue (world_of run) = queue w
  /\ stop_event (world_of run) = stop_event w
  /\ count is_put (trace_of run) = 0%nat
  /\ count is_login_call (trace_of run) = 0%nat
  /\ forall key, private_key (session w) = JStr key ->
       filter is_poll_post (trace_of run) = [poll_post_event' modem_cookies w key].
Proof.
  intros Hbroken. cbv zeta.
  unfold export_cycle, cycle_body, poll_post_event.
  unfold_M. simpl.
  destruct (private_key (session w)) as [ | ? | ? | ? | key | ? | ? ] eqn:Hkey;
    simpl;
    try (repeat split; auto; intros key' Hk; discriminate Hk).
  specialize (Hbroken key eq_refl).
  destruct (http_reply env (n_http w)) as [e|j]; simpl.
  - repeat split; auto. intros key' Hk. now injection Hk as ->.
  - destruct (combined_result j) as [res|e]; [contradiction|]. simpl.
    repeat split; auto. intros key' Hk. now injection Hk as ->.
Qed.

(** What every cycle does, whatever the modem answers. *)
Lemma export_cycle_effects (modem_cookies : cookies) (w : World) :
  let run := export_cycle' modem_cookies w in
  result_of run = Ok tt
  /\ stop_event (world_of run) = stop_event w
  /\ (has_key w -> has_key (world_of run))
  /\ (count is_put (trace_of run) <= 1)%nat
  /\ (count is_login_call (trace_of run) <= 1)%nat
  /\ forall key, private_key (session w) = JStr key ->
       filter is_poll_post (trace_of run) = [poll_post_event' modem_cookies w key].
Proof.
  cbv zeta.
  assert (Hbroken :
    (forall key, private_key (session w) = JStr key ->
       match http_reply env (n_http w) with
       | ReplyJson j =>
           match combined_result j with Ok _ => False | Err _ => True end
       | ReplyError _ => True
       end) ->
    result_of (export_cycle' modem_cookies w) = Ok tt
    /\ stop_event (world_of (export_cycle' modem_cookies w)) = stop_event w
    /\ (has_key w -> has_key (world_of (export_cycle' modem_cookies w)))
    /\ (count is_put (trace_of (export_cycle' modem_cookies w)) <= 1)%nat
    /\ (count is_login_call (trace_of (export_cycle' modem_cookies w)) <= 1)%nat
    /\ forall key, private_key (session w) = JStr key ->
         filter is_poll_post (trace_of (export_cycle' modem_cookies w))
         = [poll_post_event' modem_cookies w key]).
  { intros Hb.
    destruct (broken_poll_cycle modem_cookies w Hb)
      as (H1 & H2 & H3 & H4 & H5 & H6 & H7).
    repeat split; auto; try lia.
    unfold has_key. now rewrite H2. }
  destruct (private_key (session w)) as [ | ? | ? | ? | key | ? | ? ] eqn:Hkey;
    try (apply Hbroken; intros k Hk; discriminate Hk).
  destruct (http_reply env (n_http w)) as [e|j] eqn:Hreply;
    [apply Hbroken; trivial|].
  destruct (combined_result j) as [res|e] eqn:Hres;
    [|apply Hbroken; trivial].
  clear Hbroken.
  destruct (is_OK res) eqn:Hok.
  - rewrite (ok_poll_cycle modem_cookies w key j res Hkey Hreply Hres Hok).
    cbv zeta. unfold result_of, world_of, trace_of, count, poll_post_event,
      has_key.
    destruct (build_row cfg j _ _) as [row|e]; simpl;
      repeat split; auto; try (intros _; eauto);
      intros key' Hk; now injection Hk as ->.
  - rewrite (failed_poll_cycle modem_cookies w key j res Hkey Hreply Hres Hok).
    destruct (login_effects (after_poll w))
      as (Hq & Hs & _ & _ & _ & Hlog & Hput & Hpoll & Hk).
    cbv zeta in *.
    unfold result_of, world_of, trace_of, count, poll_post_event, cycle_tail,
      after_poll in *.
    simpl fst; simpl snd.
    repeat split; auto;
      match goal with
      | |- has_key _ -> _ =>
          intros _; apply Hk; exists key; reflexivity
      | |- (_ <= _)%nat =>
          simpl; rewrite filter_app, length_app, ?Hput, ?Hlog;
          destruct (fst (fst (login' _))); simpl; lia
      | |- forall _, _ =>
          intros key' Hk'; injection Hk' as <-; simpl;
          rewrite filter_app, (count_zero_filter _ _ Hpoll);
          destruct (fst (fst (login' _))); reflexivity
      end.
Qed.

(** The loop never ends on an exception, keeps the stop event as it is,
    and sends one status poll per turn, all with the cookies it started
    with. *)
Lemma poll_loop_effects (n : nat) (modem_cookies : cookies) (w : World) :
  let run := poll_loop' n modem_cookies w in
  result_of run = Ok tt
  /\ stop_event (world_of run) = stop_event w
  /\ (has_key w ->
      has_key (world_of run)
      /\ length (filter is_poll_post (trace_of run)) = n
      /\ Forall (fun ev => post_cookies ev = Some modem_cookies)
           (filter is_poll_post (trace_of run))).
Proof.
  cbv zeta. revert w. induction n as [|n IH]; intros w.
  - simpl. unfold ret, result_of, world_of, trace_of. simpl. auto.
  - cbn [poll_loop]. unfold bind.
    destruct (export_cycle_effects modem_cookies w)
      as (Hr & Hs & Hk & _ & _ & Hp).
    cbv zeta in *. unfold result_of, world_of, trace_of in *.
    destruct (export_cycle' modem_cookies w) as [[r w1] t1].
    simpl in Hr, Hs, Hk, Hp. subst r.
    specialize (IH w1). destruct IH as (IHr & IHs & IHk).
    destruct (poll_loop' n modem_cookies w1) as [[r2 w2] t2].
    simpl in *. repeat split; try congruence.
    + apply IHk, Hk, H.
    + destruct H as (key & Hkey).
      rewrite filter_app, length_app, (Hp key Hkey). simpl.
      f_equal. apply IHk, Hk. now exists key.
    + destruct H as (key & Hkey).
      rewrite filter_app, (Hp key Hkey).
      apply Forall_app. split.
      * constructor; [reflexivity | constructor].
      * apply IHk, Hk. now exists key.
Qed.

Lemma parse_each_length {A B : Type} (f : A -> result B) (xs : list A)
    (ys : list (list B)) :
  parse_each f xs = Ok ys ->
  length ys = length xs /\ Forall (fun entry => length entry = 1%nat) ys.
Proof.
  revert ys. induction xs as [|x xs IH]; simpl; intros ys H.
  - injection H as <-. split; [reflexivity | constructor].
  - destruct (f x) as [y|e]; [|discriminate H]. simpl in H.
    destruct (parse_each f xs) as [ys'|e]; [|discriminate H]. simpl in H.
    injection H as <-. destruct (IH ys' eq_refl) as [Hlen Hall].
    split; [simpl; now rewrite Hlen | now constructor].
Qed.

Lemma json_split_Ok (sep : string) (x : json) (l : list string) :
  json_split sep x = Ok l -> exists s, x = JStr s /\ l = split sep s.
Proof.
  destruct x; simpl; intros H; try discriminate H.
  injection H as <-. eauto.
Qed.

(** A row that was built has one entry per segment of each channel string,
    and carries the latency and the timestamp it was given. *)
Lemma build_row_Ok (j : json) (latency timestamp : float) (row : Row) :
  build_row cfg j latency timestamp = Ok row ->
  row_scrape_latency row = latency
  /\ row_timestamp row = timestamp
  /\ row_model row = "MB8600"%string
  /\ exists ds_raw us_raw : string,
       status_field j "GetMotoStatusDownstreamChannelInfoResponse"
         "MotoConnDownstreamChannel" = Ok (JStr ds_raw)
       /\ status_field j "GetMotoStatusUpstreamChannelInfoResponse"
            "MotoConnUpstreamChannel" = Ok (JStr us_raw)
       /\ length (row_downstream row)
          = length (split channel_separator ds_raw)
       /\ length (row_upstream row)
          = length (split channel_separator us_raw)
       /\ Forall (fun entry => length entry = 1%nat) (row_downstream row)
       /\ Forall (fun entry => length entry = 1%nat) (row_upstream row).
Proof.
  unfold build_row. intros H.
  rbind_inv H ds_raw H1. rbind_inv H ds_segments H2.
  rbind_inv H downstream H3. rbind_inv H us_raw H4.
  rbind_inv H us_segments H5. rbind_inv H upstream H6.
  rbind_inv H up_raw H7. rbind_inv H uptime H8.
  rbind_inv H config_filename H9. rbind_inv H version H10.
  injection H as <-. simpl.
  apply json_split_Ok in H2 as (ds & -> & ->).
  apply json_split_Ok in H5 as (us & -> & ->).
  apply parse_each_length in H3 as [Hd1 Hd2].
  apply parse_each_length in H6 as [Hu1 Hu2].
  repeat split; auto. exists ds, us. repeat split; auto.
Qed.

(** C3.  After a first [login()] that succeeds, every status poll of
    [export] carries the uid and the private key which that login stored,
    however many turns follow and whatever they do.  The [Hnap_auth] header
    of a poll is computed at that turn from the private key stored then;
    and a later [login()] that gets as far as storing a session stores the
    new challenge, cookie and keys. *)
Theorem poll_cookies_fixed_at_first_login
    (n : nat) (w0 w1 : World) (t1 : list event)
    (Hlogin : login' w0 = (Ok tt, w1, t1)) :
  let run := export' n w0 in
  let polls := filter is_poll_post (trace_of run) in
  result_of run = Ok tt
  /\ length polls = n
  /\ Forall (fun ev => post_cookies ev
                       = Some [("uid", uid (session w1));
                               ("PrivateKey", private_key (session w1))])
       polls
  /\ (forall c w key,
        private_key (session w) = JStr key ->
        filter is_poll_post (trace_of (export_cycle' c w))
        = [EvPost (hnap_url cfg) c
             (poll_headers
                (generate_hnap_auth (time_ms env (n_time w)) poll_action key))
             poll_request])
  /\ (forall w,
        let relogin := login' w in
        session (world_of relogin) = session w
        \/ exists (ch : string) (ck pk : json) (j : json),
             http_reply env (n_http w) = ReplyJson j
             /\ getitem2 j "LoginResponse" "Challenge" = Ok (JStr ch)
             /\ getitem2 j "LoginResponse" "Cookie" = Ok ck
             /\ getitem2 j "LoginResponse" "PublicKey" = Ok pk
             /\ let key := generate_private_key (modem_password cfg)
                             (format_json str_of_json pk) ch in
                session (world_of relogin)
                = {| challenge := JStr ch; uid := ck; public_key := pk;
                     private_key := JStr key;
                     login_password := JStr (generate_login_password key ch);
                     hnap_auth :=
                       Some (generate_hnap_auth (time_ms env (S (n_time w)))
                               "Login" key) |}).
Proof.
  cbv zeta.
  destruct (login_Ok_session w0 w1 t1 Hlogin) as (Hkey & h & Hh).
  destruct (login_effects w0) as (_ & _ & _ & _ & _ & _ & _ & Hpoll & _).
  rewrite Hlogin in Hpoll. unfold trace_of in Hpoll. simpl in Hpoll.
  apply count_zero_filter in Hpoll.
  destruct (poll_loop_effects n (cookies_of (session w1)) w1)
    as (Hr & _ & Hloop).
  destruct (Hloop Hkey) as (_ & Hlen & Hall). clear Hloop.
  assert (Hexport :
    export' n w0
    = (result_of (poll_loop' n (cookies_of (session w1)) w1),
       world_of (poll_loop' n (cookies_of (session w1)) w1),
       t1 ++ trace_of (poll_loop' n (cookies_of (session w1)) w1))).
  { unfold export. unfold_M. rewrite Hlogin. simpl. rewrite Hh. simpl.
    destruct (poll_loop' n (cookies_of (session w1)) w1) as [[r w2] t2].
    simpl. now rewrite app_nil_r. }
  rewrite Hexport. unfold result_of, world_of, trace_of in *. simpl.
  rewrite filter_app, Hpoll. simpl.
  split; [exact Hr|]. split; [exact Hlen|]. split; [exact Hall|].
  split.
  - intros c w key Hk.
    destruct (export_cycle_effects c w) as (_ & _ & _ & _ & _ & Hp).
    exact (Hp key Hk).
  - intros w. apply login_session.
Qed.

(** The writer takes the items in order, hands each to [execute] once, and
    never ends on an exception. *)
Lemma insert_into_clickhouse_effects (n : nat) (w : World) :
  let run := insert_into_clickhouse env n w in
  result_of run = Ok tt
  /\ executed (trace_of run) = firstn n (queue w)
  /\ queue (world_of run) = skipn n (queue w).
Proof.
  cbv zeta. revert w. induction n as [|n IH]; intros w.
  - unfold result_of, world_of, trace_of. simpl. auto.
  - cbn [insert_into_clickhouse].
    destruct (queue w) as [|data rest] eqn:Hq.
    + unfold result_of, world_of, trace_of. simpl. auto.
    + unfold insert_iteration, queue_get, clickhouse_execute. unfold_M.
      simpl.
      specialize (IH (next_insert (set_queue rest w))).
      simpl in IH. destruct IH as (IHr & IHe & IHq).
      destruct (clickhouse_result env (n_insert w)) as [e|]; simpl;
        destruct (insert_into_clickhouse env n
                    (next_insert (set_queue rest w))) as [[r w2] t2];
        simpl in *; repeat split; auto; now f_equal.
Qed.

(** C4.  When the insert of the dequeued item fails, the turn logs the
    failure and sleeps 5 seconds; the item is gone from the queue and is not
    put back; the writer then goes on with the next item.  Over any number
    of turns each item is handed to [execute] at most once, in queue order,
    and the writer never stops on a failure. *)
Theorem failed_insert_drops_the_item
    (n : nat) (w : World) (data : queue_item) (rest : list queue_item)
    (e : exn)
    (Hqueue : queue w = data :: rest)
    (Hfail : clickhouse_result env (n_insert w) = Some e) :
  let w1 := next_insert (set_queue rest w) in
  let turn :=
    [EvGet data; EvExecute data (Some e);
     EvLog Error "Failed to insert data into ClickHouse" (Some e);
     EvSleep 5] in
  insert_iteration env data rest w = (Ok tt, w1, turn)
  /\ queue w1 = rest
  /\ insert_into_clickhouse env (S n) w
     = (result_of (insert_into_clickhouse env n w1),
        world_of (insert_into_clickhouse env n w1),
        turn ++ trace_of (insert_into_clickhouse env n w1))
  /\ (forall m w',
        result_of (insert_into_clickhouse env m w') = Ok tt
        /\ executed (trace_of (insert_into_clickhouse env m w'))
           = firstn m (queue w')
        /\ queue (world_of (insert_into_clickhouse env m w'))
           = skipn m (queue w')).
Proof.
  cbv zeta.
  assert (Hturn : insert_iteration env data rest w
                  = (Ok tt, next_insert (set_queue rest w),
                     [EvGet data; EvExecute data (Some e);
                      EvLog Error "Failed to insert data into ClickHouse"
                        (Some e);
                      EvSleep 5])).
  { unfold insert_iteration, queue_get, clickhouse_execute. unfold_M.
    simpl. rewrite Hfail. reflexivity. }
  split; [exact Hturn|]. split; [reflexivity|]. split.
  - cbn [insert_into_clickhouse]. rewrite Hqueue.
    unfold bind at 1. rewrite Hturn.
    unfold result_of, world_of, trace_of.
    destruct (insert_into_clickhouse env n
                (next_insert (set_queue rest w))) as [[r w2] t2].
    reflexivity.
  - intros m w'. apply insert_into_clickhouse_effects.
Qed.

End ExporterFacts.

(** ** The theorems at work on scripted runs *)

Example login_known :
  session (world_of (login example_config env_story str_of_scalar
                       initial_world)) = example_session.
Proof. vm_compute. reflexivity. Qed.

(** After the new login of the third turn the stored private key has
    changed, the polls still carry the first uid and private key, and their
    [Hnap_auth] is keyed with the new one. *)
Example reauthentication_keeps_first_cookies :
  let run := export example_config env_story str_of_scalar 4 initial_world in
  let polls := filter is_poll_post (trace_of run) in
  private_key (session (world_of run))
    = JStr "A84D5033514933DA224E3CBBA0B034F7"
  /\ map post_cookies polls
     = repeat (Some [("uid", JStr "CK1");
                     ("PrivateKey", JStr "3A03969985504B95C63B027E6EA7F5AC")])
         4
  /\ map post_hnap_auth polls
     = [Some (generate_hnap_auth 1762250002000 poll_action
                "3A03969985504B95C63B027E6EA7F5AC");
        Some (generate_hnap_auth 1762250003000 poll_action
                "3A03969985504B95C63B027E6EA7F5AC");
        Some (generate_hnap_auth 1762250006000 poll_action
                "A84D5033514933DA224E3CBBA0B034F7");
        Some (generate_hnap_auth 1762250007000 poll_action
                "A84D5033514933DA224E3CBBA0B034F7")]
  /\ length (queue (world_of run)) = 1%nat.
Proof. vm_compute. repeat split; reflexivity. Qed.


Lemma poll_cookies_fixed_at_first_login_witness :
  let first := login example_config env_story str_of_scalar initial_world in
  let run := export example_config env_story str_of_scalar 4 initial_world in
  first = (Ok tt, world_of first, trace_of first)
  /\ length (filter is_poll_post (trace_of run)) = 4%nat
  /\ Forall (fun ev => post_cookies ev
                       = Some [("uid", uid (session (world_of first)));
                               ("PrivateKey",
                                private_key (session (world_of first)))])
       (filter is_poll_post (trace_of run)).
Proof.
  cbv zeta.
  assert (Hfirst :
    login example_config env_story str_of_scalar initial_world
    = (Ok tt,
       world_of (login example_config env_story str_of_scalar initial_world),
       trace_of (login example_config env_story str_of_scalar initial_world)))
    by (vm_compute; reflexivity).
  split; [exact Hfirst|].
  pose proof (poll_cookies_fixed_at_first_login
                example_config env_story str_of_scalar 4 initial_world
                _ _ Hfirst) as H.
  cbv zeta in H. destruct H as (_ & H2 & H3 & _).
  split; assumption.
Defined.

Lemma failed_insert_drops_the_item_witness :
  let w := set_queue [example_item 1; example_item 2] initial_world in
  let run := insert_into_clickhouse env_insert_fails 2 w in
  queue w = [example_item 1; example_item 2]
  /\ clickhouse_result env_insert_fails (n_insert w) = Some ClickHouseError
  /\ trace_of run
     = [EvGet (example_item 1);
        EvExecute (example_item 1) (Some ClickHouseError);
        EvLog Error "Failed to insert data into ClickHouse"
          (Some ClickHouseError);
        EvSleep 5;
        EvGet (example_item 2); EvExecute (example_item 2) None]
  /\ queue (world_of run) = [].
Proof.
  cbv zeta. split; [reflexivity|]. split; [reflexivity|].
  pose proof (failed_insert_drops_the_item
                env_insert_fails 1
                (set_queue [example_item 1; example_item 2] initial_world)
                (example_item 1) [example_item 2] ClickHouseError
                eq_refl eq_refl) as H.
  cbv zeta in H. destruct H as (_ & _ & H3 & _).
  rewrite H3. split; reflexivity.
Defined.

(** C7, as stated, fails on an "OK" answer whose payload does not parse: a
    downstream segment of three fields cannot be unpacked into ten names,
    the cycle logs the [ValueError] and queues nothing. *)
Lemma ok_poll_with_malformed_segment_enqueues_nothing :
  let run := export_cycle example_config env_malformed str_of_scalar
               (cookies_of example_session) logged_in in
  http_reply env_malformed (n_http logged_in) = ReplyJson malformed_status
  /\ combined_result malformed_status = Ok (JStr "OK")
  /\ split channel_separator "1^Locked^QAM256" = ["1^Locked^QAM256"]
  /\ parse_downstream "1^Locked^QAM256" = Err ValueError
  /\ result_of run = Ok tt
  /\ count is_put (trace_of run) = 0%nat
  /\ queue (world_of run) = []
  /\ In (EvLog Error "Failed to update modem status" (Some ValueError))
       (trace_of run).
Proof.
  cbv zeta. repeat (split; [vm_compute; reflexivity|]).
  vm_compute. tauto.
Qed.

(* ================================================================== *)
(** * Part III: startup, invariants of a run, parsers on any input    *)
(* ================================================================== *)


(** ** Startup *)

Lemma int_of_str_error (s : string) (e : exn) :
  int_of_str s = Err e -> e = ValueError.
Proof.
  unfold int_of_str. destruct (read_sign (strip s)) as [neg body].
  destruct (read_digitpart 0 0 body) as [[v [|n]] [|c r]];
    intros H; try discriminate H; now injection H as <-.
Qed.

Lemma integer_setting_Started (environment : environ) (name : string)
    (default minimum : Z) (failure : startup_failure) (n : Z) :
  integer_setting environment name default minimum failure = Started n <->
  accepted_integer environment name default minimum n.
Proof.
  unfold integer_setting, accepted_integer.
  destruct (environment name) as [s|].
  - destruct (int_of_str s) as [m|e] eqn:Hs.
    + destruct (Z.ltb_spec m minimum); split.
      * discriminate.
      * intros [H1 H2]. injection H1 as ->. lia.
      * intros H1. injection H1 as ->. split; [reflexivity | lia].
      * intros [H1 _]. now injection H1 as ->.
    + rewrite (int_of_str_error s e Hs). split; [discriminate|].
      intros [H _]. discriminate H.
  - destruct (Z.ltb_spec default minimum); split.
    + discriminate.
    + intros [-> H2]. lia.
    + intros H1. injection H1 as <-. split; [reflexivity | lia].
    + intros [-> _]. reflexivity.
Qed.

Lemma integer_setting_cases (environment : environ) (name : string)
    (default minimum : Z) (failure : startup_failure) :
  (exists n, integer_setting environment name default minimum failure
             = Started n)
  \/ integer_setting environment name default minimum failure = Exit1 failure.
Proof.
  unfold integer_setting.
  destruct (environment name) as [s|].
  - destruct (int_of_str s) as [m|e] eqn:Hs.
    + destruct (m <? minimum); eauto.
    + rewrite (int_of_str_error s e Hs). auto.
  - destruct (default <? minimum); eauto.
Qed.

Lemma required_variable_Started (environment : environ) (name v : string) :
  required_variable environment name = Started v <->
  environment name = Some v.
Proof.
  unfold required_variable. destruct (environment name); split;
    intros H; try discriminate H; now injection H as ->.
Qed.

(** X1.  Settings that [_load_env_vars] returns are validated: the seven
    required variables are set and are the values stored, the scrape delay
    is what [int] reads from SCRAPE_DELAY (10 when unset) and is at least 1,
    and the queue limit is what [int] reads from CLICKHOUSE_QUEUE_LIMIT
    (1000 when unset) and is at least 25. *)
Theorem load_env_vars_validated (environment : environ) (s : Settings)
    (Hload : load_env_vars environment = Started s) :
  let c := settings_config s in
  environment "MODEM_URL" = Some (modem_url c)
  /\ environment "MODEM_USERNAME" = Some (modem_username c)
  /\ environment "MODEM_PASSWORD" = Some (modem_password c)
  /\ environment "CLICKHOUSE_URL" = Some (clickhouse_url s)
  /\ environment "CLICKHOUSE_USERNAME" = Some (clickhouse_username s)
  /\ environment "CLICKHOUSE_PASSWORD" = Some (clickhouse_password s)
  /\ environment "CLICKHOUSE_DATABASE" = Some (clickhouse_database s)
  /\ modem_name c = optional_variable environment "MODEM_NAME" "MB8600"
  /\ clickhouse_table c
     = optional_variable environment "CLICKHOUSE_TABLE" "docsis"
  /\ accepted_integer environment "SCRAPE_DELAY" 10 1 (scrape_delay c)
  /\ accepted_integer environment "CLICKHOUSE_QUEUE_LIMIT" 1000 25
       (clickhouse_queue_limit s)
  /\ 1 <= scrape_delay c
  /\ 25 <= clickhouse_queue_limit s.
Proof.
  unfold load_env_vars in Hload.
  repeat match type of Hload with
         | startup_bind ?m _ = Started _ =>
             let E := fresh "E" in
             destruct m eqn:E; cbn [startup_bind] in Hload;
             [ | discriminate Hload | discriminate Hload ]
         end.
  injection Hload as <-. cbn.
  apply required_variable_Started in E, E0, E1, E2, E3, E4, E5.
  apply integer_setting_Started in E6, E7.
  repeat split; auto; first [apply E6 | apply E7].
Qed.

Lemma load_env_vars_validated_witness :
  exists s : Settings,
    load_env_vars example_environ = Started s
    /\ scrape_delay (settings_config s) = 30
    /\ clickhouse_queue_limit s = 1000
    /\ 1 <= scrape_delay (settings_config s)
    /\ 25 <= clickhouse_queue_limit s.
Proof.
  eexists. split; [vm_compute; reflexivity|].
  split; [reflexivity|]. split; [reflexivity|].
  pose proof (load_env_vars_validated example_environ _ eq_refl) as H.
  cbv zeta in H. split; apply H.
Defined.

Lemma first_missing_Some (environment : environ) (names : list string)
    (name : string) :
  first_missing environment names = Some name ->
  environment name = None /\ In name names.
Proof.
  induction names as [|n names IH]; simpl; [discriminate|].
  destruct (environment n) eqn:E.
  - intros H. destruct (IH H). auto.
  - intros H. injection H as <-. auto.
Qed.

(** X2.  When a required variable is unset, [_load_env_vars] exits with
    status 1 on the first such variable, in the order MODEM_URL,
    MODEM_USERNAME, MODEM_PASSWORD, CLICKHOUSE_URL, CLICKHOUSE_USERNAME,
    CLICKHOUSE_PASSWORD, CLICKHOUSE_DATABASE, whatever the other variables
    hold (an invalid SCRAPE_DELAY or LOG_LEVEL is not looked at). *)
Theorem load_env_vars_missing_variable (environment : environ) (name : string)
    (Hmissing : first_missing environment required_variables = Some name) :
  load_env_vars environment = Exit1 (MissingVariable name)
  /\ environment name = None.
Proof.
  split; [|now apply first_missing_Some in Hmissing].
  unfold load_env_vars, required_variable.
  unfold required_variables in Hmissing. cbn [first_missing] in Hmissing.
  repeat match type of Hmissing with
         | match environment ?n with _ => _ end = _ =>
             destruct (environment n); cbn [startup_bind];
             [ | now injection Hmissing as <- ]
         end.
  discriminate Hmissing.
Qed.

Lemma load_env_vars_missing_variable_witness :
  first_missing environ_without_password required_variables
  = Some "MODEM_PASSWORD"%string
  /\ load_env_vars environ_without_password
     = Exit1 (MissingVariable "MODEM_PASSWORD").
Proof.
  split; [reflexivity|].
  apply (load_env_vars_missing_variable environ_without_password
           "MODEM_PASSWORD" eq_refl).
Defined.

Lemma log_level_setting_named (environment : environ) :
  log_level_setting environment
  = match level_named
            (upper (optional_variable environment "LOG_LEVEL" "INFO")) with
    | Some l => Started l
    | None => Exit1 InvalidLogLevel
    end.
Proof.
  unfold log_level_setting, level_named.
  repeat match goal with
         | |- context [String.eqb ?a ?b] => destruct (String.eqb a b)
         end; reflexivity.
Qed.

(** X3.  With the required variables set, and plain text (ASCII, of no
    more than 4300 characters) in SCRAPE_DELAY, CLICKHOUSE_QUEUE_LIMIT and
    LOG_LEVEL, [_load_env_vars] never ends on an uncaught exception, and
    its checks run in order: an unacceptable SCRAPE_DELAY exits first, then
    an unacceptable CLICKHOUSE_QUEUE_LIMIT, then a LOG_LEVEL that is not
    one of the five names in any letter case; otherwise the settings are
    returned with those values. *)
Theorem load_env_vars_outcome (environment : environ)
    (Hplain : plain_settings environment = true)
    (Hpresent : first_missing environment required_variables = None) :
  let delay_ok :=
    exists n, accepted_integer environment "SCRAPE_DELAY" 10 1 n in
  let limit_ok :=
    exists n,
      accepted_integer environment "CLICKHOUSE_QUEUE_LIMIT" 1000 25 n in
  let lvl :=
    level_named (upper (optional_variable environment "LOG_LEVEL" "INFO")) in
  (forall e, load_env_vars environment <> Uncaught e)
  /\ (~ delay_ok -> load_env_vars environment = Exit1 InvalidScrapeDelay)
  /\ (delay_ok -> ~ limit_ok ->
      load_env_vars environment = Exit1 InvalidQueueLimit)
  /\ (delay_ok -> limit_ok -> lvl = None ->
      load_env_vars environment = Exit1 InvalidLogLevel)
  /\ (forall n1 n2 l,
        accepted_integer environment "SCRAPE_DELAY" 10 1 n1 ->
        accepted_integer environment "CLICKHOUSE_QUEUE_LIMIT" 1000 25 n2 ->
        lvl = Some l ->
        exists s, load_env_vars environment = Started s
                  /\ scrape_delay (settings_config s) = n1
                  /\ clickhouse_queue_limit s = n2
                  /\ settings_log_level s = l).
Proof.
  cbv zeta.
  unfold required_variables in Hpresent. cbn [first_missing] in Hpresent.
  unfold load_env_vars, required_variable.
  repeat match type of Hpresent with
         | match environment ?n with _ => _ end = _ =>
             destruct (environment n); cbn [startup_bind];
             [ | discriminate Hpresent ]
         end.
  clear Hpresent. rewrite log_level_setting_named.
  assert (Hno1 : forall m,
    integer_setting environment "SCRAPE_DELAY" 10 1 InvalidScrapeDelay
      = Exit1 InvalidScrapeDelay ->
    ~ accepted_integer environment "SCRAPE_DELAY" 10 1 m).
  { intros m H A. apply integer_setting_Started
                    with (failure := InvalidScrapeDelay) in A.
    rewrite H in A. discriminate A. }
  assert (Hno2 : forall m,
    integer_setting environment "CLICKHOUSE_QUEUE_LIMIT" 1000 25
      InvalidQueueLimit = Exit1 InvalidQueueLimit ->
    ~ accepted_integer environment "CLICKHOUSE_QUEUE_LIMIT" 1000 25 m).
  { intros m H A. apply integer_setting_Started
                    with (failure := InvalidQueueLimit) in A.
    rewrite H in A. discriminate A. }
  destruct (integer_setting_cases environment "SCRAPE_DELAY" 10 1
              InvalidScrapeDelay) as [[n1 H1] | H1].
  2: { rewrite H1. cbn [startup_bind].
       repeat split; try discriminate; auto.
       - intros [m A] _. elim (Hno1 m H1 A).
       - intros [m A] _ _. elim (Hno1 m H1 A).
       - intros m1 m2 l' A _ _. elim (Hno1 m1 H1 A). }
  assert (A1 := proj1 (integer_setting_Started _ _ _ _ _ _) H1).
  rewrite H1. cbn [startup_bind].
  destruct (integer_setting_cases environment "CLICKHOUSE_QUEUE_LIMIT"
              1000 25 InvalidQueueLimit) as [[n2 H2] | H2].
  2: { rewrite H2. cbn [startup_bind].
       repeat split; try discriminate; auto.
       - intros Hno. elim Hno. eauto.
       - intros _ [m A] _. elim (Hno2 m H2 A).
       - intros m1 m2 l' _ A _. elim (Hno2 m2 H2 A). }
  assert (A2 := proj1 (integer_setting_Started _ _ _ _ _ _) H2).
  rewrite H2. cbn [startup_bind].
  destruct (level_named _) as [l|]; cbn [startup_bind];
    repeat split; try discriminate; auto;
    try (intros Hno; elim Hno; eauto; fail);
    try (intros _ Hno; elim Hno; eauto; fail).
  intros m1 m2 l' B1 B2 Hl. injection Hl as <-.
  apply integer_setting_Started with (failure := InvalidScrapeDelay) in B1.
  apply integer_setting_Started with (failure := InvalidQueueLimit) in B2.
  rewrite H1 in B1. rewrite H2 in B2.
  injection B1 as <-. injection B2 as <-.
  eexists. split; [reflexivity|]. auto.
Qed.

Lemma load_env_vars_outcome_witness :
  plain_settings example_environ = true
  /\ first_missing example_environ required_variables = None
  /\ accepted_integer example_environ "SCRAPE_DELAY" 10 1 30
  /\ accepted_integer example_environ "CLICKHOUSE_QUEUE_LIMIT" 1000 25 1000
  /\ exists s, load_env_vars example_environ = Started s
               /\ scrape_delay (settings_config s) = 30
               /\ clickhouse_queue_limit s = 1000
               /\ settings_log_level s = LevelDebug.
Proof.
  assert (A1 : accepted_integer example_environ "SCRAPE_DELAY" 10 1 30)
    by (split; [reflexivity | lia]).
  assert (A2 : accepted_integer example_environ "CLICKHOUSE_QUEUE_LIMIT"
                 1000 25 1000)
    by (split; [reflexivity | lia]).
  split; [reflexivity|].
  split; [reflexivity|]. split; [exact A1|]. split; [exact A2|].
  pose proof (load_env_vars_outcome example_environ eq_refl eq_refl) as H.
  cbv zeta in H. destruct H as (_ & _ & _ & _ & H).
  exact (H 30 1000 LevelDebug A1 A2 eq_refl).
Defined.


(** ** More on [login] *)

Section LoginFacts.

Variable cfg : Config.
Variable env : Env.
Variable str_of_json : json -> string.

#[local] Abbreviation login_run := (login cfg env str_of_json).

(** X4.  Once the challenge request is answered with a [str] challenge, a
    cookie and a public key, [login()] stores the new session (challenge,
    cookie, public key, derived private key and login password, and the
    header of the second request) before it sends the second request, with
    the new uid and private key as cookies and the derived password in the
    body; the session stays stored whatever that request gives.  [login()]
    returns only if its answer has the result "OK", and raises otherwise. *)
Theorem login_stores_session_before_result
    (w : World) (j : json) (ch : string) (ck pk : json)
    (Hreply : http_reply env (n_http w) = ReplyJson j)
    (Hch : getitem2 j "LoginResponse" "Challenge" = Ok (JStr ch))
    (Hck : getitem2 j "LoginResponse" "Cookie" = Ok ck)
    (Hpk : getitem2 j "LoginResponse" "PublicKey" = Ok pk) :
  let run := login_run w in
  let key := generate_private_key (modem_password cfg)
               (format_json str_of_json pk) ch in
  let password := generate_login_password key ch in
  let auth1 := generate_hnap_auth (time_ms env (n_time w)) "Login"
                 withoutloginkey in
  let auth2 := generate_hnap_auth (time_ms env (S (n_time w))) "Login" key in
  let uri := (hnap_uri_prefix ++ "Login")%string in
  session (world_of run)
  = {| challenge := JStr ch; uid := ck; public_key := pk;
       private_key := JStr key; login_password := JStr password;
       hnap_auth := Some auth2 |}
  /\ n_http (world_of run) = S (S (n_http w))
  /\ n_time (world_of run) = S (S (n_time w))
  /\ (exists rest,
        trace_of run
        = [EvLogin;
           EvTime (time_ms env (n_time w));
           EvPost (hnap_url cfg) []
             [("Hnap_auth", auth1); ("Soapaction", uri)]
             (login_body cfg "request" "");
           EvTime (time_ms env (S (n_time w)));
           EvPost (hnap_url cfg) [("uid", ck); ("PrivateKey", JStr key)]
             [("Hnap_auth", auth2); ("Soapaction", uri)]
             (login_body cfg "login" password)]
          ++ rest
        /\ (rest = [] \/ rest = [EvLog Info "Logged in" None]))
  /\ result_of run
     = match http_reply env (S (n_http w)) with
       | ReplyError e => Err e
       | ReplyJson j2 =>
           match getitem2 j2 "LoginResponse" "LoginResult" with
           | Err e => Err e
           | Ok res => if is_OK res then Ok tt else Err InvalidCredentials
           end
       end.
Proof.
  cbv zeta. unfold login, generate_private_key_of,
    generate_login_password_of. unfold_M. cbv zeta. simpl.
  rewrite Hreply. simpl. rewrite Hch. simpl. rewrite Hck. simpl.
  rewrite Hpk. simpl.
  destruct (http_reply env (S (n_http w))) as [e|j2]; simpl.
  - repeat split; eauto.
  - destruct (getitem2 j2 "LoginResponse" "LoginResult") as [res|e]; simpl.
    + destruct (is_OK res); simpl; repeat split; eauto.
    + repeat split; eauto.
Qed.

(** X5.  When the challenge request fails, or its answer lacks the challenge,
    the cookie or the public key, or the challenge is not a [str],
    [login()] raises after that one request: the stored session is left as
    it was and no second request is sent. *)
Theorem login_challenge_failure_leaves_session (w : World)
    (Hbad : forall j ch ck pk,
        http_reply env (n_http w) = ReplyJson j ->
        getitem2 j "LoginResponse" "Challenge" = Ok (JStr ch) ->
        getitem2 j "LoginResponse" "Cookie" = Ok ck ->
        getitem2 j "LoginResponse" "PublicKey" = Ok pk ->
        False) :
  let run := login_run w in
  (exists e, result_of run = Err e)
  /\ session (world_of run) = session w
  /\ n_http (world_of run) = S (n_http w)
  /\ trace_of run
     = [EvLogin;
        EvTime (time_ms env (n_time w));
        EvPost (hnap_url cfg) []
          [("Hnap_auth",
            generate_hnap_auth (time_ms env (n_time w)) "Login"
              withoutloginkey);
           ("Soapaction", (hnap_uri_prefix ++ "Login")%string)]
          (login_body cfg "request" "")].
Proof.
  cbv zeta. unfold login, generate_private_key_of,
    generate_login_password_of. unfold_M. cbv zeta. simpl.
  destruct (http_reply env (n_http w)) as [e|j]; simpl;
    [repeat split; eauto|].
  specialize (Hbad j).
  destruct (getitem2 j "LoginResponse" "Challenge") as [c|e]; simpl;
    [|repeat split; eauto].
  destruct (getitem2 j "LoginResponse" "Cookie") as [ck|e]; simpl;
    [|repeat split; eauto].
  destruct (getitem2 j "LoginResponse" "PublicKey") as [pk|e]; simpl;
    [|repeat split; eauto].
  destruct c; simpl; try (repeat split; eauto; fail).
  elim (Hbad _ _ _ eq_refl eq_refl eq_refl eq_refl).
Qed.

End LoginFacts.

Lemma login_stores_session_before_result_witness :
  let run := login example_config
               (scripted [challenge_reply "CH2" "CK2" "PK2";
                          login_reply "FAILED"] [])
               str_of_scalar logged_in in
  result_of run = Err InvalidCredentials
  /\ session logged_in = example_session
  /\ private_key (session (world_of run))
     = JStr (generate_private_key "motorola" "PK2" "CH2")
  /\ uid (session (world_of run)) = JStr "CK2".
Proof.
  cbv zeta.
  pose proof (login_stores_session_before_result
                example_config
                (scripted [challenge_reply "CH2" "CK2" "PK2";
                           login_reply "FAILED"] [])
                str_of_scalar logged_in _ "CH2" (JStr "CK2") (JStr "PK2")
                eq_refl eq_refl eq_refl eq_refl) as H.
  cbv zeta in H. destruct H as (Hs & _ & _ & _ & Hr).
  split; [exact Hr|]. split; [reflexivity|]. rewrite Hs. split; reflexivity.
Defined.

Lemma login_challenge_failure_leaves_session_witness :
  let run := login example_config env_down str_of_scalar logged_in in
  http_reply env_down (n_http logged_in) = ReplyError ClientError
  /\ result_of run = Err ClientError
  /\ session (world_of run) = example_session.
Proof.
  cbv zeta. split; [reflexivity|]. split; [reflexivity|].
  assert (Hbad : forall j (ch : string) (ck pk : json),
            http_reply env_down (n_http logged_in) = ReplyJson j ->
            getitem2 j "LoginResponse" "Challenge" = Ok (JStr ch) ->
            getitem2 j "LoginResponse" "Cookie" = Ok ck ->
            getitem2 j "LoginResponse" "PublicKey" = Ok pk ->
            False)
    by (intros j ch ck pk H; discriminate H).
  pose proof (login_challenge_failure_leaves_session
                example_config env_down str_of_scalar logged_in Hbad) as H.
  cbv zeta in H. destruct H as (_ & Hs & _). exact Hs.
Defined.


(** ** Run-wide properties of [export] *)

Lemma prefix_app (s t : string) : prefix s (s ++ t) = true.
Proof.
  induction s as [|c s IH]; simpl; [now destruct t|].
  destruct (ascii_dec c c); [exact IH | congruence].
Qed.

(** A request carrying the header [generate_hnap_auth] made at a reading is
    signed for that reading. *)
Lemma request_signed_generated (url : string) (ms : Z) (action key : string)
    (uri : string) :
  uri = (hnap_uri_prefix ++ action)%string ->
  request_signed url (Some ms) url
    [("Hnap_auth", generate_hnap_auth ms action key); ("Soapaction", uri)]
  = true.
Proof.
  intros ->.
  pose proof (generate_hnap_auth_parts ms action key) as H.
  cbv zeta in H. destruct H as (_ & Hshape & Hsuffix).
  unfold request_signed, header. rewrite !String.eqb_refl.
  change (String.eqb "Soapaction" "Hnap_auth") with false.
  cbv iota. rewrite Hshape, Hsuffix. unfold hnap_timestamp.
  rewrite Z.eqb_refl, prefix_app. reflexivity.
Qed.

Lemma signed_after_app (url : string) (now : option Z) (t1 t2 : list event) :
  signed_after url now t1 = true ->
  (forall now', signed_after url now' t2 = true) ->
  signed_after url now (t1 ++ t2) = true.
Proof.
  revert now. induction t1 as [|ev t1 IH]; intros now H1 H2; simpl.
  - apply H2.
  - destruct ev; simpl in *; auto.
    apply andb_true_iff in H1 as [Ha Hb]. rewrite Ha. simpl. auto.
Qed.

Lemma slept_app (t1 t2 : list event) :
  slept (t1 ++ t2) = slept t1 + slept t2.
Proof.
  induction t1 as [|ev t1 IH]; simpl; [reflexivity|].
  destruct ev; rewrite ?IH; lia.
Qed.

Lemma polls_spaced_app (d : Z) (b : bool) (t1 t2 : list event) :
  polls_spaced d b (t1 ++ t2)
  = polls_spaced d b t1 && polls_spaced d (waited_after d b t1) t2.
Proof.
  revert b. induction t1 as [|ev t1 IH]; intros b; simpl; [reflexivity|].
  destruct (is_poll_post ev).
  - rewrite IH. now rewrite andb_assoc.
  - destruct ev; apply IH.
Qed.

Lemma waited_after_app (d : Z) (b : bool) (t1 t2 : list event) :
  waited_after d b (t1 ++ t2) = waited_after d (waited_after d b t1) t2.
Proof.
  revert b. induction t1 as [|ev t1 IH]; intros b; simpl; [reflexivity|].
  destruct (is_poll_post ev); [apply IH|]. destruct ev; apply IH.
Qed.

(** A trace without status poll and without sleep changes nothing to the
    spacing. *)
Lemma quiet_trace_spacing (d : Z) (b : bool) (t : list event) :
  count is_poll_post t = 0%nat ->
  count is_sleep t = 0%nat ->
  polls_spaced d b t = true /\ waited_after d b t = b.
Proof.
  unfold count. revert b. induction t as [|ev t IH]; intros b; simpl;
    [auto|].
  destruct (is_poll_post ev); simpl; [discriminate|].
  destruct ev; simpl; try discriminate; auto.
Qed.

Lemma is_poll_post_poll (u : string) (c : cookies) (auth : string)
    (body : json) :
  is_poll_post (EvPost u c [("Hnap_auth", auth);
                            ("Soapaction",
                             (hnap_uri_prefix ++ "GetMultipleHNAPs")%string)]
                  body) = true.
Proof. reflexivity. Qed.

Lemma run_result {A : Type} (r : result A) (w : World) (t : list event) :
  result_of (r, w, t) = r.
Proof. reflexivity. Qed.

Lemma run_world {A : Type} (r : result A) (w : World) (t : list event) :
  world_of (r, w, t) = w.
Proof. reflexivity. Qed.

Lemma run_trace {A : Type} (r : result A) (w : World) (t : list event) :
  trace_of (r, w, t) = t.
Proof. reflexivity. Qed.

Section ExportInvariants.

Variable cfg : Config.
Variable env : Env.
Variable str_of_json : json -> string.

#[local] Abbreviation login_ := (login cfg env str_of_json).
#[local] Abbreviation export_cycle_ := (export_cycle cfg env str_of_json).
#[local] Abbreviation poll_loop_ := (poll_loop cfg env str_of_json).
#[local] Abbreviation export_ := (export cfg env str_of_json).
#[local] Abbreviation url := (hnap_url cfg).
#[local] Abbreviation delay_ := (scrape_delay cfg).

(** The two shapes of the trace of [login()]: the challenge request alone,
    or both requests and, on success, the log line. *)
Lemma login_trace (w : World) :
  let run := login_ w in
  let uri := (hnap_uri_prefix ++ "Login")%string in
  let first :=
    [EvLogin;
     EvTime (time_ms env (n_time w));
     EvPost url []
       [("Hnap_auth",
         generate_hnap_auth (time_ms env (n_time w)) "Login" withoutloginkey);
        ("Soapaction", uri)]
       (login_body cfg "request" "")] in
  trace_of run = first
  \/ exists (key password : string) (ck : json) (rest : list event),
       trace_of run
       = first
         ++ [EvTime (time_ms env (S (n_time w)));
             EvPost url [("uid", ck); ("PrivateKey", JStr key)]
               [("Hnap_auth",
                 generate_hnap_auth (time_ms env (S (n_time w))) "Login" key);
                ("Soapaction", uri)]
               (login_body cfg "login" password)]
         ++ rest
       /\ (rest = [] \/ rest = [EvLog Info "Logged in" None]).
Proof.
  unfold login, generate_private_key_of, generate_login_password_of.
  unfold_M. cbv zeta.
  repeat (break_inner; simpl); auto;
    right; repeat match goal with
                  | H : Ok _ = Ok _ |- _ => inversion H; subst; clear H
                  | H : Err _ = Ok _ |- _ => discriminate H
                  end;
    do 4 eexists; (split; [reflexivity|]); auto.
Qed.

Lemma login_signed (w : World) (now : option Z) :
  signed_after url now (trace_of (login_ w)) = true.
Proof.
  destruct (login_trace w) as [H | (key & password & ck & rest & H & Hrest)];
    cbv zeta in H; rewrite H; cbn [signed_after app];
    rewrite ?request_signed_generated by reflexivity;
    [reflexivity|].
  destruct Hrest as [-> | ->]; reflexivity.
Qed.

Lemma login_quiet (w : World) :
  count is_sleep (trace_of (login_ w)) = 0%nat
  /\ slept (trace_of (login_ w)) = 0.
Proof.
  destruct (login_trace w) as [H | (key & password & ck & rest & H & Hrest)];
    cbv zeta in H; rewrite H; [split; reflexivity|].
  destruct Hrest as [-> | ->]; split; reflexivity.
Qed.

(** The three ways a turn of the loop can go. *)
Lemma export_cycle_cases (modem_cookies : cookies) (w : World) :
  let run := export_cycle_ modem_cookies w in
  let perf := EvPerfCounter (perf_counter env (n_perf w)) in
  let now := EvTime (time_ms env (n_time w)) in
  (exists (pre : list event) (e : exn),
      session (world_of run) = session w
      /\ queue (world_of run) = queue w
      /\ trace_of run = pre ++ cycle_tail cfg (Err e)
      /\ (pre = [perf; now]
          \/ exists key,
               pre = [perf; now; poll_post_event cfg env modem_cookies w key]))
  \/ (exists (key : string) (j res : json),
        private_key (session w) = JStr key
        /\ http_reply env (n_http w) = ReplyJson j
        /\ combined_result j = Ok res).
Proof.
  cbv zeta.
  destruct (private_key (session w)) as [ | ? | ? | ? | key | ? | ? ] eqn:Hkey;
    try (left; unfold export_cycle, cycle_body; unfold_M; simpl;
         rewrite Hkey; simpl; exists
           [EvPerfCounter (perf_counter env (n_perf w));
            EvTime (time_ms env (n_time w))], AttributeError;
         repeat split; auto; fail).
  destruct (http_reply env (n_http w)) as [e|j] eqn:Hreply.
  - left. unfold export_cycle, cycle_body, poll_post_event. unfold_M. simpl.
    rewrite Hkey. simpl. rewrite Hreply. simpl.
    exists [EvPerfCounter (perf_counter env (n_perf w));
            EvTime (time_ms env (n_time w));
            poll_post_event cfg env modem_cookies w key], e.
    repeat split; auto. right. exists key. reflexivity.
  - destruct (combined_result j) as [res|e] eqn:Hres.
    + right. exists key, j, res. auto.
    + left. unfold export_cycle, cycle_body, poll_post_event. unfold_M. simpl.
      rewrite Hkey. simpl. rewrite Hreply, Hres. simpl.
      exists [EvPerfCounter (perf_counter env (n_perf w));
              EvTime (time_ms env (n_time w));
              poll_post_event cfg env modem_cookies w key], e.
      repeat split; auto. right. exists key. reflexivity.
Qed.

Lemma poll_signed (modem_cookies : cookies) (w : World) (key : string) :
  signed_after url None
    [EvPerfCounter (perf_counter env (n_perf w));
     EvTime (time_ms env (n_time w));
     poll_post_event cfg env modem_cookies w key] = true.
Proof.
  unfold poll_post_event, poll_headers. cbn [signed_after].
  now rewrite request_signed_generated.
Qed.

Lemma export_cycle_signed (modem_cookies : cookies) (w : World)
    (now : option Z) :
  signed_after url now (trace_of (export_cycle_ modem_cookies w)) = true.
Proof.
  destruct (export_cycle_cases modem_cookies w)
    as [(pre & e & _ & _ & Ht & Hpre) | (key & j & res & Hkey & Hreply & Hres)];
    cbv zeta in *.
  - rewrite Ht. destruct Hpre as [-> | (key & ->)].
    + reflexivity.
    + unfold poll_post_event, poll_headers. cbn [signed_after app].
      now rewrite request_signed_generated.
  - destruct (is_OK res) eqn:Hok.
    + rewrite (ok_poll_cycle cfg env str_of_json modem_cookies w key j res
                 Hkey Hreply Hres Hok).
      cbv zeta. unfold poll_post_event, poll_headers.
      destruct (build_row cfg j _ _) as [row|e]; unfold trace_of;
        cbn [snd signed_after app];
        now rewrite request_signed_generated.
    + rewrite (failed_poll_cycle cfg env str_of_json modem_cookies w key j res
                 Hkey Hreply Hres Hok).
      unfold trace_of at 1. cbn [snd].
      unfold poll_post_event, poll_headers. cbn [signed_after app].
      rewrite request_signed_generated by reflexivity. cbn [andb].
      apply signed_after_app; [apply login_signed|].
      intros now'. unfold cycle_tail.
      destruct (result_of (login_ (after_poll w))); reflexivity.
Qed.

Lemma poll_loop_signed (n : nat) (modem_cookies : cookies) (w : World)
    (now : option Z) :
  signed_after url now (trace_of (poll_loop_ n modem_cookies w)) = true.
Proof.
  revert w now. induction n as [|n IH]; intros w now; [reflexivity|].
  cbn [poll_loop]. unfold bind.
  pose proof (export_cycle_signed modem_cookies w) as Hc.
  pose proof (export_cycle_effects cfg env str_of_json modem_cookies w) as He.
  cbv zeta in He. destruct He as (Hr & _).
  unfold result_of, trace_of in *.
  destruct (export_cycle_ modem_cookies w) as [[r w1] t1].
  simpl in Hr, Hc. subst r.
  specialize (IH w1). unfold trace_of in IH.
  destruct (poll_loop_ n modem_cookies w1) as [[r2 w2] t2]. simpl in *.
  apply signed_after_app; auto.
Qed.

(** [export()] is the first login followed, when it returned, by the loop
    with the cookies of the session it stored. *)
Lemma export_unfold (n : nat) (w : World) :
  let first := login_ w in
  export_ n w
  = match result_of first with
    | Ok _ =>
        let loop := poll_loop_ n (cookies_of (session (world_of first)))
                      (world_of first) in
        (result_of loop, world_of loop, trace_of first ++ trace_of loop)
    | Err e =>
        (Ok tt, set_stop (world_of first),
         trace_of first ++ [EvLog Critical "Login failed" (Some e); EvStop])
    end.
Proof.
  cbv zeta. unfold export, try_except. unfold_M.
  pose proof (login_Ok_session cfg env str_of_json w) as Hok.
  destruct (login_ w) as [[[[]|e] w1] t1]; simpl.
  - destruct (Hok w1 t1 eq_refl) as (_ & h & ->). simpl.
    destruct (poll_loop_ n (cookies_of (session w1)) w1) as [[r2 w2] t2].
    simpl. now rewrite app_nil_r.
  - now rewrite ?app_nil_r.
Qed.


(** How long a turn sleeps, and that it sleeps after its poll. *)
Lemma export_cycle_sleeps (modem_cookies : cookies) (w : World) :
  let t := trace_of (export_cycle_ modem_cookies w) in
  slept t = (if (count is_put t =? 0)%nat then 2 * delay_ else delay_)
  /\ (forall b, waited_after delay_ b t = true)
  /\ polls_spaced delay_ true t = true.
Proof.
  cbv zeta.
  destruct (export_cycle_cases modem_cookies w)
    as [(pre & e & _ & _ & Ht & Hpre) | (key & j & res & Hkey & Hreply & Hres)];
    cbv zeta in *.
  - rewrite Ht.
    destruct Hpre as [-> | (key & ->)];
      unfold poll_post_event, poll_headers, poll_action;
      cbn [app cycle_tail slept count filter is_put length Nat.eqb
           polls_spaced waited_after is_sleep];
      rewrite ?is_poll_post_poll; cbn [is_poll_post polls_spaced waited_after];
      rewrite Z.eqb_refl, ?orb_true_r; repeat split; auto; lia.
  - destruct (is_OK res) eqn:Hok.
    + rewrite (ok_poll_cycle cfg env str_of_json modem_cookies w key j res
                 Hkey Hreply Hres Hok).
      cbv zeta. unfold poll_post_event, poll_headers, poll_action.
      destruct (build_row cfg j _ _) as [row|e]; unfold trace_of;
        cbn [snd app slept count filter is_put length Nat.eqb
             polls_spaced waited_after];
        rewrite ?is_poll_post_poll;
        cbn [is_poll_post polls_spaced waited_after];
        rewrite Z.eqb_refl, ?orb_true_r; repeat split; auto; lia.
    + rewrite (failed_poll_cycle cfg env str_of_json modem_cookies w key j res
                 Hkey Hreply Hres Hok).
      destruct (login_effects cfg env str_of_json (after_poll w))
        as (_ & _ & _ & _ & _ & _ & Hput & Hpoll & _).
      destruct (login_quiet (after_poll w)) as (Hsl & Hslept).
      cbv zeta in *.
      set (lt := trace_of (login_ (after_poll w))) in *.
      set (tail := cycle_tail cfg (result_of (login_ (after_poll w)))).
      unfold trace_of. cbn [snd].
      assert (Htail : slept tail = 2 * delay_
                      /\ count is_put tail = 0%nat
                      /\ forall b, polls_spaced delay_ b tail = true
                                   /\ waited_after delay_ b tail = true).
      { unfold tail, cycle_tail.
        destruct (result_of (login_ (after_poll w)));
          cbn [slept count filter is_put length polls_spaced waited_after
               is_poll_post];
          rewrite Z.eqb_refl; repeat split; rewrite ?orb_true_r; auto; lia. }
      destruct Htail as (Hts & Htp & Htw).
      destruct (quiet_trace_spacing delay_ false lt Hpoll Hsl) as (Hq1 & Hq2).
      unfold poll_post_event, poll_headers, poll_action.
      repeat split.
      * cbn [app slept]. rewrite slept_app, Hslept, Hts.
        change (count is_put (?a :: ?b :: ?c :: ?d :: ?l))
          with (count is_put l).
        rewrite count_app, Hput, Htp. simpl. lia.
      * intros b. cbn [app waited_after]. rewrite is_poll_post_poll.
        cbn [is_poll_post waited_after].
        rewrite waited_after_app. apply Htw.
      * cbn [app polls_spaced]. rewrite is_poll_post_poll.
        cbn [is_poll_post polls_spaced andb].
        rewrite polls_spaced_app, Hq1, Hq2. apply Htw.
Qed.

(** Over its turns the loop sleeps the delay twice per turn, less once per
    row it has queued. *)
Lemma poll_loop_slept (n : nat) (modem_cookies : cookies) (w : World) :
  let t := trace_of (poll_loop_ n modem_cookies w) in
  slept t = delay_ * (2 * Z.of_nat n - Z.of_nat (count is_put t)).
Proof.
  cbv zeta. revert w. induction n as [|n IH]; intros w.
  - unfold trace_of. simpl. lia.
  - cbn [poll_loop]. unfold bind.
    destruct (export_cycle_sleeps modem_cookies w) as (Hs & _).
    destruct (export_cycle_effects cfg env str_of_json modem_cookies w)
      as (Hr & _ & _ & Hput & _).
    cbv zeta in *. unfold result_of, trace_of in *.
    destruct (export_cycle_ modem_cookies w) as [[r w1] t1].
    cbn [fst snd] in *. subst r.
    specialize (IH w1).
    destruct (poll_loop_ n modem_cookies w1) as [[r2 w2] t2].
    cbn [fst snd] in *.
    rewrite slept_app, count_app, Hs, IH.
    destruct (count is_put t1) as [|[|c1]]; cbn [Nat.eqb]; lia.
Qed.

Lemma poll_loop_spaced (n : nat) (modem_cookies : cookies) (w : World) :
  polls_spaced delay_ true (trace_of (poll_loop_ n modem_cookies w)) = true.
Proof.
  revert w. induction n as [|n IH]; intros w; [reflexivity|].
  cbn [poll_loop]. unfold bind.
  destruct (export_cycle_sleeps modem_cookies w) as (_ & Hw & Hp).
  pose proof (export_cycle_effects cfg env str_of_json modem_cookies w) as He.
  cbv zeta in *. destruct He as (Hr & _).
  unfold result_of, trace_of in *.
  destruct (export_cycle_ modem_cookies w) as [[r w1] t1].
  simpl in Hr, Hw, Hp. subst r.
  specialize (IH w1).
  destruct (poll_loop_ n modem_cookies w1) as [[r2 w2] t2]. simpl in *.
  now rewrite polls_spaced_app, Hp, Hw.
Qed.

(** X8.  In a run of [export()] no status poll is sent before the exporter
    has slept the configured delay since the poll before it. *)
Theorem polls_are_spaced_by_the_delay (n : nat) (w : World) :
  polls_spaced (scrape_delay cfg) true (trace_of (export_ n w)) = true.
Proof.
  pose proof (export_unfold n w) as Hrun. cbv zeta in Hrun. rewrite Hrun.
  destruct (login_effects cfg env str_of_json w)
    as (_ & _ & _ & _ & _ & _ & _ & Hpoll & _).
  destruct (login_quiet w) as (Hsl & _). cbv zeta in Hpoll.
  destruct (quiet_trace_spacing delay_ true _ Hpoll Hsl) as (Hq1 & Hq2).
  destruct (result_of (login_ w)) as [[]|e]; cbv beta iota zeta;
    rewrite run_trace, polls_spaced_app, Hq1, Hq2.
  - apply poll_loop_spaced.
  - reflexivity.
Qed.


(** What a turn adds to the queue. *)
Lemma export_cycle_queue (modem_cookies : cookies) (w : World) :
  let run := export_cycle_ modem_cookies w in
  exists added : list queue_item,
    queue (world_of run) = queue w ++ added
    /\ filter is_put (trace_of run) = map EvPut added
    /\ (length added <= 1)%nat
    /\ forallb (queued_by cfg) added = true.
Proof.
  cbv zeta.
  destruct (export_cycle_cases modem_cookies w)
    as [(pre & e & _ & Hq & Ht & Hpre) | (key & j & res & Hkey & Hreply & Hres)];
    cbv zeta in *.
  - exists []. rewrite Hq, Ht, app_nil_r.
    destruct Hpre as [-> | (key & ->)]; repeat split; auto.
  - destruct (is_OK res) eqn:Hok.
    + rewrite (ok_poll_cycle cfg env str_of_json modem_cookies w key j res
                 Hkey Hreply Hres Hok).
      cbv zeta.
      destruct (build_row cfg j _ _) as [row|e] eqn:Hrow.
      * exists [(insert_statement cfg, [row])].
        unfold world_of, trace_of. cbn [fst snd].
        repeat split; auto.
        unfold queued_by, forallb. cbn [fst snd].
        assert (Hname : row_modem_name row = modem_name cfg
                        /\ row_model row = "MB8600"%string).
        { clear - Hrow. unfold build_row in Hrow.
          repeat match type of Hrow with
                 | rbind ?r _ = Ok _ =>
                     destruct r; cbn [rbind] in Hrow; [|discriminate Hrow]
                 end.
          injection Hrow as <-. split; reflexivity. }
        destruct Hname as [-> ->]. now rewrite !String.eqb_refl.
      * exists []. unfold world_of, trace_of. cbn [fst snd].
        rewrite app_nil_r. repeat split; auto.
    + rewrite (failed_poll_cycle cfg env str_of_json modem_cookies w key j res
                 Hkey Hreply Hres Hok).
      destruct (login_effects cfg env str_of_json (after_poll w))
        as (Hq & _ & _ & _ & _ & _ & Hput & _).
      cbv zeta in *. exists [].
      rewrite run_world, run_trace, Hq, app_nil_r. repeat split; auto.
      unfold poll_post_event. cbn [app filter is_put]. rewrite filter_app.
      rewrite (count_zero_filter _ _ Hput).
      unfold cycle_tail.
      destruct (result_of (login_ (after_poll w))); reflexivity.
Qed.

Lemma poll_loop_queue (n : nat) (modem_cookies : cookies) (w : World) :
  let run := poll_loop_ n modem_cookies w in
  exists added : list queue_item,
    queue (world_of run) = queue w ++ added
    /\ filter is_put (trace_of run) = map EvPut added
    /\ (length added <= n)%nat
    /\ forallb (queued_by cfg) added = true.
Proof.
  cbv zeta. revert w. induction n as [|n IH]; intros w.
  - exists []. unfold world_of, trace_of. simpl. rewrite app_nil_r. auto.
  - cbn [poll_loop]. unfold bind.
    destruct (export_cycle_queue modem_cookies w)
      as (a1 & Hq1 & Hp1 & Hl1 & Hf1).
    pose proof (export_cycle_effects cfg env str_of_json modem_cookies w) as He.
    cbv zeta in *. destruct He as (Hr & _).
    unfold result_of, world_of, trace_of in *.
    destruct (export_cycle_ modem_cookies w) as [[r w1] t1].
    simpl in Hr, Hq1, Hp1. subst r.
    destruct (IH w1) as (a2 & Hq2 & Hp2 & Hl2 & Hf2).
    destruct (poll_loop_ n modem_cookies w1) as [[r2 w2] t2]. simpl in *.
    exists (a1 ++ a2).
    rewrite Hq2, Hq1, app_assoc, filter_app, Hp1, Hp2, map_app, length_app,
      forallb_app, Hf1, Hf2.
    repeat split; auto. lia.
Qed.

(** X9.  [export()] only appends to the queue: after any number of turns
    the queue is the one it started with followed by the items it has put,
    in the order of the puts, at most one per turn; each of them is the
    INSERT statement of the configured table with a single row, carrying
    the configured modem name and the model "MB8600". *)
Theorem export_only_appends_single_rows (n : nat) (w : World) :
  let run := export_ n w in
  exists added : list queue_item,
    queue (world_of run) = queue w ++ added
    /\ filter is_put (trace_of run) = map EvPut added
    /\ (length added <= n)%nat
    /\ forallb (queued_by cfg) added = true.
Proof.
  cbv zeta. unfold export, try_except. unfold_M.
  destruct (login_effects cfg env str_of_json w)
    as (Hq & _ & _ & _ & _ & _ & Hput & _).
  cbv zeta in *. apply count_zero_filter in Hput.
  unfold world_of, trace_of in *.
  destruct (login_ w) as [[[[]|e] w1] t1]; simpl in *.
  - destruct (hnap_auth (session w1)); simpl.
    + destruct (poll_loop_queue n (cookies_of (session w1)) w1)
        as (added & Hq2 & Hp2 & Hl2 & Hf2).
      cbv zeta in *. unfold world_of, trace_of in *.
      destruct (poll_loop_ n (cookies_of (session w1)) w1) as [[r2 w2] t2].
      simpl in *. exists added.
      rewrite Hq2, Hq, app_nil_r, filter_app, Hput, Hp2. auto.
    + exists []. rewrite !app_nil_r, Hq, Hput. repeat split; auto. simpl; lia.
  - exists []. rewrite ?app_nil_r, Hq, filter_app, Hput.
    repeat split; auto. simpl; lia.
Qed.

(** What [login()] leaves in the session: what was there, or keys derived
    from the stored challenge and public key. *)
Lemma login_keeps_session_derived (w : World) :
  let s := session (world_of (login_ w)) in
  s = session w
  \/ (session_derived (modem_password cfg) str_of_json s
      /\ key_shape (private_key s) = true
      /\ key_shape (login_password s) = true).
Proof.
  cbv zeta.
  destruct (login_session cfg env str_of_json w)
    as [H | (ch & ck & pk & j & _ & _ & _ & _ & H)]; [now left|].
  right. cbv zeta in H. rewrite H. cbn [private_key login_password].
  split; [exists ch; repeat split|].
  unfold key_shape, generate_private_key, generate_login_password.
  rewrite !length_upper_hexdigest. unfold hmac_md5_hexdigest.
  rewrite !upper_hex_of_bytes. auto.
Qed.

Lemma export_cycle_session (modem_cookies : cookies) (w : World) :
  let s := session (world_of (export_cycle_ modem_cookies w)) in
  s = session w
  \/ (session_derived (modem_password cfg) str_of_json s
      /\ key_shape (private_key s) = true
      /\ key_shape (login_password s) = true).
Proof.
  cbv zeta.
  destruct (export_cycle_cases modem_cookies w)
    as [(pre & e & Hs & _) | (key & j & res & Hkey & Hreply & Hres)];
    cbv zeta in *; [now left|].
  destruct (is_OK res) eqn:Hok.
  - rewrite (ok_poll_cycle cfg env str_of_json modem_cookies w key j res
               Hkey Hreply Hres Hok).
    cbv zeta. destruct (build_row cfg j _ _); now left.
  - rewrite (failed_poll_cycle cfg env str_of_json modem_cookies w key j res
               Hkey Hreply Hres Hok).
    cbv zeta. rewrite run_world.
    apply (login_keeps_session_derived (after_poll w)).
Qed.

(** X10.  Whatever the modem answers, the session a run of [export()]
    leaves is the one it found, or one a login has stored: its private key
    and login password are the HMAC-MD5 values of the stored challenge,
    the stored public key and the configured password, each 32 uppercase
    hexadecimal digits. *)
Theorem session_is_kept_or_derived (n : nat) (w : World) :
  let s := session (world_of (export_ n w)) in
  s = session w
  \/ (session_derived (modem_password cfg) str_of_json s
      /\ key_shape (private_key s) = true
      /\ key_shape (login_password s) = true).
Proof.
  cbv zeta.
  assert (Hloop : forall m c w1,
            (session w1 = session w
             \/ (session_derived (modem_password cfg) str_of_json (session w1)
                 /\ key_shape (private_key (session w1)) = true
                 /\ key_shape (login_password (session w1)) = true)) ->
            let s := session (world_of (poll_loop_ m c w1)) in
            s = session w
            \/ (session_derived (modem_password cfg) str_of_json s
                /\ key_shape (private_key s) = true
                /\ key_shape (login_password s) = true)).
  { induction m as [|m IH]; intros c w1 H1; [exact H1|].
    cbv zeta. cbn [poll_loop]. unfold bind.
    pose proof (export_cycle_session c w1) as Hc.
    pose proof (export_cycle_effects cfg env str_of_json c w1) as He.
    cbv zeta in *. destruct He as (Hr & _).
    unfold result_of, world_of in *.
    destruct (export_cycle_ c w1) as [[r w2] t2]. simpl in Hr, Hc. subst r.
    assert (H2 : session w2 = session w
                 \/ (session_derived (modem_password cfg) str_of_json
                       (session w2)
                     /\ key_shape (private_key (session w2)) = true
                     /\ key_shape (login_password (session w2)) = true)).
    { destruct Hc as [-> | Hc]; [exact H1 | now right]. }
    specialize (IH c w2 H2).
    destruct (poll_loop_ m c w2) as [[r3 w3] t3]. exact IH. }
  unfold export, try_except. unfold_M.
  pose proof (login_keeps_session_derived w) as Hl. cbv zeta in Hl.
  unfold world_of in *.
  destruct (login_ w) as [[[[]|e] w1] t1]; simpl in *.
  - destruct (hnap_auth (session w1)); simpl; [|exact Hl].
    specialize (Hloop n (cookies_of (session w1)) w1 Hl).
    destruct (poll_loop_ n (cookies_of (session w1)) w1) as [[r2 w2] t2].
    exact Hloop.
  - exact Hl.
Qed.


End ExportInvariants.



(** ** More on the parsers *)

(** *** The uptime pattern on any text *)

Lemma star_loop_groupless
    (body : string -> groups -> rcont -> option groups) (gs : groups) :
  (forall s k res, body s gs k = Some res -> exists s', k s' gs = Some res) ->
  forall (n : nat) (k : rcont) (s : string) (res : groups),
    star_loop body k n s gs = Some res -> exists s', k s' gs = Some res.
Proof.
  intros Hbody. induction n as [|n IH]; intros k s res H; cbn [star_loop] in H.
  - eauto.
  - destruct (body s gs _) as [res0|] eqn:Hb.
    + injection H as ->. apply Hbody in Hb as (s' & Hs').
      destruct (String.length s' <? String.length s)%nat;
        [|discriminate Hs'].
      eapply IH, Hs'.
    + eauto.
Qed.

(** A pattern without group hands the groups on as it got them. *)
Lemma rmatch_groupless (r : regex) :
  groupless r = true ->
  forall (s : string) (gs : groups) (k : rcont) (res : groups),
    rmatch r s gs k = Some res -> exists s', k s' gs = Some res.
Proof.
  induction r as [c|p|r1 IH1 r2 IH2|r1 IH1|r1 IH1|i r1 IH1];
    intros Hg s gs k res H; cbn [rmatch groupless] in *.
  - destruct s as [|c' s']; [discriminate H|].
    destruct (Ascii.eqb c c'); [eauto | discriminate H].
  - destruct s as [|c' s']; [discriminate H|].
    destruct (p c'); [eauto | discriminate H].
  - apply andb_prop in Hg as [Hg1 Hg2].
    apply (IH1 Hg1) in H as (s1 & H1). apply (IH2 Hg2) in H1. exact H1.
  - destruct (rmatch r1 s gs k) as [res0|] eqn:H1.
    + injection H as ->. eapply IH1; eauto.
    + eauto.
  - eapply star_loop_groupless; [|exact H].
    intros s0 k0 res0. apply IH1, Hg.
  - discriminate Hg.
Qed.

(** A greedy run of digits consumes digits only. *)
Lemma star_loop_digits (k : rcont) (gs : groups) (n : nat) :
  forall (s : string) (res : groups),
    star_loop (rmatch Rd) k n s gs = Some res ->
    exists d s',
      s = (d ++ s')%string /\ string_forallb is_digit d = true
      /\ k s' gs = Some res.
Proof.
  induction n as [|n IH]; intros s res H; cbn [star_loop] in H.
  - exists EmptyString, s. auto.
  - unfold Rd in H at 1. cbn [rmatch] in H.
    destruct s as [|c s1]; [exists EmptyString, EmptyString; auto|].
    destruct (is_digit c) eqn:Hc; [|exists EmptyString, (String c s1); auto].
    destruct (String.length s1 <? String.length (String c s1))%nat;
      [|exists EmptyString, (String c s1); auto].
    destruct (star_loop (rmatch Rd) k n s1 gs) as [res0|] eqn:Hs.
    + injection H as ->. apply IH in Hs as (d & s' & -> & Hd & Hk).
      exists (String c d), s'. simpl. rewrite Hc, Hd. auto.
    + exists EmptyString, (String c s1). auto.
Qed.

(** What the two digit groups of the pattern capture. *)
Lemma rmatch_group_digits (i : nat) (r : regex) :
  r = Rd_plus \/ r = Rd2 ->
  forall (s : string) (gs : groups) (k : rcont) (res : groups),
    rmatch (RGroup i r) s gs k = Some res ->
    exists d s',
      starts_with_digit s = true
      /\ digit_group (Some d) = true
      /\ k s' (set_group i d gs) = Some res.
Proof.
  intros [-> | ->] s gs k res H; cbn [rmatch Rd_plus Rd2 Rd] in H;
    unfold Rd_plus, Rd2, Rd in H; cbn [rmatch] in H.
  - destruct s as [|c s1]; [discriminate H|].
    destruct (is_digit c) eqn:Hc; [|discriminate H].
    apply (star_loop_digits _ gs) in H as (d & s' & -> & Hd & Hk).
    change (String c (d ++ s')) with (String c d ++ s')%string in Hk.
    rewrite consumed_app in Hk.
    exists (String c d), s'. simpl. rewrite Hc, Hd. auto.
  - destruct s as [|c1 [|c2 s']]; try discriminate H.
    + destruct (is_digit c1); discriminate H.
    + destruct (is_digit c1) eqn:H1; [|discriminate H].
      destruct (is_digit c2) eqn:H2; [|discriminate H].
      change (String c1 (String c2 s'))
        with (String c1 (String c2 EmptyString) ++ s')%string in H.
      rewrite consumed_app in H.
      exists (String c1 (String c2 EmptyString)), s'.
      simpl. rewrite H1, H2. auto.
Qed.

(** One optional part of the pattern: a digit group, then text without
    group.  Either it is skipped, or the text starts with a digit and the
    group holds digits. *)
Lemma rmatch_optional_part (i : nat) (r rest : regex) :
  r = Rd_plus \/ r = Rd2 ->
  groupless rest = true ->
  forall (s : string) (gs : groups) (k : rcont) (res : groups),
    rmatch (ROpt (RSeq (RGroup i r) rest)) s gs k = Some res ->
    k s gs = Some res
    \/ (starts_with_digit s = true
        /\ exists d s',
             digit_group (Some d) = true
             /\ k s' (set_group i d gs) = Some res).
Proof.
  intros Hr Hrest s gs k res H.
  change (rmatch (ROpt (RSeq (RGroup i r) rest)) s gs k)
    with (match rmatch (RGroup i r) s gs
                  (fun s' gs' => rmatch rest s' gs' k) with
          | Some x => Some x
          | None => k s gs
          end) in H.
  destruct (rmatch (RGroup i r) s gs _) as [res0|] eqn:Hpart; [|now left].
  injection H as ->. right.
  apply (rmatch_group_digits i r Hr) in Hpart as (d & s' & Hs & Hd & Hk).
  apply (rmatch_groupless rest Hrest) in Hk as (s'' & Hk).
  split; [exact Hs|]. exists d, s''. auto.
Qed.

Lemma set_group_digits (i : nat) (d : string) (gs : groups) :
  digit_group (Some d) = true ->
  forallb digit_group gs = true ->
  forallb digit_group (set_group i d gs) = true.
Proof.
  intros Hd. revert i. induction gs as [|g gs IH]; intros i H;
    [now destruct i|].
  cbn [forallb] in H. apply andb_prop in H as [Hg Hgs].
  destruct i as [|i]; cbn [set_group forallb].
  - now rewrite Hd, Hgs.
  - now rewrite Hg, IH.
Qed.

Lemma groupless_days : groupless (RSeq Rs_star (RLit "days" Rs_star)) = true.
Proof. reflexivity. Qed.

Lemma groupless_hm (c : ascii) : groupless (RLit (String c "") (RChar ":")) = true.
Proof. reflexivity. Qed.

(** The four optional parts in a row, before a rest that always matches. *)
Lemma rmatch_uptime (s : string) (gs : groups) :
  forallb digit_group gs = true ->
  (exists res,
      rmatch UPTIME_REGEX s gs (fun _ gs' => Some gs') = Some res
      /\ forallb digit_group res = true)
  /\ (starts_with_digit s = false ->
      rmatch UPTIME_REGEX s gs (fun _ gs' => Some gs') = Some gs).
Proof.
  intros Hgs.
  set (k4 := fun (_ : string) (gs' : groups) => Some gs').
  set (k3 := fun s' gs' => rmatch (ROpt R_seconds) s' gs' k4).
  set (k2 := fun s' gs' => rmatch (ROpt R_minutes) s' gs' k3).
  set (k1 := fun s' gs' => rmatch (ROpt R_hours) s' gs' k2).
  change (rmatch UPTIME_REGEX s gs k4)
    with (rmatch (ROpt R_days) s gs k1).
  assert (Hstep : forall (i : nat) (r rest : regex) (k : rcont),
            r = Rd_plus \/ r = Rd2 ->
            groupless rest = true ->
            (forall s0 gs0,
                forallb digit_group gs0 = true ->
                (exists res, k s0 gs0 = Some res
                             /\ forallb digit_group res = true)
                /\ (starts_with_digit s0 = false -> k s0 gs0 = Some gs0)) ->
            forall s0 gs0,
              forallb digit_group gs0 = true ->
              (exists res,
                  rmatch (ROpt (RSeq (RGroup i r) rest)) s0 gs0 k = Some res
                  /\ forallb digit_group res = true)
              /\ (starts_with_digit s0 = false ->
                  rmatch (ROpt (RSeq (RGroup i r) rest)) s0 gs0 k
                  = Some gs0)).
  { intros i r rest k Hr Hrest Hk s0 gs0 Hg0.
    destruct (Hk s0 gs0 Hg0) as ((res0 & Hres0 & Hd0) & Hskip).
    assert (Hsome : exists res,
               rmatch (ROpt (RSeq (RGroup i r) rest)) s0 gs0 k = Some res).
    { cbn [rmatch].
      destruct (rmatch r s0 gs0 _) as [x|]; [eauto|].
      exists res0. exact Hres0. }
    destruct Hsome as (res & Hres).
    destruct (rmatch_optional_part i r rest Hr Hrest s0 gs0 k res Hres)
      as [Hpass | (Hstart & d & s' & Hd & Hpart)].
    - split.
      + exists res. split; [exact Hres|]. congruence.
      + intros Hno. rewrite Hres, <- Hpass. now apply Hskip.
    - split.
      + exists res. split; [exact Hres|].
        destruct (Hk s' (set_group i d gs0) (set_group_digits i d gs0 Hd Hg0))
          as ((res1 & Hres1 & Hd1) & _).
        congruence.
      + intros Hno. congruence. }
  apply (Hstep 0%nat Rd_plus (RSeq Rs_star (RLit "days" Rs_star)) k1
           (or_introl eq_refl) groupless_days); [|exact Hgs].
  apply (Hstep 1%nat Rd2 (RLit "h" (RChar ":")) k2
           (or_intror eq_refl) (groupless_hm "h")).
  apply (Hstep 2%nat Rd2 (RLit "m" (RChar ":")) k3
           (or_intror eq_refl) (groupless_hm "m")).
  apply (Hstep 3%nat Rd2 (RChar "s") k4 (or_intror eq_refl) eq_refl).
  intros s0 gs0 Hg0. unfold k4. split; [eauto | auto].
Qed.

Lemma search_at_start (r : regex) (n : nat) (s : string) (gs : groups) :
  rmatch r s (repeat None n) (fun _ gs' => Some gs') = Some gs ->
  search r n s = Some gs.
Proof. intros H. destruct s; cbn [search]; now rewrite H. Qed.

Lemma digit_value_range (c : ascii) :
  is_digit c = true -> 0 <= digit_value c <= 9.
Proof.
  unfold is_digit, digit_value. cbv zeta. intros H.
  apply andb_prop in H as [H1 H2].
  apply Nat.leb_le in H1, H2. lia.
Qed.

Lemma decimal_value_nonneg (s : string) (acc : Z) :
  0 <= acc -> string_forallb is_digit s = true -> 0 <= decimal_value acc s.
Proof.
  revert acc. induction s as [|c s IH]; intros acc Hacc H;
    cbn [decimal_value]; [exact Hacc|].
  simpl in H. apply andb_prop in H as [Hc Hs].
  apply IH; [|exact Hs]. pose proof (digit_value_range c Hc). lia.
Qed.

(** [int] of a group of the uptime match. *)
Lemma int_of_digit_group (g : option string) :
  digit_group g = true ->
  int_of_group g = Err TypeError
  \/ exists v, int_of_group g = Ok v /\ 0 <= v.
Proof.
  destruct g as [[|c s]|]; cbn [digit_group int_of_group]; intros H;
    [discriminate H | | now left].
  right. apply andb_prop in H as [_ H]. simpl in H.
  apply andb_prop in H as [Hc Hs].
  rewrite (int_of_str_digits c s Hc Hs). eexists. split; [reflexivity|].
  apply decimal_value_nonneg; [lia|]. simpl. now rewrite Hc, Hs.
Qed.

Lemma nth_digit_group (i : nat) (gs : groups) :
  forallb digit_group gs = true -> digit_group (nth i gs None) = true.
Proof.
  revert i. induction gs as [|g gs IH]; intros i H.
  - now destruct i.
  - cbn [forallb] in H. apply andb_prop in H as [Hg Hgs].
    destruct i as [|i]; [exact Hg | now apply IH].
Qed.

(** X12.  On plain text (ASCII, of no more than 4300 characters),
    [UPTIME_REGEX.search] finds a match in every text (each of its four
    parts is optional), so [.groups()] is never called on [None]; a group
    holds decimal digits or is [None].  The uptime of a text is then a
    number that is not negative, or the [TypeError] of [int(None)]: the
    computation raises nothing else. *)
Theorem uptime_is_a_number_or_TypeError (raw : string)
    (Hplain : plain_text raw = true) :
  (exists gs,
      search UPTIME_REGEX 4 raw = Some gs
      /\ forallb digit_group gs = true)
  /\ match parse_uptime raw with
     | Ok v => 0 <= v
     | Err e => e = TypeError
     end.
Proof.
  destruct (rmatch_uptime raw (repeat None 4) eq_refl)
    as ((gs & Hm & Hd) & _).
  apply search_at_start in Hm.
  split; [eauto|]. unfold parse_uptime. rewrite Hm.
  destruct (int_of_digit_group _ (nth_digit_group 0 gs Hd))
    as [-> | (d & -> & Hd0)]; [reflexivity|].
  destruct (int_of_digit_group _ (nth_digit_group 1 gs Hd))
    as [-> | (h & -> & Hh0)]; [reflexivity|].
  destruct (int_of_digit_group _ (nth_digit_group 2 gs Hd))
    as [-> | (m & -> & Hm0)]; [reflexivity|].
  destruct (int_of_digit_group _ (nth_digit_group 3 gs Hd))
    as [-> | (s & -> & Hs0)]; [reflexivity|].
  cbn [rbind]. lia.
Qed.

Lemma uptime_is_a_number_or_TypeError_witness :
  plain_text "5 days 03h:21m:09s" = true
  /\ parse_uptime "5 days 03h:21m:09s" = Ok 444069
  /\ match parse_uptime "5 days 03h:21m:09s" with
     | Ok v => 0 <= v
     | Err e => e = TypeError
     end.
Proof.
  split; [reflexivity|]. split; [reflexivity|].
  apply (uptime_is_a_number_or_TypeError "5 days 03h:21m:09s" eq_refl).
Defined.

(** X13.  The match is the one at the start of the text: when an ASCII
    text does not start with a decimal digit (it is empty, or begins with
    a space or a word), the pattern matches the empty string there, all
    four groups are [None] and the uptime computation raises [TypeError],
    whatever follows. *)
Theorem uptime_text_must_start_with_a_digit (raw : string)
    (Hascii : ascii_text raw = true)
    (Hstart : starts_with_digit raw = false) :
  search UPTIME_REGEX 4 raw = Some [None; None; None; None]
  /\ parse_uptime raw = Err TypeError.
Proof.
  destruct (rmatch_uptime raw (repeat None 4) eq_refl) as (_ & Hskip).
  specialize (Hskip Hstart). apply search_at_start in Hskip.
  split; [exact Hskip|]. unfold parse_uptime. rewrite Hskip. reflexivity.
Qed.

Lemma uptime_text_must_start_with_a_digit_witness :
  ascii_text " 5 days 03h:21m:09s" = true
  /\ starts_with_digit " 5 days 03h:21m:09s" = false
  /\ parse_uptime " 5 days 03h:21m:09s" = Err TypeError.
Proof.
  split; [reflexivity|]. split; [reflexivity|].
  apply (uptime_text_must_start_with_a_digit " 5 days 03h:21m:09s"
           eq_refl eq_refl).
Defined.


(** *** The channel strings *)

Lemma float_of_str_error (s : string) (e : exn) :
  float_of_str s = Err e -> e = ValueError.
Proof.
  unfold float_of_str.
  repeat (break_inner; try discriminate);
    intros H; try discriminate H; now injection H as <-.
Qed.

Lemma correct_snr_error (modulation snr : string) (e : exn) :
  correct_snr modulation snr = Err e -> e = ValueError.
Proof.
  unfold correct_snr. destruct (String.eqb modulation "OFDM PLC");
    [|discriminate].
  destruct (float_of_str snr) as [x|e'] eqn:Hx; cbn [rbind];
    [discriminate|].
  intros H. injection H as <-. eapply float_of_str_error, Hx.
Qed.

Lemma float_of_snr_error (v : snr_value) (e : exn) :
  float_of_snr v = Err e -> e = ValueError.
Proof.
  destruct v; cbn [float_of_snr]; [apply float_of_str_error | discriminate].
Qed.

Ltac value_error :=
  match goal with
  | H : int_of_str _ = Err ?e |- ?e = ValueError =>
      exact (int_of_str_error _ _ H)
  | H : float_of_str _ = Err ?e |- ?e = ValueError =>
      exact (float_of_str_error _ _ H)
  | H : correct_snr _ _ = Err ?e |- ?e = ValueError =>
      exact (correct_snr_error _ _ _ H)
  | H : float_of_snr _ = Err ?e |- ?e = ValueError =>
      exact (float_of_snr_error _ _ H)
  end.

Ltac step_rbind :=
  match goal with
  | |- context [rbind ?r _] =>
      let H := fresh "Hstep" in
      destruct r eqn:H; cbn [rbind]; [|value_error]
  end.

Lemma parse_downstream_fields_outcome (fields : list string) :
  match parse_downstream_fields fields with
  | Ok _ => length fields = 10%nat
  | Err e => e = ValueError
  end.
Proof.
  destruct fields as [|f1 [|f2 [|f3 [|f4 [|f5 [|f6 [|f7 [|f8 [|f9 [|f10
                       [|f11 fields]]]]]]]]]]];
    try reflexivity.
  cbn [parse_downstream_fields]. repeat step_rbind. reflexivity.
Qed.

Lemma parse_upstream_fields_outcome (fields : list string) :
  match parse_upstream_fields fields with
  | Ok _ => length fields = 8%nat
  | Err e => e = ValueError
  end.
Proof.
  destruct fields as [|f1 [|f2 [|f3 [|f4 [|f5 [|f6 [|f7 [|f8
                       [|f9 fields]]]]]]]]];
    try reflexivity.
  cbn [parse_upstream_fields]. repeat step_rbind. reflexivity.
Qed.

(** X14.  A downstream segment is parsed only when it has exactly ten
    fields between the carets, an upstream segment only when it has
    exactly eight; every failure of either, a wrong number of fields or a
    field that is not a number, is a [ValueError]. *)
Theorem channel_segment_needs_its_fields (segment : string) :
  match parse_downstream_segment segment with
  | Ok _ => length (split field_separator segment) = 10%nat
  | Err e => e = ValueError
  end
  /\ match parse_upstream_segment segment with
     | Ok _ => length (split field_separator segment) = 8%nat
     | Err e => e = ValueError
     end.
Proof.
  split.
  - apply parse_downstream_fields_outcome.
  - apply parse_upstream_fields_outcome.
Qed.

Section ParseEach.

Context {A B : Type}.
Variable f : A -> result B.

(** The loop returns when every item parses, one singleton per item. *)
Lemma parse_each_Ok_iff (xs : list A) (ys : list (list B)) :
  parse_each f xs = Ok ys <->
  Forall2 (fun x y => exists b, f x = Ok b /\ y = [b]) xs ys.
Proof.
  revert ys. induction xs as [|x xs IH]; intros ys; cbn [parse_each].
  - split.
    + intros H. injection H as <-. constructor.
    + intros H. inversion H. reflexivity.
  - split.
    + intros H. destruct (f x) as [b|e] eqn:Hx; cbn [rbind] in H;
        [|discriminate H].
      destruct (parse_each f xs) as [ys'|e] eqn:Hxs; cbn [rbind] in H;
        [|discriminate H].
      injection H as <-. constructor; [eauto|]. now apply IH.
    + intros H. inversion H as [|x' y l l' (b & Hb & ->) Hrest]; subst.
      rewrite Hb. cbn [rbind]. apply IH in Hrest. rewrite Hrest.
      reflexivity.
Qed.

(** It raises what the first item that does not parse raises. *)
Lemma parse_each_Err_iff (xs : list A) (e : exn) :
  parse_each f xs = Err e <->
  exists pre x post,
    xs = pre ++ x :: post
    /\ Forall (fun x' => exists b, f x' = Ok b) pre
    /\ f x = Err e.
Proof.
  induction xs as [|x xs IH]; cbn [parse_each].
  - split; [discriminate|].
    intros (pre & x & post & H & _). now destruct pre.
  - split.
    + intros H. destruct (f x) as [b|e'] eqn:Hx; cbn [rbind] in H.
      * destruct (parse_each f xs) as [ys'|e''] eqn:Hxs; cbn [rbind] in H;
          [discriminate H|].
        injection H as ->.
        destruct (proj1 IH eq_refl) as (pre & x' & post & -> & Hpre & Hx').
        exists (x :: pre), x', post. repeat split; eauto.
      * injection H as ->. exists [], x, xs. repeat split; auto.
    + intros (pre & x' & post & Hxs & Hpre & Hx').
      destruct pre as [|p pre]; cbn [app] in Hxs; injection Hxs as -> ->.
      * rewrite Hx'. reflexivity.
      * inversion Hpre as [|? ? (b & Hb) Hpre']; subst.
        rewrite Hb. cbn [rbind].
        assert (Hrest : parse_each f (pre ++ x' :: post) = Err e)
          by (apply IH; exists pre, x', post; auto).
        rewrite Hrest. reflexivity.
Qed.

End ParseEach.

(** X15.  The channel lists are all or nothing: the downstream list is
    built exactly when every segment between the [|+|] separators parses,
    with one single-tuple entry per segment in the order of the string;
    otherwise the loop raises what the first segment that does not parse
    raises, and no list is built.  The same holds for the upstream list. *)
Theorem channel_lists_are_all_or_nothing (raw : string) :
  (forall rows,
      parse_downstream raw = Ok rows <->
      Forall2 (fun segment entry =>
                 exists channel,
                   parse_downstream_segment segment = Ok channel
                   /\ entry = [channel])
        (split channel_separator raw) rows)
  /\ (forall e,
         parse_downstream raw = Err e <->
         exists before segment rest,
           split channel_separator raw = before ++ segment :: rest
           /\ Forall (fun s => exists channel,
                          parse_downstream_segment s = Ok channel) before
           /\ parse_downstream_segment segment = Err e)
  /\ (forall rows,
         parse_upstream raw = Ok rows <->
         Forall2 (fun segment entry =>
                    exists channel,
                      parse_upstream_segment segment = Ok channel
                      /\ entry = [channel])
           (split channel_separator raw) rows)
  /\ (forall e,
         parse_upstream raw = Err e <->
         exists before segment rest,
           split channel_separator raw = before ++ segment :: rest
           /\ Forall (fun s => exists channel,
                          parse_upstream_segment s = Ok channel) before
           /\ parse_upstream_segment segment = Err e).
Proof.
  unfold parse_downstream, parse_upstream.
  repeat split; try apply parse_each_Ok_iff; try apply parse_each_Err_iff.
Qed.

(** *** [str.split] *)

Lemma prefix_app_inv (p s : string) :
  prefix p s = true -> exists rest, s = (p ++ rest)%string.
Proof.
  revert s. induction p as [|c p IH]; intros s H.
  - exists s. reflexivity.
  - destruct s as [|c' s]; [discriminate H|]. cbn [prefix] in H.
    destruct (ascii_dec c c') as [<-|]; [|discriminate H].
    apply IH in H as (rest & ->). exists rest. reflexivity.
Qed.

Lemma string_app_nil_r (s : string) : (s ++ "")%string = s.
Proof. induction s as [|c s IH]; simpl; [reflexivity | now rewrite IH]. Qed.

Lemma string_app_assoc (a b c : string) :
  ((a ++ b) ++ c)%string = (a ++ b ++ c)%string.
Proof. induction a as [|x a IH]; simpl; [reflexivity | now rewrite IH]. Qed.

Lemma split_from_nonempty (sep : string) (s : string) :
  forall (skip : nat) (acc : string), split_from sep skip acc s <> [].
Proof.
  induction s as [|c s IH]; intros skip acc; cbn [split_from];
    [discriminate|].
  destruct skip as [|k]; [|apply IH].
  destruct (prefix sep (String c s)); [discriminate | apply IH].
Qed.

(** The characters of a separator that was found are passed over. *)
Lemma split_from_skip (sep p rest acc : string) :
  split_from sep (String.length p) acc (p ++ rest)
  = split_from sep 0 acc rest.
Proof.
  induction p as [|c p IH]; [reflexivity|]. exact IH.
Qed.

Lemma join_cons (sep p : string) (parts : list string) :
  parts <> [] ->
  join sep (p :: parts) = (p ++ sep ++ join sep parts)%string.
Proof. destruct parts; [congruence | reflexivity]. Qed.

Lemma join_split_from (sep : string) :
  sep <> EmptyString ->
  forall (n : nat) (s acc : string),
    (String.length s <= n)%nat ->
    join sep (split_from sep 0 acc s) = (acc ++ s)%string.
Proof.
  intros Hsep. destruct sep as [|c0 sep']; [congruence|].
  induction n as [|n IH]; intros s acc Hlen.
  - destruct s; [|simpl in Hlen; lia]. simpl. now rewrite string_app_nil_r.
  - destruct s as [|c s']; [simpl; now rewrite string_app_nil_r|].
    cbn [split_from].
    destruct (prefix (String c0 sep') (String c s')) eqn:Hp.
    + apply prefix_app_inv in Hp as (rest & Hrest).
      cbn [append] in Hrest. injection Hrest as -> ->.
      cbn [String.length]. rewrite Nat.sub_succ, Nat.sub_0_r.
      rewrite split_from_skip.
      rewrite join_cons by apply split_from_nonempty.
      rewrite IH.
      * reflexivity.
      * simpl in Hlen. rewrite length_append in Hlen. lia.
    + rewrite IH by (simpl in Hlen; lia).
      now rewrite string_app_assoc.
Qed.

(** X16.  [str.split] on a separator that is not empty loses nothing:
    joining the pieces with the separator gives the text back, and there
    is always at least one piece (the whole text when the separator does
    not occur, the empty piece for the empty text). *)
Theorem split_loses_nothing (sep s : string) (Hsep : sep <> EmptyString) :
  join sep (split sep s) = s /\ split sep s <> [].
Proof.
  split.
  - unfold split.
    apply (join_split_from sep Hsep (String.length s) s EmptyString).
    lia.
  - apply split_from_nonempty.
Qed.

Lemma split_loses_nothing_witness :
  split channel_separator "1^a|+||+|2^b" = ["1^a"; ""; "2^b"]
  /\ join channel_separator (split channel_separator "1^a|+||+|2^b")
     = "1^a|+||+|2^b".
Proof.
  split; [reflexivity|].
  assert (Hsep : channel_separator <> EmptyString) by discriminate.
  exact (proj1 (split_loses_nothing channel_separator "1^a|+||+|2^b" Hsep)).
Defined.

(** ** The writer *)

(** X17.  The writer waits only after a failure: over any number of turns
    it sleeps once, for 5 seconds, per insert that failed and never after
    one that succeeded; it sends nothing to the modem, puts nothing on the
    queue, leaves the session and the stop event alone, and consumes one
    outcome of ClickHouse per item it hands over. *)
Theorem writer_sleeps_once_per_failed_insert
    (env : Env) (n : nat) (w : World) :
  let run := insert_into_clickhouse env n w in
  let failures := count is_failed_execute (trace_of run) in
  count is_sleep (trace_of run) = failures
  /\ slept (trace_of run) = 5 * Z.of_nat failures
  /\ count is_post (trace_of run) = 0%nat
  /\ count is_put (trace_of run) = 0%nat
  /\ session (world_of run) = session w
  /\ stop_event (world_of run) = stop_event w
  /\ n_insert (world_of run)
     = (n_insert w + length (executed (trace_of run)))%nat.
Proof.
  cbv zeta. revert w. induction n as [|n IH]; intros w.
  - unfold result_of, world_of, trace_of. simpl. repeat split; auto.
  - cbn [insert_into_clickhouse].
    destruct (queue w) as [|data rest] eqn:Hq.
    + unfold result_of, world_of, trace_of. simpl. repeat split; auto.
    + unfold insert_iteration, queue_get, clickhouse_execute. unfold_M.
      with_strategy opaque [Z.mul Z.of_nat] simpl.
      specialize (IH (next_insert (set_queue rest w))).
      unfold world_of, trace_of, count in *.
      destruct IH as (IH1 & IH2 & IH3 & IH4 & IH5 & IH6 & IH7).
      destruct (clickhouse_result env (n_insert w)) as [e|];
        cbn [fst snd app];
        destruct (insert_into_clickhouse env n
                    (next_insert (set_queue rest w))) as [[r w2] t2];
        cbn [fst snd app filter is_sleep is_failed_execute is_post is_put
             slept executed length] in *;
        rewrite ?IH1, ?IH2, ?IH3, ?IH4, ?IH5, ?IH6, ?IH7;
        cbn [session stop_event n_insert next_insert set_queue];
        repeat split; auto; lia.
Qed.


(** ** From the environment to the run *)

Lemma load_env_vars_Started (environment : environ) (s : Settings) :
  load_env_vars environment = Started s ->
  environment "MODEM_URL" = Some (modem_url (settings_config s))
  /\ 1 <= scrape_delay (settings_config s).
Proof.
  intros Hload. unfold load_env_vars in Hload.
  repeat match type of Hload with
         | startup_bind ?m _ = Started _ =>
             let E := fresh "E" in
             destruct m eqn:E; cbn [startup_bind] in Hload;
             [ | discriminate Hload | discriminate Hload ]
         end.
  injection Hload as <-. cbn.
  apply required_variable_Started in E.
  apply integer_setting_Started in E6. split; [exact E | apply E6].
Qed.

(* ================================================================== *)
(** * Part IV: the loop at any delay, well-formed payloads             *)
(* ================================================================== *)

(** ** Well-formed payloads parse *)

Lemma int_text_converts (s : string) :
  int_text s = true -> exists n, int_of_str s = Ok n.
Proof.
  unfold int_text. intros H. apply andb_prop in H as [_ H].
  destruct (int_of_str s) as [n|e]; [eauto | discriminate H].
Qed.

Lemma float_text_converts (s : string) :
  float_text s = true -> exists x, float_of_str s = Ok x.
Proof.
  unfold float_text. intros H. apply andb_prop in H as [_ H].
  destruct (float_of_str s) as [x|e]; [eauto | discriminate H].
Qed.

Lemma parse_downstream_well_formed (segment : string) :
  well_formed_downstream segment = true ->
  exists channel, parse_downstream_segment segment = Ok channel.
Proof.
  unfold well_formed_downstream, parse_downstream_segment.
  destruct (split field_separator segment)
    as [|f0 [|f1 [|modulation [|channel_id [|frequency [|power [|snr
        [|correcteds [|uncorrecteds [|f9 [|f10 fields]]]]]]]]]]];
    try discriminate.
  intros H.
  apply andb_prop in H as [H H6]. apply andb_prop in H as [H H5].
  apply andb_prop in H as [H H4]. apply andb_prop in H as [H H3].
  apply andb_prop in H as [H1 H2].
  apply int_text_converts in H1 as (n1 & H1), H5 as (n5 & H5),
    H6 as (n6 & H6).
  apply float_text_converts in H2 as (x2 & H2), H3 as (x3 & H3),
    H4 as (x4 & H4).
  cbn [parse_downstream_fields]. unfold correct_snr.
  destruct (String.eqb modulation "OFDM PLC");
    rewrite ?H4; cbn [rbind]; rewrite H1, H2, H3; cbn [rbind float_of_snr];
    rewrite ?H4, H5, H6; cbn [rbind]; eauto.
Qed.

Lemma parse_upstream_well_formed (segment : string) :
  well_formed_upstream segment = true ->
  exists channel, parse_upstream_segment segment = Ok channel.
Proof.
  unfold well_formed_upstream, parse_upstream_segment.
  destruct (split field_separator segment)
    as [|f0 [|f1 [|modulation [|channel_id [|width [|frequency [|power
        [|f7 [|f8 fields]]]]]]]]];
    try discriminate.
  intros H.
  apply andb_prop in H as [H H4]. apply andb_prop in H as [H H3].
  apply andb_prop in H as [H1 H2].
  apply int_text_converts in H1 as (n1 & H1).
  apply float_text_converts in H2 as (x2 & H2), H3 as (x3 & H3),
    H4 as (x4 & H4).
  cbn [parse_upstream_fields].
  rewrite H1, H3, H4, H2. cbn [rbind]. eauto.
Qed.

Lemma parse_each_well_formed {A B : Type} (f : A -> result B)
    (well_formed : A -> bool) (xs : list A) :
  (forall x, well_formed x = true -> exists y, f x = Ok y) ->
  forallb well_formed xs = true ->
  exists ys, parse_each f xs = Ok ys.
Proof.
  intros Hf. induction xs as [|x xs IH]; cbn [forallb parse_each].
  - eauto.
  - intros H. apply andb_prop in H as [Hx Hxs].
    destruct (Hf x Hx) as (y & ->). destruct (IH Hxs) as (ys & ->).
    cbn [rbind]. eauto.
Qed.

(** The row of a well-formed payload. *)
Lemma build_row_well_formed (cfg : Config) (j : json)
    (downstream upstream : string) (d1 : ascii) (ds : string)
    (h1 h2 m1 m2 s1 s2 : ascii) (filename version : json)
    (latency timestamp : float) :
  status_field j "GetMotoStatusDownstreamChannelInfoResponse"
    "MotoConnDownstreamChannel" = Ok (JStr downstream) ->
  forallb well_formed_downstream (split channel_separator downstream)
  = true ->
  status_field j "GetMotoStatusUpstreamChannelInfoResponse"
    "MotoConnUpstreamChannel" = Ok (JStr upstream) ->
  forallb well_formed_upstream (split channel_separator upstream) = true ->
  status_field j "GetMotoStatusConnectionInfoResponse" "MotoConnSystemUpTime"
  = Ok (JStr (uptime_text (String d1 ds) h1 h2 m1 m2 s1 s2)) ->
  days_text (String d1 ds) = true ->
  is_digit h1 = true -> is_digit h2 = true ->
  is_digit m1 = true -> is_digit m2 = true ->
  is_digit s1 = true -> is_digit s2 = true ->
  status_field j "GetMotoStatusStartupSequenceResponse"
    "MotoConnConfigurationFileComment" = Ok filename ->
  status_field j "GetMotoStatusSoftwareResponse" "StatusSoftwareSfVer"
  = Ok version ->
  exists channels_down channels_up,
    length channels_down = length (split channel_separator downstream)
    /\ length channels_up = length (split channel_separator upstream)
    /\ build_row cfg j latency timestamp
       = Ok {| row_modem_name := modem_name cfg;
               row_config_filename := filename;
               row_uptime :=
                 decimal_value 0 (String d1 ds) * 86400
                 + decimal_value 0 (String h1 (String h2 EmptyString)) * 3600
                 + decimal_value 0 (String m1 (String m2 EmptyString)) * 60
                 + decimal_value 0 (String s1 (String s2 EmptyString));
               row_version := version;
               row_model := "MB8600";
               row_downstream := channels_down;
               row_upstream := channels_up;
               row_scrape_latency := latency;
               row_timestamp := timestamp |}.
Proof.
  intros Hds Hdwf Hus Huwf Hup Hdays Hh1 Hh2 Hm1 Hm2 Hs1 Hs2 Hfile Hver.
  destruct (parse_each_well_formed parse_downstream_segment
              well_formed_downstream _ parse_downstream_well_formed Hdwf)
    as (dch & Hdch).
  destruct (parse_each_well_formed parse_upstream_segment
              well_formed_upstream _ parse_upstream_well_formed Huwf)
    as (uch & Huch).
  exists dch, uch.
  split; [apply (parse_each_length _ _ _ Hdch)|].
  split; [apply (parse_each_length _ _ _ Huch)|].
  unfold days_text in Hdays. apply andb_prop in Hdays as [_ Hdays].
  simpl in Hdays. apply andb_prop in Hdays as [Hd1 Hdd].
  unfold build_row.
  rewrite Hds. cbn [rbind json_split]. rewrite Hdch. cbn [rbind].
  rewrite Hus. cbn [rbind json_split]. rewrite Huch. cbn [rbind].
  rewrite Hup. cbn [rbind json_uptime].
  rewrite (parse_uptime_text d1 ds h1 h2 m1 m2 s1 s2) by assumption.
  cbn [rbind]. rewrite Hfile. cbn [rbind]. rewrite Hver. reflexivity.
Qed.

(** ** The poll loop and [asyncio.sleep] *)

Lemma asyncio_sleep_accepted (seconds : Z) :
  sleep_accepts seconds = true -> asyncio_sleep seconds = sleep seconds.
Proof. unfold asyncio_sleep. now intros ->. Qed.

Lemma asyncio_sleep_rejected (seconds : Z) :
  sleep_accepts seconds = false -> asyncio_sleep seconds = raise OverflowError.
Proof. unfold asyncio_sleep. now intros ->. Qed.

Lemma sleeps_of_app (d : Z) (t1 t2 : list event) :
  sleeps_of d (t1 ++ t2) = sleeps_of d t1 && sleeps_of d t2.
Proof. apply forallb_app. Qed.

Lemma sleeps_of_quiet (d : Z) (t : list event) :
  count is_sleep t = 0%nat -> sleeps_of d t = true.
Proof.
  unfold count, sleeps_of. induction t as [|ev t IH]; [reflexivity|].
  destruct ev; simpl; auto; discriminate.
Qed.

Section FullExporterFacts.

Variable cfg : Config.
Variable env : Env.
Variable str_of_json : json -> string.

#[local] Abbreviation login_ := (login cfg env str_of_json).
#[local] Abbreviation export_cycle_ := (export_cycle cfg env str_of_json).
#[local] Abbreviation poll_loop_ := (poll_loop cfg env str_of_json).
#[local] Abbreviation export_ := (export cfg env str_of_json).
#[local] Abbreviation full_cycle_body_ :=
  (full_cycle_body cfg env str_of_json).
#[local] Abbreviation full_export_cycle_ :=
  (full_export_cycle cfg env str_of_json).
#[local] Abbreviation full_poll_loop_ :=
  (full_poll_loop cfg env str_of_json).
#[local] Abbreviation full_export_ := (full_export cfg env str_of_json).
#[local] Abbreviation delay_ := (scrape_delay cfg).

(** *** At a delay [asyncio.sleep] accepts: the loop of [poll_loop] *)

Lemma full_cycle_body_accepted (modem_cookies : cookies) :
  sleep_accepts delay_ = true ->
  full_cycle_body_ modem_cookies = cycle_body cfg env str_of_json modem_cookies.
Proof.
  intros H. unfold full_cycle_body, cycle_body.
  now rewrite (asyncio_sleep_accepted _ H).
Qed.

Lemma full_export_cycle_accepted (modem_cookies : cookies) :
  sleep_accepts delay_ = true ->
  full_export_cycle_ modem_cookies = export_cycle_ modem_cookies.
Proof.
  intros H. unfold full_export_cycle, export_cycle.
  now rewrite (full_cycle_body_accepted _ H), (asyncio_sleep_accepted _ H).
Qed.

Lemma full_poll_loop_accepted (n : nat) (modem_cookies : cookies) :
  sleep_accepts delay_ = true ->
  full_poll_loop_ n modem_cookies = poll_loop_ n modem_cookies.
Proof.
  intros H. induction n as [|n IH]; [reflexivity|].
  cbn [full_poll_loop poll_loop].
  now rewrite IH, (full_export_cycle_accepted _ H).
Qed.

Lemma full_export_accepted (n : nat) (w : World) :
  sleep_accepts delay_ = true -> full_export_ n w = export_ n w.
Proof.
  intros H. unfold full_export, export, try_except. unfold_M.
  destruct (login_ w) as [[[[]|e] w1] t1]; [|reflexivity].
  cbn [fst snd]. destruct (hnap_auth (session w1)); [|reflexivity].
  now rewrite (full_poll_loop_accepted n _ H).
Qed.

(** *** At a delay it rejects: the first turn ends the loop *)

(** Whatever happens in the body, the turn ends on the [OverflowError] of
    a sleep that is outside every [try]; no sleep takes place. *)
Lemma full_export_cycle_rejected (modem_cookies : cookies) (w : World) :
  sleep_accepts delay_ = false ->
  let run := full_export_cycle_ modem_cookies w in
  result_of run = Err OverflowError
  /\ count is_sleep (trace_of run) = 0%nat
  /\ stop_event (world_of run) = stop_event w
  /\ (count is_poll_post (trace_of run) <= 1)%nat.
Proof.
  intros H. cbv zeta.
  unfold full_export_cycle, full_cycle_body.
  rewrite (asyncio_sleep_rejected _ H).
  unfold try_except_finally, count. unfold_M. simpl.
  destruct (private_key (session w)) as [ | ? | ? | ? | key | ? | ? ];
    simpl; try (repeat split; auto; fail).
  destruct (http_reply env (n_http w)) as [e|j]; simpl;
    [repeat split; auto|].
  destruct (combined_result j) as [res|e]; simpl; [|repeat split; auto].
  destruct (is_OK res); simpl.
  - destruct (build_row cfg j _ _) as [row|e]; simpl; repeat split; auto.
  - destruct (login_effects cfg env str_of_json
                (next_http (next_time (next_perf w))))
      as (_ & Hstop & _ & _ & _ & _ & _ & Hpoll & _).
    destruct (login_quiet cfg env str_of_json
                (next_http (next_time (next_perf w)))) as (Hsl & _).
    cbv zeta in *. unfold count, world_of, trace_of in *.
    destruct (login_ (next_http (next_time (next_perf w))))
      as [[[[]|e] lw] lt]; cbn [fst snd] in *; simpl;
      rewrite ?filter_app, ?length_app, ?Hsl, ?Hpoll; simpl;
      repeat split; auto.
Qed.

Lemma full_poll_loop_rejected (n : nat) (modem_cookies : cookies) (w : World) :
  sleep_accepts delay_ = false ->
  let run := full_poll_loop_ (S n) modem_cookies w in
  result_of run = Err OverflowError
  /\ count is_sleep (trace_of run) = 0%nat
  /\ stop_event (world_of run) = stop_event w
  /\ (count is_poll_post (trace_of run) <= 1)%nat.
Proof.
  intros H. cbv zeta. cbn [full_poll_loop]. unfold bind.
  destruct (full_export_cycle_rejected modem_cookies w H) as (Hr & Hrest).
  cbv zeta in *. unfold result_of, world_of, trace_of in *.
  destruct (full_export_cycle_ modem_cookies w) as [[r w1] t1].
  cbn [fst snd] in *. subst r. exact (conj eq_refl Hrest).
Qed.

(** *** The claims on the loop as it is *)

(** C5, as amended.  At a delay [asyncio.sleep] accepts, an exception
    raised in the body of a cycle is logged by the handler and followed by
    the two sleeps; no cycle and no number of turns of the loop ends on an
    exception, the stop event is left alone, and every turn sends its
    poll.  A first [login()] that raises is logged, sets the stop event
    and ends [export] before any poll, at any delay. *)
Theorem poll_loop_confines_errors
    (modem_cookies : cookies) (w wb : World) (e : exn) (tb : list event)
    (n : nat) (w0 wl : World) (e0 : exn) (tl : list event)
    (Hdelay : sleep_accepts (scrape_delay cfg) = true)
    (Hbody : full_cycle_body_ modem_cookies w = (Err e, wb, tb))
    (Hlogin : login_ w0 = (Err e0, wl, tl)) :
  full_export_cycle_ modem_cookies w
  = (Ok tt, wb,
     tb ++ [EvLog Error "Failed to update modem status" (Some e);
            EvSleep (scrape_delay cfg); EvSleep (scrape_delay cfg)])
  /\ (forall c w',
        result_of (full_export_cycle_ c w') = Ok tt
        /\ stop_event (world_of (full_export_cycle_ c w')) = stop_event w')
  /\ (forall m c w',
        result_of (full_poll_loop_ m c w') = Ok tt
        /\ stop_event (world_of (full_poll_loop_ m c w')) = stop_event w'
        /\ (has_key w' ->
            length (filter is_poll_post (trace_of (full_poll_loop_ m c w')))
            = m))
  /\ full_export_ n w0
     = (Ok tt, set_stop wl,
        tl ++ [EvLog Critical "Login failed" (Some e0); EvStop])
  /\ stop_event (world_of (full_export_ n w0)) = true
  /\ filter is_poll_post (trace_of (full_export_ n w0)) = [].
Proof.
  assert (Hexport : full_export_ n w0
                    = (Ok tt, set_stop wl,
                       tl ++ [EvLog Critical "Login failed" (Some e0);
                              EvStop])).
  { unfold full_export. unfold_M. rewrite Hlogin. simpl.
    now rewrite app_nil_r. }
  split; [|split; [|split; [|split; [exact Hexport|]]]].
  - unfold full_export_cycle, try_except_finally.
    rewrite Hbody, (asyncio_sleep_accepted _ Hdelay). reflexivity.
  - intros c w'. rewrite (full_export_cycle_accepted c Hdelay).
    destruct (export_cycle_effects cfg env str_of_json c w') as (H1 & H2 & _).
    auto.
  - intros m c w'. rewrite (full_poll_loop_accepted m c Hdelay).
    destruct (poll_loop_effects cfg env str_of_json m c w') as (H1 & H2 & H3).
    repeat split; auto. intros Hk. now apply H3.
  - rewrite Hexport. unfold world_of, trace_of. simpl. split; [reflexivity|].
    rewrite filter_app. simpl.
    destruct (login_effects cfg env str_of_json w0)
      as (_ & _ & _ & _ & _ & _ & _ & Hpoll & _).
    rewrite Hlogin in Hpoll. unfold trace_of in Hpoll. simpl in Hpoll.
    now rewrite (count_zero_filter _ _ Hpoll).
Qed.

(** How many times a turn of [export_cycle] sleeps. *)
Lemma export_cycle_sleep_count (modem_cookies : cookies) (w : World) :
  let t := trace_of (export_cycle_ modem_cookies w) in
  count is_sleep t = (if (count is_put t =? 0)%nat then 2 else 1)%nat
  /\ sleeps_of delay_ t = true.
Proof.
  cbv zeta.
  destruct (export_cycle_cases cfg env str_of_json modem_cookies w)
    as [(pre & e & _ & _ & Ht & Hpre) | (key & j & res & Hkey & Hreply & Hres)];
    cbv zeta in *.
  - rewrite Ht.
    destruct Hpre as [-> | (key & ->)]; unfold poll_post_event, count,
      sleeps_of; simpl; rewrite Z.eqb_refl; split; reflexivity.
  - destruct (is_OK res) eqn:Hok.
    + rewrite (ok_poll_cycle cfg env str_of_json modem_cookies w key j res
                 Hkey Hreply Hres Hok).
      cbv zeta. unfold poll_post_event, count, sleeps_of.
      destruct (build_row cfg j _ _) as [row|e]; rewrite run_trace; simpl;
        rewrite Z.eqb_refl; split; reflexivity.
    + rewrite (failed_poll_cycle cfg env str_of_json modem_cookies w key j res
                 Hkey Hreply Hres Hok).
      destruct (login_effects cfg env str_of_json (after_poll w))
        as (_ & _ & _ & _ & _ & _ & Hput & _).
      destruct (login_quiet cfg env str_of_json (after_poll w)) as (Hsl & _).
      cbv zeta in *. rewrite run_trace.
      unfold poll_post_event.
      rewrite !count_app, !sleeps_of_app, Hsl, Hput,
        (sleeps_of_quiet _ _ Hsl).
      unfold cycle_tail, count, sleeps_of.
      destruct (result_of (login_ (after_poll w))); simpl;
        rewrite Z.eqb_refl; split; reflexivity.
Qed.

Lemma poll_loop_sleep_count (n : nat) (modem_cookies : cookies) (w : World) :
  let t := trace_of (poll_loop_ n modem_cookies w) in
  (count is_sleep t + count is_put t = 2 * n)%nat
  /\ sleeps_of delay_ t = true.
Proof.
  cbv zeta. revert w. induction n as [|n IH]; intros w.
  - split; reflexivity.
  - cbn [poll_loop]. unfold bind.
    destruct (export_cycle_sleep_count modem_cookies w) as (Hc & Hs).
    destruct (export_cycle_effects cfg env str_of_json modem_cookies w)
      as (Hr & _ & _ & Hput & _).
    cbv zeta in *. unfold result_of, trace_of in *.
    destruct (export_cycle_ modem_cookies w) as [[r w1] t1].
    cbn [fst snd] in *. subst r.
    destruct (IH w1) as (IHc & IHs).
    destruct (poll_loop_ n modem_cookies w1) as [[r2 w2] t2].
    cbn [fst snd] in *.
    rewrite !count_app, sleeps_of_app, Hs, IHs. split; [|reflexivity].
    rewrite Hc. destruct (count is_put t1) as [|[|c1]]; cbn [Nat.eqb]; lia.
Qed.

(** X7.  [login()] never sleeps.  At a delay [asyncio.sleep] accepts, a
    turn of the loop sleeps once when it has queued a row and twice (the
    sleep of the branch or of the handler, then the sleep of the
    [finally]) when it has not, each time for the configured delay; over
    [n] turns the sleeps and the rows queued add up to [2 n].  At a delay
    it rejects, the turn completes no sleep and ends on [OverflowError]. *)
Theorem turn_sleeps_once_or_twice_or_raises
    (n : nat) (modem_cookies : cookies) (w : World) :
  let turn := full_export_cycle_ modem_cookies w in
  let loop := full_poll_loop_ n modem_cookies w in
  count is_sleep (trace_of (login_ w)) = 0%nat
  /\ if sleep_accepts (scrape_delay cfg) then
       result_of turn = Ok tt
       /\ count is_sleep (trace_of turn)
          = (if (count is_put (trace_of turn) =? 0)%nat then 2 else 1)%nat
       /\ sleeps_of (scrape_delay cfg) (trace_of turn) = true
       /\ (count is_sleep (trace_of loop) + count is_put (trace_of loop)
           = 2 * n)%nat
       /\ sleeps_of (scrape_delay cfg) (trace_of loop) = true
     else
       result_of turn = Err OverflowError
       /\ count is_sleep (trace_of turn) = 0%nat.
Proof.
  cbv zeta. split; [apply login_quiet|].
  destruct (sleep_accepts (scrape_delay cfg)) eqn:Hdelay.
  - rewrite (full_export_cycle_accepted _ Hdelay),
      (full_poll_loop_accepted _ _ Hdelay).
    destruct (export_cycle_effects cfg env str_of_json modem_cookies w)
      as (Hr & _).
    destruct (export_cycle_sleep_count modem_cookies w) as (Hc & Hs).
    destruct (poll_loop_sleep_count n modem_cookies w) as (Hlc & Hls).
    cbv zeta in *. auto.
  - destruct (full_export_cycle_rejected modem_cookies w Hdelay)
      as (Hr & Hc & _).
    auto.
Qed.

(** X19.  [export()] lets an exception out only at a delay
    [asyncio.sleep] rejects.  When the first [login()] raises it returns
    with the stop event set.  Otherwise the header read at the top is
    there (the login has stored it) and the loop runs with the stop event
    left as it was: at an accepted delay no number of turns ends on an
    exception; at a rejected one the first turn ends on the
    [OverflowError] of a sleep outside every [try]. *)
Theorem export_raises_only_at_a_rejected_delay (n : nat) (w : World) :
  let run := full_export_ n w in
  result_of run
  = match result_of (login_ w) with
    | Err _ => Ok tt
    | Ok _ =>
        if sleep_accepts (scrape_delay cfg) || (n =? 0)%nat then Ok tt
        else Err OverflowError
    end
  /\ stop_event (world_of run)
     = match result_of (login_ w) with
       | Ok _ => stop_event w
       | Err _ => true
       end
  /\ (1 <= count is_login_call (trace_of run))%nat.
Proof.
  cbv zeta. unfold full_export, try_except. unfold_M.
  destruct (login_effects cfg env str_of_json w)
    as (_ & Hstop & _ & _ & _ & Hlog & _).
  pose proof (login_Ok_session cfg env str_of_json w) as Hok.
  cbv zeta in *. unfold result_of, world_of, trace_of, count in *.
  destruct (login_ w) as [[[[]|e] w1] t1]; cbn [fst snd] in *.
  - destruct (Hok w1 t1 eq_refl) as (_ & h & Hh). rewrite Hh. cbn [fst snd].
    assert (Hloop :
      fst (fst (full_poll_loop_ n (cookies_of (session w1)) w1))
      = (if sleep_accepts (scrape_delay cfg) || (n =? 0)%nat then Ok tt
         else Err OverflowError)
      /\ stop_event (snd (fst (full_poll_loop_ n (cookies_of (session w1))
                                 w1)))
         = stop_event w1).
    { destruct (sleep_accepts (scrape_delay cfg)) eqn:Hdelay.
      - rewrite (full_poll_loop_accepted n _ Hdelay).
        destruct (poll_loop_effects cfg env str_of_json n
                    (cookies_of (session w1)) w1) as (Hr & Hs & _).
        cbv zeta in *. unfold result_of, world_of in *. auto.
      - destruct n as [|n]; [split; reflexivity|].
        destruct (full_poll_loop_rejected n (cookies_of (session w1)) w1
                    Hdelay) as (Hr & _ & Hs & _).
        cbv zeta in *. unfold result_of, world_of in *. auto. }
    destruct Hloop as (Hr & Hs).
    destruct (full_poll_loop_ n (cookies_of (session w1)) w1)
      as [[r2 w2] t2].
    cbn [fst snd] in *. subst r2.
    repeat split; [congruence|].
    rewrite !filter_app, !length_app, Hlog. lia.
  - cbn [fst snd]. repeat split.
    rewrite !filter_app, !length_app, Hlog. lia.
Qed.

(** A cycle whose poll is answered "OK", at any delay: the row is queued
    before the sleep of the [finally] is reached. *)
Lemma full_ok_poll_cycle
    (modem_cookies : cookies) (w : World) (key : string) (j res : json) :
  private_key (session w) = JStr key ->
  http_reply env (n_http w) = ReplyJson j ->
  combined_result j = Ok res ->
  is_OK res = true ->
  let start := perf_counter env (n_perf w) in
  let finish := perf_counter env (S (n_perf w)) in
  let timestamp := utc_timestamp env (n_utc w) in
  let w1 := next_utc (next_perf (after_poll w)) in
  let events :=
    [EvPerfCounter start;
     EvTime (time_ms env (n_time w));
     poll_post_event cfg env modem_cookies w key;
     EvPerfCounter finish;
     EvLog Info "Modem status scraping complete" None;
     EvUtcNow timestamp] in
  let accepted := sleep_accepts delay_ in
  full_export_cycle_ modem_cookies w
  = match build_row cfg j (PrimFloat.sub finish start) timestamp with
    | Ok row =>
        (if accepted then Ok tt else Err OverflowError,
         set_queue (queue w ++ [(insert_statement cfg, [row])]) w1,
         events ++ EvPut (insert_statement cfg, [row])
                   :: (if accepted then [EvSleep delay_] else []))
    | Err e =>
        (if accepted then Ok tt else Err OverflowError, w1,
         events ++ EvLog Error "Failed to update modem status" (Some e)
                   :: (if accepted then [EvSleep delay_; EvSleep delay_]
                       else []))
    end.
Proof.
  intros Hkey Hreply Hres Hok. cbv zeta.
  unfold full_export_cycle, full_cycle_body, after_poll, poll_post_event,
    asyncio_sleep, try_except_finally.
  destruct (sleep_accepts delay_); unfold_M; simpl; rewrite Hkey; simpl;
    rewrite Hreply, Hres; simpl; rewrite Hok; simpl;
    destruct (build_row cfg j _ _) as [row|e]; reflexivity.
Qed.

(** C7, as amended.  In a cycle whose combined result is "OK", a
    well-formed payload puts exactly one row in the queue.  Well-formed:
    the five fields are there; every downstream segment has ten
    caret-separated fields and every upstream segment eight, the numeric
    ones holding plain text that [int], or [float], converts; the uptime
    text has its four parts, the days in no more digits than [int]
    converts.  The row has one entry per segment of each raw channel
    string, the uptime of the text, and as its timestamp the UTC clock
    read after the answer of the poll, as its latency ends after it.  The
    row is queued before the sleep of the [finally]: it is there also at a
    delay that sleep rejects. *)
Theorem ok_poll_enqueues_row_when_payload_is_well_formed
    (modem_cookies : cookies) (w : World) (key : string) (j res : json)
    (downstream upstream : string) (d1 : ascii) (ds : string)
    (h1 h2 m1 m2 s1 s2 : ascii) (filename version : json)
    (Hkey : private_key (session w) = JStr key)
    (Hreply : http_reply env (n_http w) = ReplyJson j)
    (Hres : combined_result j = Ok res)
    (Hok : is_OK res = true)
    (Hdown : status_field j "GetMotoStatusDownstreamChannelInfoResponse"
               "MotoConnDownstreamChannel" = Ok (JStr downstream))
    (Hdown_wf : forallb well_formed_downstream
                  (split channel_separator downstream) = true)
    (Hup : status_field j "GetMotoStatusUpstreamChannelInfoResponse"
             "MotoConnUpstreamChannel" = Ok (JStr upstream))
    (Hup_wf : forallb well_formed_upstream
                (split channel_separator upstream) = true)
    (Huptime : status_field j "GetMotoStatusConnectionInfoResponse"
                 "MotoConnSystemUpTime"
               = Ok (JStr (uptime_text (String d1 ds) h1 h2 m1 m2 s1 s2)))
    (Hdays : days_text (String d1 ds) = true)
    (Hh1 : is_digit h1 = true) (Hh2 : is_digit h2 = true)
    (Hm1 : is_digit m1 = true) (Hm2 : is_digit m2 = true)
    (Hs1 : is_digit s1 = true) (Hs2 : is_digit s2 = true)
    (Hfile : status_field j "GetMotoStatusStartupSequenceResponse"
               "MotoConnConfigurationFileComment" = Ok filename)
    (Hversion : status_field j "GetMotoStatusSoftwareResponse"
                  "StatusSoftwareSfVer" = Ok version) :
  let run := full_export_cycle_ modem_cookies w in
  let start := perf_counter env (n_perf w) in
  let finish := perf_counter env (S (n_perf w)) in
  let timestamp := utc_timestamp env (n_utc w) in
  let events :=
    [EvPerfCounter start;
     EvTime (time_ms env (n_time w));
     poll_post_event cfg env modem_cookies w key;
     EvPerfCounter finish;
     EvLog Info "Modem status scraping complete" None;
     EvUtcNow timestamp] in
  exists row : Row,
    let item := (insert_statement cfg, [row]) in
    trace_of run
    = events ++ EvPut item
                :: (if sleep_accepts (scrape_delay cfg)
                    then [EvSleep (scrape_delay cfg)] else [])
    /\ result_of run
       = (if sleep_accepts (scrape_delay cfg) then Ok tt
          else Err OverflowError)
    /\ count is_put (trace_of run) = 1%nat
    /\ queue (world_of run) = queue w ++ [item]
    /\ row_timestamp row = timestamp
    /\ row_scrape_latency row = PrimFloat.sub finish start
    /\ length (row_downstream row)
       = length (split channel_separator downstream)
    /\ length (row_upstream row)
       = length (split channel_separator upstream)
    /\ row_uptime row
       = decimal_value 0 (String d1 ds) * 86400
         + decimal_value 0 (String h1 (String h2 EmptyString)) * 3600
         + decimal_value 0 (String m1 (String m2 EmptyString)) * 60
         + decimal_value 0 (String s1 (String s2 EmptyString))
    /\ row_config_filename row = filename
    /\ row_version row = version
    /\ row_modem_name row = modem_name cfg
    /\ row_model row = "MB8600"%string.
Proof.
  cbv zeta.
  rewrite (full_ok_poll_cycle modem_cookies w key j res Hkey Hreply Hres Hok).
  cbv zeta.
  destruct (build_row_well_formed cfg j downstream upstream d1 ds
              h1 h2 m1 m2 s1 s2 filename version
              (PrimFloat.sub (perf_counter env (S (n_perf w)))
                 (perf_counter env (n_perf w)))
              (utc_timestamp env (n_utc w))
              Hdown Hdown_wf Hup Hup_wf Huptime Hdays
              Hh1 Hh2 Hm1 Hm2 Hs1 Hs2 Hfile Hversion)
    as (dch & uch & Hld & Hlu & ->).
  eexists. rewrite run_trace, run_result, run_world.
  split; [reflexivity|]. split; [reflexivity|].
  split.
  - unfold count, poll_post_event.
    destruct (sleep_accepts (scrape_delay cfg)); reflexivity.
  - cbn [queue set_queue row_timestamp row_scrape_latency row_downstream
         row_upstream row_uptime row_config_filename row_version
         row_modem_name row_model].
    repeat split; auto.
Qed.

End FullExporterFacts.

Lemma poll_loop_confines_errors_witness :
  let body := full_cycle_body example_config env_down str_of_scalar
                (cookies_of example_session) logged_in in
  let first := login example_config env_down str_of_scalar initial_world in
  let turn := full_export_cycle example_config env_down str_of_scalar
                (cookies_of example_session) logged_in in
  let run := full_export example_config env_down str_of_scalar 3
               initial_world in
  sleep_accepts (scrape_delay example_config) = true
  /\ body = (Err ClientError, world_of body, trace_of body)
  /\ first = (Err ClientError, world_of first, trace_of first)
  /\ turn = (Ok tt, world_of body,
             trace_of body
             ++ [EvLog Error "Failed to update modem status"
                   (Some ClientError);
                 EvSleep 10; EvSleep 10])
  /\ result_of run = Ok tt
  /\ stop_event (world_of run) = true
  /\ filter is_poll_post (trace_of run) = [].
Proof.
  cbv zeta.
  assert (Hdelay : sleep_accepts (scrape_delay example_config) = true)
    by (vm_compute; reflexivity).
  assert (Hbody :
    full_cycle_body example_config env_down str_of_scalar
      (cookies_of example_session) logged_in
    = (Err ClientError,
       world_of (full_cycle_body example_config env_down str_of_scalar
                   (cookies_of example_session) logged_in),
       trace_of (full_cycle_body example_config env_down str_of_scalar
                   (cookies_of example_session) logged_in)))
    by (vm_compute; reflexivity).
  assert (Hfirst :
    login example_config env_down str_of_scalar initial_world
    = (Err ClientError,
       world_of (login example_config env_down str_of_scalar initial_world),
       trace_of (login example_config env_down str_of_scalar initial_world)))
    by (vm_compute; reflexivity).
  split; [exact Hdelay|]. split; [exact Hbody|]. split; [exact Hfirst|].
  pose proof (poll_loop_confines_errors
                example_config env_down str_of_scalar
                (cookies_of example_session) logged_in _ _ _
                3 initial_world _ _ _ Hdelay Hbody Hfirst) as H.
  destruct H as (H1 & _ & _ & H4 & H5 & H6).
  split; [exact H1|]. rewrite H4. repeat split; assumption.
Defined.

(** C5, as stated, fails at a delay [asyncio.sleep] rejects, and
    [_load_env_vars] accepts such a delay: with SCRAPE_DELAY at 10^309 the
    transport error of the poll is caught and logged, but the sleep of the
    handler raises [OverflowError] outside every [try], as does the sleep
    of the [finally]; the exception leaves the cycle and the loop ends
    after one poll, without a sleep. *)
Lemma rejected_delay_ends_the_loop :
  let modem_cookies := cookies_of example_session in
  let body := full_cycle_body unsleepable_config env_down str_of_scalar
                modem_cookies logged_in in
  let turn := full_export_cycle unsleepable_config env_down str_of_scalar
                modem_cookies logged_in in
  let loop := full_poll_loop unsleepable_config env_down str_of_scalar 3
                modem_cookies logged_in in
  match load_env_vars environ_unsleepable with
  | Started s => settings_config s = unsleepable_config
  | _ => False
  end
  /\ sleep_accepts (scrape_delay unsleepable_config) = false
  /\ result_of body = Err ClientError
  /\ In (EvLog Error "Failed to update modem status" (Some ClientError))
       (trace_of turn)
  /\ result_of turn = Err OverflowError
  /\ count is_sleep (trace_of turn) = 0%nat
  /\ result_of loop = Err OverflowError
  /\ count is_poll_post (trace_of loop) = 1%nat.
Proof.
  cbv zeta. repeat (split; [vm_compute; reflexivity|]).
  split; [vm_compute; tauto|].
  repeat (split; [vm_compute; reflexivity|]).
  vm_compute. reflexivity.
Qed.

Lemma ok_poll_enqueues_row_when_payload_is_well_formed_witness :
  let j := status_json "OK" example_downstream example_upstream
             example_uptime in
  let run := full_export_cycle example_config env_ok str_of_scalar
               (cookies_of example_session) logged_in in
  forallb well_formed_downstream (split channel_separator example_downstream)
  = true
  /\ forallb well_formed_upstream (split channel_separator example_upstream)
     = true
  /\ example_uptime = uptime_text "5" "0" "3" "2" "1" "0" "9"
  /\ http_reply env_ok (n_http logged_in) = ReplyJson j
  /\ result_of run = Ok tt
  /\ count is_put (trace_of run) = 1%nat
  /\ map (fun item => map (fun row => (length (row_downstream row),
                                       length (row_upstream row),
                                       row_uptime row,
                                       row_timestamp row))
                        (snd item))
       (queue (world_of run))
     = [[(2%nat, 1%nat, 444069, utc_timestamp env_ok 0)]].
Proof.
  cbv zeta. do 4 (split; [reflexivity|]).
  destruct (ok_poll_enqueues_row_when_payload_is_well_formed
              example_config env_ok str_of_scalar
              (cookies_of example_session) logged_in
              "3A03969985504B95C63B027E6EA7F5AC"
              (status_json "OK" example_downstream example_upstream
                 example_uptime)
              (JStr "OK") example_downstream example_upstream
              "5" "" "0" "3" "2" "1" "0" "9"
              (JStr "d11_m_mb8600.cfg") (JStr "8600-19.3.18")
              eq_refl eq_refl eq_refl eq_refl eq_refl eq_refl eq_refl eq_refl
              eq_refl eq_refl eq_refl eq_refl eq_refl eq_refl eq_refl eq_refl
              eq_refl eq_refl)
    as (row & Ht & Hr & Hput & Hq & Hts & _ & Hld & Hlu & Hu & _).
  split; [exact Hr|]. split; [exact Hput|].
  rewrite Hq. cbn [queue logged_in set_session initial_world app map snd].
  rewrite Hld, Hlu, Hu, Hts. reflexivity.
Defined.

(** ** From the environment to the run *)

(** X18.  An exporter that got through [_load_env_vars] with plain text in
    its settings, and with a delay [asyncio.sleep] accepts, cannot spin:
    with the settings the loading returned, every request of [export()]
    goes to the HNAP address under [MODEM_URL], and the loop sleeps at
    least one second per turn, [n] seconds or more over [n] turns.  (At a
    delay [asyncio.sleep] rejects there is no turn to space: the first one
    ends the loop.) *)
Theorem started_exporter_does_not_spin
    (environment : environ) (s : Settings) (env : Env)
    (str_of_json : json -> string) (n : nat) (w : World)
    (Hplain : plain_settings environment = true)
    (Hload : load_env_vars environment = Started s)
    (Hdelay : sleep_accepts (scrape_delay (settings_config s)) = true) :
  let cfg := settings_config s in
  (exists address,
      environment "MODEM_URL" = Some address
      /\ signed_after (address ++ "/HNAP1/") None
           (trace_of (full_export cfg env str_of_json n w)) = true)
  /\ (forall modem_cookies w',
        let loop := full_poll_loop cfg env str_of_json n modem_cookies w' in
        result_of loop = Ok tt
        /\ Z.of_nat n <= slept (trace_of loop)
        /\ (n <= count is_sleep (trace_of loop))%nat).
Proof.
  cbv zeta. destruct (load_env_vars_Started environment s Hload) as (Hu & Hd).
  set (cfg := settings_config s) in *. split.
  - exists (modem_url cfg). split; [exact Hu|].
    change (modem_url cfg ++ "/HNAP1/")%string with (hnap_url cfg).
    rewrite (full_export_accepted cfg env str_of_json n w Hdelay).
    pose proof (export_unfold cfg env str_of_json n w) as Hrun.
    cbv zeta in Hrun. rewrite Hrun.
    destruct (result_of (login cfg env str_of_json w)) as [[]|e];
      cbv beta iota zeta; rewrite run_trace;
      (apply signed_after_app; [apply login_signed|]); intros now'.
    + apply poll_loop_signed.
    + reflexivity.
  - intros c w'.
    rewrite (full_poll_loop_accepted cfg env str_of_json n c Hdelay).
    pose proof (poll_loop_slept cfg env str_of_json n c w') as Hs.
    pose proof (poll_loop_sleep_count cfg env str_of_json n c w') as Hc.
    destruct (poll_loop_queue cfg env str_of_json n c w')
      as (added & _ & Hput & Hlen & _).
    destruct (poll_loop_effects cfg env str_of_json n c w') as (Hr & _).
    cbv zeta in *. split; [exact Hr|]. split.
    + rewrite Hs. unfold count. rewrite Hput, length_map. nia.
    + destruct Hc as (Hc & _). unfold count in *.
      rewrite Hput, length_map in *. lia.
Qed.

Lemma started_exporter_does_not_spin_witness :
  let cfg := {| modem_name := "MB8600";
                modem_url := "https://192.168.100.1";
                modem_username := "admin";
                modem_password := "motorola";
                clickhouse_table := "docsis";
                scrape_delay := 30 |} in
  let settings := {| settings_config := cfg;
                     clickhouse_url := "http://ch:8123";
                     clickhouse_username := "exporter";
                     clickhouse_password := "secret";
                     clickhouse_database := "metrics";
                     clickhouse_queue_limit := 1000;
                     settings_log_level := LevelDebug |} in
  plain_settings example_environ = true
  /\ load_env_vars example_environ = Started settings
  /\ sleep_accepts (scrape_delay cfg) = true
  /\ 2 <= slept (trace_of (full_poll_loop cfg env_down str_of_scalar 2 []
                             logged_in)).
Proof.
  cbv zeta. split; [reflexivity|]. split; [reflexivity|].
  split; [vm_compute; reflexivity|].
  pose proof (started_exporter_does_not_spin example_environ _ env_down
                str_of_scalar 2 logged_in eq_refl eq_refl eq_refl) as H.
  cbv zeta in H. destruct H as (_ & H). apply (H [] logged_in).
Defined.
